(** * A shallow embedding of the Flappy-Birb simulation core

    The sources hold several revisions of [main.ts]:
    - the revision with lives, score, a win flag and ghost replay
      (module [Game]; the revision without ghosts has the same
      [physics$] and player flap reducer and never sets the [ghosts]
      field, so its runs are the runs of [Game] made of [Tick] and
      [Flap] events only);
    - the globals that this revision keeps on [window] across runs and
      the subscriber that records a finished run (module [Replay]), and
      the session that calls [state$] once per run, with the arrays the
      runs share (module [Session]);
    - the earlier revision with rectangle collision, lives and cooldown
      but no score (module [RectGame]).

    JavaScript numbers that hold positions are modelled by [num]:
    exact rationals, kept in lowest terms, extended with NaN and the two
    infinities.  The rounding of IEEE doubles and the sign of zero are
    outside the model.  Counters that only ever hold integers (lives,
    score, ticks, identities) are [Z].  Strings are sequences of code
    units below 256. *)

From Stdlib Require Import ZArith QArith Qreduction Qpower List String Ascii Bool Lia Lqa.
From Stdlib Require Qcanon.
Import ListNotations.

Local Open Scope Z_scope.

(** ** JavaScript numbers *)

Module JSNum.

Inductive num : Type :=
| NaN
| NInf
| Fin (q : Q)
| PInf.

Definition ofZ (z : Z) : num := Fin (inject_Z z).

(** sign of a number that is not NaN: -1, 0 or 1 *)
Definition sgn (a : num) : Z :=
  match a with
  | NaN => 0
  | NInf => -1
  | Fin q => Z.sgn (Qnum q)
  | PInf => 1
  end.

Definition ofSign (s : Z) : num :=
  if s =? 0 then NaN else if s >? 0 then PInf else NInf.

(** unary [-] *)
Definition neg (a : num) : num :=
  match a with
  | NaN => NaN
  | NInf => PInf
  | Fin q => Fin (Qred (- q))
  | PInf => NInf
  end.

(** binary [+] *)
Definition add (a b : num) : num :=
  match a, b with
  | NaN, _ | _, NaN => NaN
  | PInf, NInf | NInf, PInf => NaN
  | PInf, _ | _, PInf => PInf
  | NInf, _ | _, NInf => NInf
  | Fin x, Fin y => Fin (Qred (x + y))
  end.

(** binary [-] *)
Definition sub (a b : num) : num :=
  match a, b with
  | NaN, _ | _, NaN => NaN
  | PInf, PInf | NInf, NInf => NaN
  | PInf, _ | _, NInf => PInf
  | NInf, _ | _, PInf => NInf
  | Fin x, Fin y => Fin (Qred (x - y))
  end.

(** binary [*] *)
Definition mul (a b : num) : num :=
  match a, b with
  | NaN, _ | _, NaN => NaN
  | Fin x, Fin y => Fin (Qred (x * y))
  | _, _ => ofSign (sgn a * sgn b)
  end.

(** binary [/]; a zero divisor is taken as +0 *)
Definition div (a b : num) : num :=
  match a, b with
  | NaN, _ | _, NaN => NaN
  | Fin x, Fin y =>
      if Qeq_bool y 0 then ofSign (sgn a) else Fin (Qred (x / y))
  | Fin _, _ => Fin 0
  | _, Fin _ => ofSign (sgn a * (if sgn b =? 0 then 1 else sgn b))
  | _, _ => NaN
  end.

(** [a <= b]; every comparison with NaN is false *)
Definition leb (a b : num) : bool :=
  match a, b with
  | NaN, _ | _, NaN => false
  | NInf, _ | _, PInf => true
  | Fin x, Fin y => Qle_bool x y
  | _, _ => false
  end.

(** [a < b] *)
Definition ltb (a b : num) : bool :=
  match a, b with
  | NaN, _ | _, NaN => false
  | PInf, _ | _, NInf => false
  | Fin x, Fin y => negb (Qle_bool y x)
  | _, _ => true
  end.

(** [a >= b] and [a > b] *)
Definition geb (a b : num) : bool := leb b a.
Definition gtb (a b : num) : bool := ltb b a.

(** [Math.max(a, b)] and [Math.min(a, b)]: NaN if either argument is *)
Definition max (a b : num) : num :=
  match a, b with
  | NaN, _ | _, NaN => NaN
  | _, _ => if leb a b then b else a
  end.

Definition min (a b : num) : num :=
  match a, b with
  | NaN, _ | _, NaN => NaN
  | _, _ => if leb a b then a else b
  end.

(** ToNumber of a value that may be [undefined] *)
Definition toNumber (v : option num) : num :=
  match v with
  | Some a => a
  | None => NaN
  end.

Definition isNaN (a : num) : bool :=
  match a with
  | NaN => true
  | _ => false
  end.

End JSNum.

Import JSNum.

Declare Scope num_scope.
Delimit Scope num_scope with num.
Bind Scope num_scope with num.
Infix "+" := JSNum.add : num_scope.
Infix "-" := JSNum.sub : num_scope.
Infix "*" := JSNum.mul : num_scope.
Infix "/" := JSNum.div : num_scope.
Notation "- a" := (JSNum.neg a) : num_scope.
Infix "<=?" := JSNum.leb : num_scope.
Infix "<?" := JSNum.ltb : num_scope.
Infix ">=?" := JSNum.geb : num_scope.
Infix ">?" := JSNum.gtb : num_scope.

(** ** JavaScript strings: [trim], [split] and [Number] *)

Module JSString.

Definition code (c : ascii) : Z := Z.of_N (N_of_ascii c).

(** WhiteSpace and LineTerminator code units below 256 *)
Definition isWhite (c : ascii) : bool :=
  let k := code c in
  ((9 <=? k) && (k <=? 13)) || (k =? 32) || (k =? 160).

Fixpoint trimStart (s : string) : string :=
  match s with
  | EmptyString => EmptyString
  | String c s' => if isWhite c then trimStart s' else s
  end.

Fixpoint trimEnd (s : string) : string :=
  match s with
  | EmptyString => EmptyString
  | String c s' =>
      match trimEnd s' with
      | EmptyString => if isWhite c then EmptyString else String c EmptyString
      | t => String c t
      end
  end.

(** [s.trim()] *)
Definition trim (s : string) : string := trimEnd (trimStart s).

(** [s.split(sep)] for a separator of one code unit *)
Fixpoint split (sep : ascii) (s : string) : list string :=
  match s with
  | EmptyString => [EmptyString]
  | String c s' =>
      if Ascii.eqb c sep then EmptyString :: split sep s'
      else match split sep s' with
           | [] => [String c EmptyString]
           | w :: ws => String c w :: ws
           end
  end.

Definition digitOf (radix : Z) (c : ascii) : option Z :=
  let k := code c in
  let v := if (48 <=? k) && (k <=? 57) then Some (k - 48)
           else if (97 <=? k) && (k <=? 102) then Some (k - 87)
           else if (65 <=? k) && (k <=? 70) then Some (k - 55)
           else None in
  match v with
  | Some d => if d <? radix then Some d else None
  | None => None
  end.

(** longest prefix of digits: its value, its length and the rest *)
Fixpoint digits (radix : Z) (s : string) (acc n : Z) : Z * Z * string :=
  match s with
  | EmptyString => (acc, n, s)
  | String c s' =>
      match digitOf radix c with
      | Some d => digits radix s' (acc * radix + d) (n + 1)
      | None => (acc, n, s)
      end
  end.

Definition isEmpty (s : string) : bool :=
  match s with
  | EmptyString => true
  | _ => false
  end.

Definition signOf (s : string) : Z * string :=
  match s with
  | String c r =>
      if Ascii.eqb c "+" then (1, r)
      else if Ascii.eqb c "-" then (-1, r)
      else (1, s)
  | EmptyString => (1, s)
  end.

(** NonDecimalIntegerLiteral after its prefix *)
Definition parseRadix (radix : Z) (s : string) : num :=
  let '(v, n, r) := digits radix s 0 0 in
  if (0 <? n) && isEmpty r then ofZ v else NaN.

(** StrDecimalLiteral *)
Definition parseDecimal (s : string) : num :=
  let '(sg, s1) := signOf s in
  if String.eqb s1 "Infinity" then (if sg =? 1 then PInf else NInf)
  else
    let '(ip, ni, s2) := digits 10 s1 0 0 in
    let '(fp, nf, s3) :=
      match s2 with
      | String c r => if Ascii.eqb c "." then digits 10 r 0 0 else (0, 0, s2)
      | EmptyString => (0, 0, s2)
      end in
    if ni + nf =? 0 then NaN
    else
      let '(ex, ok, s4) :=
        match s3 with
        | String c r =>
            if Ascii.eqb c "e" || Ascii.eqb c "E" then
              let '(es, r1) := signOf r in
              let '(ev, ne, r2) := digits 10 r1 0 0 in
              if ne =? 0 then (0, false, s3) else (es * ev, true, r2)
            else (0, true, s3)
        | EmptyString => (0, true, s3)
        end in
      if ok && isEmpty s4
      then Fin (Qred (inject_Z (sg * (ip * 10 ^ nf + fp))
                      * Qpower (inject_Z 10) (ex - nf)))
      else NaN.

(** [Number(s)]: StringToNumber *)
Definition Number (s : string) : num :=
  let t := trim s in
  match t with
  | EmptyString => ofZ 0
  | String c0 (String c1 r) =>
      if Ascii.eqb c0 "0" then
        if Ascii.eqb c1 "x" || Ascii.eqb c1 "X" then parseRadix 16 r
        else if Ascii.eqb c1 "o" || Ascii.eqb c1 "O" then parseRadix 8 r
        else if Ascii.eqb c1 "b" || Ascii.eqb c1 "B" then parseRadix 2 r
        else parseDecimal t
      else parseDecimal t
  | _ => parseDecimal t
  end.

End JSString.

Import JSString.


(** ** Configuration constants *)

Module Viewport.
Definition CANVAS_WIDTH : num := ofZ 600.
Definition CANVAS_HEIGHT : num := ofZ 400.
End Viewport.

Module Birb.
Definition WIDTH : num := ofZ 42.
Definition HEIGHT : num := ofZ 30.
End Birb.

Module Constants.
Definition PIPE_WIDTH : num := ofZ 120.
Definition PIPE_HEIGHT : num := ofZ 400.
Definition PIPE_SPEED : num := ofZ 3.
Definition PIPE_SPAWN_DISTANCE : num := ofZ 250.
Definition GRAVITY : num := Fin (1 # 2).
Definition JUMP_VELOCITY : num := ofZ (-5).
Definition TICK_RATE_MS : Z := 30.
(** Hit cooldown in ticks to prevent draining all lives in a single overlap *)
Definition HIT_COOLDOWN_TICKS : Z := 30.
(** How long to show the damage indicator after losing a life (ticks) *)
Definition DAMAGE_TICKS : Z := 30.
End Constants.

(** [2] as it appears in [x / 2] *)
Definition two : num := ofZ 2.

(** Utility: clamp value to [min, max] *)
Definition clamp (value min max : num) : num :=
  JSNum.max min (JSNum.min max value).

(** truthiness of an optional boolean property *)
Definition truthy (b : option bool) : bool :=
  match b with
  | Some true => true
  | _ => false
  end.

(** [arr?.[i]] for an array that may be [undefined] *)
Definition optNth {A : Type} (arr : option (list A)) (i : nat) : option A :=
  match arr with
  | Some l => nth_error l i
  | None => None
  end.

(** [arr.map((g, i) => f(g, i))], counting from [i] *)
Fixpoint mapi {A B : Type} (f : A -> nat -> B) (i : nat) (l : list A) : list B :=
  match l with
  | [] => []
  | a :: l' => f a i :: mapi f (S i) l'
  end.

(** [arr[i] = v] for an index inside the array *)
Fixpoint setNth {A : Type} (i : nat) (v : A) (l : list A) : list A :=
  match l, i with
  | [], _ => []
  | _ :: l', O => v :: l'
  | a :: l', S i' => a :: setNth i' v l'
  end.

(** ** The revision with score, win flag and ghosts *)

Module Game.

Module Bird.
Record t : Type := mk { x : num; y : num; velocity : num }.
End Bird.

Module Ghost.
Record t : Type := mk {
  x : num;
  y : num;
  velocity : num;
  dead : option bool (* for filtering out ghosts that died last run *)
}.
End Ghost.

Module Pipe.
Record t : Type := mk {
  id : Z;
  x : num;
  gapY : num;
  gapHeight : num;
  time : option num;
  scored : option bool (* becomes true once the bird has passed this pipe pair *)
}.
End Pipe.

(** FRP State: the single immutable source of truth that evolves over time *)
Record State : Type := mkState {
  gameEnd : bool;
  won : bool;
  bird : Bird.t;
  ghosts : option (list Ghost.t); (* all ghost birds (non-interactive) *)
  pipes : list Pipe.t;
  lives : Z;
  score : Z;
  gameTime : Z;
  hitCooldown : Z; (* ticks remaining until next life can be lost *)
  totalPipes : Z; (* total number of pipe pairs in level *)
  damageTicks : Z (* ticks remaining to show -hp indicator *)
}.

Definition initialState : State :=
  {| gameEnd := false;
     won := false;
     bird := {| Bird.x := (Viewport.CANVAS_WIDTH * Fin (3 # 10))%num;
                Bird.y := (Viewport.CANVAS_HEIGHT / two)%num;
                Bird.velocity := ofZ 0 |};
     ghosts := None;
     pipes := [];
     lives := 3;
     score := 0;
     gameTime := 0;
     hitCooldown := 0;
     totalPipes := 0;
     damageTicks := 0 |}.

(** *** Level loader *)

(** one iteration of the loop of [parsePipeData], for line [i] *)
Definition parseLine (i : Z) (line : string) : Pipe.t :=
  let fields := map Number (split "," line) in
  let gapY := nth_error fields 0 in
  let gapHeight := nth_error fields 1 in
  let time := nth_error fields 2 in
  {| Pipe.id := i - 1;
     Pipe.x := (Viewport.CANVAS_WIDTH
                + ofZ (i - 1) * Constants.PIPE_SPAWN_DISTANCE)%num;
     Pipe.gapY := (toNumber gapY * Viewport.CANVAS_HEIGHT)%num;
     Pipe.gapHeight := (toNumber gapHeight * Viewport.CANVAS_HEIGHT)%num;
     Pipe.time := time;
     Pipe.scored := None |}.

(** the loop [for (let i = ...; i < lines.length; i++)] over the lines
    from index [i] on *)
Fixpoint parseLines (i : Z) (rest : list string) : list Pipe.t :=
  match rest with
  | [] => []
  | line :: rest' => parseLine i line :: parseLines (i + 1) rest'
  end.

(** Parses CSV content and converts it to pipe data *)
Definition parsePipeData (csvContent : string) : list Pipe.t :=
  let lines := split "010" (trim csvContent) in
  parseLines 1 (tl lines).

Definition initialGameState (csvContents : string) : State :=
  let pipeData := parsePipeData csvContents in
  {| gameEnd := gameEnd initialState;
     won := won initialState;
     bird := bird initialState;
     ghosts := ghosts initialState;
     pipes := pipeData;
     lives := lives initialState;
     score := score initialState;
     gameTime := gameTime initialState;
     hitCooldown := hitCooldown initialState;
     totalPipes := Z.of_nat (List.length pipeData);
     damageTicks := damageTicks initialState |}.

(** *** Physics tick: gravity integration, position update, pipe scrolling

    Each local [const] of the reducer is a function of the state the
    reducer is applied to. *)

Definition newVelocity (s : State) : num :=
  (Bird.velocity (bird s) + Constants.GRAVITY)%num.

Definition newY (s : State) : num :=
  (Bird.y (bird s) + newVelocity s)%num.

(** Clamp bird within screen *)
Definition clampedY (s : State) : num :=
  clamp (newY s)
        (Birb.HEIGHT / two)%num
        (Viewport.CANVAS_HEIGHT - Birb.HEIGHT / two)%num.

(** Move pipes *)
Definition movePipe (pipe : Pipe.t) : Pipe.t :=
  {| Pipe.id := Pipe.id pipe;
     Pipe.x := (Pipe.x pipe - Constants.PIPE_SPEED)%num;
     Pipe.gapY := Pipe.gapY pipe;
     Pipe.gapHeight := Pipe.gapHeight pipe;
     Pipe.time := Pipe.time pipe;
     Pipe.scored := Pipe.scored pipe |}.

Definition movedPipes (s : State) : list Pipe.t :=
  map movePipe (pipes s).

Definition onScreen (pipe : Pipe.t) : bool :=
  (Pipe.x pipe >? - Constants.PIPE_WIDTH)%num.

Definition updatedPipes (s : State) : list Pipe.t :=
  filter onScreen (movedPipes s).

(** Score & pipe collision using center-line rule: the two variables the
    callback of [updatedPipes.map] assigns to *)
Record Tally : Type := mkTally {
  addedScore : Z;
  pipeCenterCollision : bool
}.

Definition justPassed (birdX : num) (p : Pipe.t) : bool :=
  let pipeCenterX := (Pipe.x p + Constants.PIPE_WIDTH / two)%num in
  negb (truthy (Pipe.scored p)) && (pipeCenterX <? birdX)%num.

Definition insideGap (y : num) (p : Pipe.t) : bool :=
  let gapTop := (Pipe.gapY p - Pipe.gapHeight p / two)%num in
  let gapBottom := (Pipe.gapY p + Pipe.gapHeight p / two)%num in
  (y >=? gapTop)%num && (y <=? gapBottom)%num.

Definition markScored (p : Pipe.t) : Pipe.t :=
  {| Pipe.id := Pipe.id p;
     Pipe.x := Pipe.x p;
     Pipe.gapY := Pipe.gapY p;
     Pipe.gapHeight := Pipe.gapHeight p;
     Pipe.time := Pipe.time p;
     Pipe.scored := Some true |}.

(** one call of the callback: the variables after it and its result *)
Definition scoreOne (birdX y : num) (t : Tally) (p : Pipe.t) : Tally * Pipe.t :=
  let t' :=
    if justPassed birdX p then
      if insideGap y p
      then {| addedScore := addedScore t + 1;
              pipeCenterCollision := pipeCenterCollision t |}
      else {| addedScore := addedScore t;
              pipeCenterCollision := true |}
    else t in
  (t', if justPassed birdX p then markScored p else p).

(** [updatedPipes.map(p => ...)], left to right *)
Fixpoint scoreAll (birdX y : num) (t : Tally) (ps : list Pipe.t)
  : Tally * list Pipe.t :=
  match ps with
  | [] => (t, [])
  | p :: ps' =>
      let r1 := scoreOne birdX y t p in
      let r2 := scoreAll birdX y (fst r1) ps' in
      (fst r2, snd r1 :: snd r2)
  end.

Definition scoring (s : State) : Tally * list Pipe.t :=
  scoreAll (Bird.x (bird s)) (clampedY s)
           {| addedScore := 0; pipeCenterCollision := false |}
           (updatedPipes s).

Definition scoredPipes (s : State) : list Pipe.t := snd (scoring s).

(** Screen bounds collision (top/bottom), then the center-line result *)
Definition collided (s : State) : bool :=
  let collided :=
    (clampedY s <=? Birb.HEIGHT / two)%num
    || (clampedY s >=? Viewport.CANVAS_HEIGHT - Birb.HEIGHT / two)%num in
  if negb collided && pipeCenterCollision (fst (scoring s)) then true
  else collided.

(** Handle lives with cooldown *)
Definition nextCooldown (s : State) : Z := Z.max 0 (hitCooldown s - 1).

Definition nextLives (s : State) : Z :=
  if collided s && (nextCooldown s =? 0) then Z.max 0 (lives s - 1)
  else lives s.

Definition nextCooldownOut (s : State) : Z :=
  if collided s && (nextCooldown s =? 0) then Constants.HIT_COOLDOWN_TICKS
  else nextCooldown s.

Definition newScore (s : State) : Z := score s + addedScore (fst (scoring s)).

Definition allPassed (s : State) : bool :=
  (newScore s >=? 20)
  || forallb (fun p => truthy (Pipe.scored p)) (scoredPipes s).

Definition physics (s : State) : State :=
  (* Freeze world when game has ended *)
  if gameEnd s then s
  else
    {| gameEnd := if nextLives s =? 0 then true else gameEnd s || allPassed s;
       won := if (nextLives s >? 0) && allPassed s then true else won s;
       bird := {| Bird.x := Bird.x (bird s);
                  Bird.y := clampedY s;
                  Bird.velocity :=
                    if nextLives s =? 0 then ofZ 0 else newVelocity s |};
       ghosts := ghosts s;
       pipes := scoredPipes s;
       lives := nextLives s;
       score := newScore s;
       gameTime := gameTime s + 1;
       hitCooldown := nextCooldownOut s;
       totalPipes := totalPipes s;
       damageTicks :=
         if collided s && (nextCooldown s =? 0) then Constants.DAMAGE_TICKS
         else Z.max 0 (damageTicks s - 1) |}.

(** Player flap reducer: immediate upward velocity *)
Definition playerFlapReducer (s : State) : State :=
  if gameEnd s then s
  else
    {| gameEnd := gameEnd s;
       won := won s;
       bird := {| Bird.x := Bird.x (bird s);
                  Bird.y := Bird.y (bird s);
                  Bird.velocity := Constants.JUMP_VELOCITY |};
       ghosts := ghosts s;
       pipes := pipes s;
       lives := lives s;
       score := score s;
       gameTime := gameTime s;
       hitCooldown := hitCooldown s;
       totalPipes := totalPipes s;
       damageTicks := damageTicks s |}.

(** *** The globals kept on [window] across runs *)

Record Window : Type := mkWindow {
  __allRunFlapTicksArrays : option (list (list Z));
  __allRunStartYs : option (list num);
  __allRunEndTicks : option (list Z);
  __currentRunStartY : option num;
  __lastGameEndTick : option Z
}.

(** Record endTick once when the game ends this frame: what [physics$]
    writes to [window] when applied to [s] *)
Definition physicsWindow (s : State) (w : Window) : Window :=
  if negb (gameEnd s) && gameEnd (physics s) then
    {| __allRunFlapTicksArrays := __allRunFlapTicksArrays w;
       __allRunStartYs := __allRunStartYs w;
       __allRunEndTicks := __allRunEndTicks w;
       __currentRunStartY := __currentRunStartY w;
       __lastGameEndTick := Some (gameTime (physics s)) |}
  else w.

(** *** Ghost state: the same physics, driven by recorded impulses

    [allTickLists] is read once when the run is set up; the start and
    end arrays are read from [window] each time a reducer runs. *)

Definition withGhosts (s : State) (gs : list Ghost.t) : State :=
  {| gameEnd := gameEnd s;
     won := won s;
     bird := bird s;
     ghosts := Some gs;
     pipes := pipes s;
     lives := lives s;
     score := score s;
     gameTime := gameTime s;
     hitCooldown := hitCooldown s;
     totalPipes := totalPipes s;
     damageTicks := damageTicks s |}.

Definition needed (allTickLists : option (list (list Z))) : nat :=
  match allTickLists with
  | Some l => List.length l
  | None => O
  end.

(** [s.ghosts && s.ghosts.length ? [...s.ghosts] : Array.from(...)] *)
Definition baseGhosts (allTickLists : option (list (list Z))) (w : Window)
  (s : State) : list Ghost.t :=
  match ghosts s with
  | Some (g :: gs) => g :: gs
  | _ =>
      map (fun i =>
             {| Ghost.x := Bird.x (bird s);
                Ghost.y := match optNth (__allRunStartYs w) i with
                           | Some y0 => y0
                           | None => (Viewport.CANVAS_HEIGHT / two)%num
                           end;
                Ghost.velocity := ofZ 0;
                Ghost.dead := None |})
          (seq 0 (needed allTickLists))
  end.

(** [typeof endTick === "number" && s.gameTime >= endTick] for ghost [i] *)
Definition sourceRunEnded (w : Window) (s : State) (i : nat) : bool :=
  match optNth (__allRunEndTicks w) i with
  | Some endTick => gameTime s >=? endTick
  | None => false
  end.

Definition advanceGhost (w : Window) (s : State) (g : Ghost.t) (i : nat)
  : Ghost.t :=
  if sourceRunEnded w s i then
    (* hide corpse for the very first run as well *)
    {| Ghost.x := Ghost.x g;
       Ghost.y := Ghost.y g;
       Ghost.velocity := Ghost.velocity g;
       Ghost.dead := Some true |}
  else
    let v := (Ghost.velocity g + Constants.GRAVITY)%num in
    let y := clamp (Ghost.y g + v)%num
                   (Birb.HEIGHT / two)%num
                   (Viewport.CANVAS_HEIGHT - Birb.HEIGHT / two)%num in
    {| Ghost.x := Ghost.x g;
       Ghost.y := y;
       Ghost.velocity := v;
       Ghost.dead := Ghost.dead g |}.

Definition ghostReducerPhysics (allTickLists : option (list (list Z)))
  (w : Window) (s : State) : State :=
  if gameEnd s then s
  else
    let nextGhosts := mapi (advanceGhost w s) 0 (baseGhosts allTickLists w s) in
    withGhosts s nextGhosts.

Definition ghostReducerFlap (allTickLists : option (list (list Z)))
  (w : Window) (idx : Z) (s : State) : State :=
  let baseGhosts := baseGhosts allTickLists w s in
  let baseGhosts' :=
    if (idx >=? 0) && (idx <? Z.of_nat (List.length baseGhosts)) then
      if negb (sourceRunEnded w s (Z.to_nat idx)) then
        match nth_error baseGhosts (Z.to_nat idx) with
        | Some g =>
            setNth (Z.to_nat idx)
                   {| Ghost.x := Ghost.x g;
                      Ghost.y := Ghost.y g;
                      Ghost.velocity := Constants.JUMP_VELOCITY;
                      Ghost.dead := Ghost.dead g |}
                   baseGhosts
        | None => baseGhosts
        end
      else baseGhosts
    else baseGhosts in
  withGhosts s baseGhosts'.

(** *** The merged reducer streams, folded over time by [scan] *)

Inductive Event : Type :=
| Tick                                   (* physics$ *)
| Flap                                   (* playerFlapReducer$ *)
| GhostTick (w : Window)                 (* ghostReducerPhysics$ *)
| GhostFlap (w : Window) (idx : Z).      (* ghostReducerFlap$ *)

Definition reducer (allTickLists : option (list (list Z))) (e : Event)
  : State -> State :=
  match e with
  | Tick => physics
  | Flap => playerFlapReducer
  | GhostTick w => ghostReducerPhysics allTickLists w
  | GhostFlap w idx => ghostReducerFlap allTickLists w idx
  end.

(** [scan((s, reducer) => reducer(s), initialGameState)]: the last state
    emitted after the events [es] *)
Definition scan (allTickLists : option (list (list Z))) (s : State)
  (es : list Event) : State :=
  fold_left (fun s e => reducer allTickLists e s) es s.

End Game.

(** ** The replay ledger: what the subscriber run at the end of a run
    does to the globals on [window]

    Here the tick lists are read as values, which is what one call of
    the subscriber sees.  The arrays behind them are shared with the
    runs that made them; module [Session] below keeps them in a heap. *)

Module Replay.

Import Game.

(** [old.length === arr.length && old.every((v, i) => v === arr[i])] *)
Definition sameTicks (arr old : list Z) : bool :=
  Nat.eqb (List.length old) (List.length arr)
  && forallb (fun b : bool => b)
       (mapi (fun v i => match nth_error arr i with
                         | Some a => v =? a
                         | None => false
                         end) 0 old).

(** [filter(arr => Array.isArray(arr) && arr.length > 0)] *)
Definition recordable (arr : list Z) : bool :=
  Nat.ltb 0 (List.length arr).

(** [ys.push(v)] on [(window.__xs || [])] *)
Definition pushOnto {A : Type} (xs : option (list A)) (v : A) : list A :=
  match xs with
  | Some l => l ++ [v]
  | None => [v]
  end.

(** the subscriber: append current run ticks once per session end *)
Definition record (arr : list Z) (w : Window) : Window :=
  let all := __allRunFlapTicksArrays w in
  let exists_ :=
    match all with
    | Some l => existsb (sameTicks arr) l
    | None => false
    end in
  {| __allRunFlapTicksArrays :=
       if exists_ then all else Some (pushOnto all arr);
     (* record startY and endTick for ghosts *)
     __allRunStartYs :=
       match __currentRunStartY w with
       | Some startY => Some (pushOnto (__allRunStartYs w) startY)
       | None => __allRunStartYs w
       end;
     __allRunEndTicks :=
       match __lastGameEndTick w with
       | Some endTick => Some (pushOnto (__allRunEndTicks w) endTick)
       | None => __allRunEndTicks w
       end;
     __currentRunStartY := __currentRunStartY w;
     __lastGameEndTick := __lastGameEndTick w |}.

(** number of entries of one of the ledger's arrays *)
Definition entries {A : Type} (xs : option (list A)) : nat :=
  match xs with
  | Some l => List.length l
  | None => O
  end.

End Replay.

(** ** The earlier revision: rectangle collision, lives and cooldown only *)

Module RectGame.

Module Bird := Game.Bird.

Module Pipe.
Record t : Type := mk {
  id : Z;
  x : num;
  gapY : num;
  gapHeight : num;
  time : option num
}.
End Pipe.

Record State : Type := mkState {
  gameEnd : bool;
  bird : Bird.t;
  pipes : list Pipe.t;
  lives : Z;
  score : Z;
  gameTime : Z;
  hitCooldown : Z (* ticks remaining until next life can be lost *)
}.

Definition JUMP_VELOCITY : num := ofZ (-7).

(** Axis-aligned rectangle intersection *)
Definition rectsIntersect (ax ay aw ah bx by_ bw bh : num) : bool :=
  negb ((ax + aw <=? bx)%num || (bx + bw <=? ax)%num
        || (ay + ah <=? by_)%num || (by_ + bh <=? ay)%num).

Definition newVelocity (s : State) : num :=
  (Bird.velocity (bird s) + Constants.GRAVITY)%num.

Definition newY (s : State) : num :=
  (Bird.y (bird s) + newVelocity s)%num.

Definition clampedY (s : State) : num :=
  clamp (newY s)
        (Birb.HEIGHT / two)%num
        (Viewport.CANVAS_HEIGHT - Birb.HEIGHT / two)%num.

Definition movePipe (pipe : Pipe.t) : Pipe.t :=
  {| Pipe.id := Pipe.id pipe;
     Pipe.x := (Pipe.x pipe - Constants.PIPE_SPEED)%num;
     Pipe.gapY := Pipe.gapY pipe;
     Pipe.gapHeight := Pipe.gapHeight pipe;
     Pipe.time := Pipe.time pipe |}.

Definition updatedPipes (s : State) : list Pipe.t :=
  filter (fun pipe => (Pipe.x pipe >? - Constants.PIPE_WIDTH)%num)
         (map movePipe (pipes s)).

(** Collision detection (bird as rectangle) *)
Definition pipeHit (birdX birdY birdW birdH : num) (p : Pipe.t) : bool :=
  let topH := JSNum.max (ofZ 0) (Pipe.gapY p - Pipe.gapHeight p / two)%num in
  let bottomY := (Pipe.gapY p + Pipe.gapHeight p / two)%num in
  let bottomH := JSNum.max (ofZ 0) (Viewport.CANVAS_HEIGHT - bottomY)%num in
  let topHit :=
    (topH >? ofZ 0)%num
    && rectsIntersect birdX birdY birdW birdH
                      (Pipe.x p) (ofZ 0) Constants.PIPE_WIDTH topH in
  let bottomHit :=
    (bottomH >? ofZ 0)%num
    && rectsIntersect birdX birdY birdW birdH
                      (Pipe.x p) bottomY Constants.PIPE_WIDTH bottomH in
  topHit || bottomHit.

(** [for (const p of updatedPipes) { ... if (hit) { collided = true; break; } }] *)
Fixpoint anyPipeHit (birdX birdY birdW birdH : num) (ps : list Pipe.t) : bool :=
  match ps with
  | [] => false
  | p :: ps' =>
      if pipeHit birdX birdY birdW birdH p then true
      else anyPipeHit birdX birdY birdW birdH ps'
  end.

Definition collided (s : State) : bool :=
  let birdX := (Bird.x (bird s) - Birb.WIDTH / two)%num in
  let birdY := (clampedY s - Birb.HEIGHT / two)%num in
  let birdW := Birb.WIDTH in
  let birdH := Birb.HEIGHT in
  let collided :=
    (clampedY s <=? Birb.HEIGHT / two)%num
    || (clampedY s >=? Viewport.CANVAS_HEIGHT - Birb.HEIGHT / two)%num in
  if negb collided then anyPipeHit birdX birdY birdW birdH (updatedPipes s)
  else collided.

(** Handle lives with cooldown *)
Definition nextCooldown (s : State) : Z := Z.max 0 (hitCooldown s - 1).

Definition nextLives (s : State) : Z :=
  if collided s && (nextCooldown s =? 0) then Z.max 0 (lives s - 1)
  else lives s.

Definition nextCooldownOut (s : State) : Z :=
  if collided s && (nextCooldown s =? 0) then Constants.HIT_COOLDOWN_TICKS
  else nextCooldown s.

Definition physics (s : State) : State :=
  (* Freeze world when game has ended *)
  if gameEnd s then s
  else
    {| gameEnd := if nextLives s =? 0 then true else gameEnd s;
       bird := {| Bird.x := Bird.x (bird s);
                  Bird.y := clampedY s;
                  Bird.velocity :=
                    if nextLives s =? 0 then ofZ 0 else newVelocity s |};
       pipes := updatedPipes s;
       lives := nextLives s;
       score := score s;
       gameTime := gameTime s + 1;
       hitCooldown := nextCooldownOut s |}.

End RectGame.

(** the rest of that revision: initial state, level loader, flap reducer
    and the fold *)

Module RectRun.

Import RectGame.

Definition initialState : State :=
  {| gameEnd := false;
     bird := {| Bird.x := (Viewport.CANVAS_WIDTH * Fin (3 # 10))%num;
                Bird.y := (Viewport.CANVAS_HEIGHT / two)%num;
                Bird.velocity := ofZ 0 |};
     pipes := [];
     lives := 3;
     score := 0;
     gameTime := 0;
     hitCooldown := 0 |}.

Definition parseLine (i : Z) (line : string) : Pipe.t :=
  let fields := map Number (split "," line) in
  let gapY := nth_error fields 0 in
  let gapHeight := nth_error fields 1 in
  let time := nth_error fields 2 in
  {| Pipe.id := i - 1;
     Pipe.x := (Viewport.CANVAS_WIDTH
                + ofZ (i - 1) * Constants.PIPE_SPAWN_DISTANCE)%num;
     Pipe.gapY := (toNumber gapY * Viewport.CANVAS_HEIGHT)%num;
     Pipe.gapHeight := (toNumber gapHeight * Viewport.CANVAS_HEIGHT)%num;
     Pipe.time := time |}.

Fixpoint parseLines (i : Z) (rest : list string) : list Pipe.t :=
  match rest with
  | [] => []
  | line :: rest' => parseLine i line :: parseLines (i + 1) rest'
  end.

Definition parsePipeData (csvContent : string) : list Pipe.t :=
  let lines := split "010" (trim csvContent) in
  parseLines 1 (List.tl lines).

Definition initialGameState (csvContents : string) : State :=
  let pipeData := parsePipeData csvContents in
  {| gameEnd := gameEnd initialState;
     bird := bird initialState;
     pipes := pipeData;
     lives := lives initialState;
     score := score initialState;
     gameTime := gameTime initialState;
     hitCooldown := hitCooldown initialState |}.

(** Flap: immediate upward velocity *)
Definition flapReducer (s : State) : State :=
  if gameEnd s then s
  else
    {| gameEnd := gameEnd s;
       bird := {| Bird.x := Bird.x (bird s);
                  Bird.y := Bird.y (bird s);
                  Bird.velocity := JUMP_VELOCITY |};
       pipes := pipes s;
       lives := lives s;
       score := score s;
       gameTime := gameTime s;
       hitCooldown := hitCooldown s |}.

Inductive Event : Type :=
| Tick      (* physics$ *)
| Flap.     (* flapReducer$ *)

Definition reducer (e : Event) : State -> State :=
  match e with
  | Tick => physics
  | Flap => flapReducer
  end.

(** [merge(physics$, flapReducer$).pipe(scan(...))] *)
Definition scan (s : State) (es : list Event) : State :=
  fold_left (fun s e => reducer e s) es s.

End RectRun.

(** ** The first revision: gravity and scrolling only, no collision *)

Module FirstGame.

Module Bird := Game.Bird.
Module Pipe := RectGame.Pipe.

Record State : Type := mkState {
  gameEnd : bool;
  bird : Bird.t;
  pipes : list Pipe.t;
  lives : Z;
  score : Z;
  gameTime : Z
}.

Definition JUMP_VELOCITY : num := ofZ (-7).

Definition initialState : State :=
  {| gameEnd := false;
     bird := {| Bird.x := (Viewport.CANVAS_WIDTH * Fin (3 # 10))%num;
                Bird.y := (Viewport.CANVAS_HEIGHT / two)%num;
                Bird.velocity := ofZ 0 |};
     pipes := [];
     lives := 3;
     score := 0;
     gameTime := 0 |}.

Definition initialGameState (csvContents : string) : State :=
  let pipeData := RectRun.parsePipeData csvContents in
  {| gameEnd := gameEnd initialState;
     bird := bird initialState;
     pipes := pipeData;
     lives := lives initialState;
     score := score initialState;
     gameTime := gameTime initialState |}.

(** Physics tick: gravity integration, position update, pipe scrolling. *)
Definition physics (s : State) : State :=
  let newVelocity := (Bird.velocity (bird s) + Constants.GRAVITY)%num in
  let newY := (Bird.y (bird s) + newVelocity)%num in
  let clampedY :=
    clamp newY (Birb.HEIGHT / two)%num
          (Viewport.CANVAS_HEIGHT - Birb.HEIGHT / two)%num in
  let updatedPipes :=
    filter (fun pipe => (Pipe.x pipe >? - Constants.PIPE_WIDTH)%num)
           (map RectGame.movePipe (pipes s)) in
  {| gameEnd := gameEnd s;
     bird := {| Bird.x := Bird.x (bird s);
                Bird.y := clampedY;
                Bird.velocity := newVelocity |};
     pipes := updatedPipes;
     lives := lives s;
     score := score s;
     gameTime := gameTime s + 1 |}.

(** Flap: immediate upward velocity *)
Definition flapReducer (s : State) : State :=
  {| gameEnd := gameEnd s;
     bird := {| Bird.x := Bird.x (bird s);
                Bird.y := Bird.y (bird s);
                Bird.velocity := JUMP_VELOCITY |};
     pipes := pipes s;
     lives := lives s;
     score := score s;
     gameTime := gameTime s |}.

Inductive Event : Type :=
| Tick
| Flap.

Definition reducer (e : Event) : State -> State :=
  match e with
  | Tick => physics
  | Flap => flapReducer
  end.

Definition scan (s : State) (es : list Event) : State :=
  fold_left (fun s e => reducer e s) es s.

End FirstGame.

(** ** A browser session: one run after another, and the arrays they share

    [state$] is called for every click on the start or the replay button.
    Each call makes a new array [ticksSub] and subscribes
    [t => ticksSub.push(t)] to the Space key, paired with the latest value
    of a [tickIndex$] of its own.  That subscription is never
    unsubscribed: [switchMap] only drops the [withGhost$] that the call
    returns.  The subscriber run at the end of a run stores the array
    itself in [window.__allRunFlapTicksArrays], not a copy, and the next
    call of [state$] reads the stored arrays again.  So the arrays live
    in a heap and [window] holds their positions in it.

    Every timer is an input of its own and nothing is assumed about how
    the timers interleave; [ghostStreams[idx]] may emit at any time, and
    a click is taken whenever it comes, though the replay button is only
    drawn once a run has ended.  Of
    the two subscriptions to [csv$] the one that records is followed.
    The call of [state$] made for the render subscription pushes the
    same key presses onto an array of its own, which
    [window.__currentRunFlapTicksArray] may name instead, and its
    [physics$] writes [window.__lastGameEndTick] as well; the subscriber
    reads that global right after the write of the recording call.  Once
    [take(1)] has let a state through, the state kept for the run is the
    one the render subscription goes on folding. *)

Module Session.

Import Game.

(** the array [ticksSub] of one call of [state$], and the latest value of
    the [tickIndex$] that its subscription reads *)
Record TicksSub : Type := mkTicksSub {
  tickIndex : Z;
  ticksSub : list Z
}.

(** the [withGhost$] that [switchMap] keeps subscribed, followed by
    [filter(s => s.gameEnd), take(1)] *)
Record Run : Type := mkRun {
  allTickLists : option (list nat);   (* read from [window] when set up *)
  state : State;                      (* the accumulator of [scan] *)
  taken : bool                        (* [take(1)] has let a state through *)
}.

Record Program : Type := mkProgram {
  heap : list TicksSub;
  __allRunFlapTicksArrays : option (list nat);
  __allRunStartYs : option (list num);
  __allRunEndTicks : option (list Z);
  __currentRunStartY : option num;
  __lastGameEndTick : option Z;
  __currentRunFlapTicksArray : option nat;
  run : option Run
}.

(** the page as loaded: no array, no global set, nothing subscribed *)
Definition loaded : Program :=
  {| heap := [];
     __allRunFlapTicksArrays := None;
     __allRunStartYs := None;
     __allRunEndTicks := None;
     __currentRunStartY := None;
     __lastGameEndTick := None;
     __currentRunFlapTicksArray := None;
     run := None |}.

(** the content of the array at position [r] of the heap *)
Definition content (h : list TicksSub) (r : nat) : list Z :=
  match nth_error h r with
  | Some a => ticksSub a
  | None => []
  end.

(** the globals of [window] as a reducer reads them *)
Definition window (P : Program) : Window :=
  {| Game.__allRunFlapTicksArrays :=
       option_map (map (content (heap P))) (__allRunFlapTicksArrays P);
     Game.__allRunStartYs := __allRunStartYs P;
     Game.__allRunEndTicks := __allRunEndTicks P;
     Game.__currentRunStartY := __currentRunStartY P;
     Game.__lastGameEndTick := __lastGameEndTick P |}.

Definition setHeap (P : Program) (h : list TicksSub) : Program :=
  {| heap := h;
     __allRunFlapTicksArrays := __allRunFlapTicksArrays P;
     __allRunStartYs := __allRunStartYs P;
     __allRunEndTicks := __allRunEndTicks P;
     __currentRunStartY := __currentRunStartY P;
     __lastGameEndTick := __lastGameEndTick P;
     __currentRunFlapTicksArray := __currentRunFlapTicksArray P;
     run := run P |}.

Definition setRun (P : Program) (r : Run) : Program :=
  {| heap := heap P;
     __allRunFlapTicksArrays := __allRunFlapTicksArrays P;
     __allRunStartYs := __allRunStartYs P;
     __allRunEndTicks := __allRunEndTicks P;
     __currentRunStartY := __currentRunStartY P;
     __lastGameEndTick := __lastGameEndTick P;
     __currentRunFlapTicksArray := __currentRunFlapTicksArray P;
     run := Some r |}.

Definition withState (r : Run) (s : State) : Run :=
  {| allTickLists := allTickLists r; state := s; taken := taken r |}.

(** the subscriber, on the stored positions: the duplicate test reads the
    arrays as they are when it runs, and [[...all, arr]] stores [arr]
    itself *)
Definition record (arr : nat) (P : Program) : Program :=
  let all := __allRunFlapTicksArrays P in
  let exists_ :=
    match all with
    | Some l =>
        existsb (fun old => Replay.sameTicks (content (heap P) arr)
                                             (content (heap P) old)) l
    | None => false
    end in
  {| heap := heap P;
     __allRunFlapTicksArrays :=
       if exists_ then all else Some (Replay.pushOnto all arr);
     __allRunStartYs :=
       match __currentRunStartY P with
       | Some startY => Some (Replay.pushOnto (__allRunStartYs P) startY)
       | None => __allRunStartYs P
       end;
     __allRunEndTicks :=
       match __lastGameEndTick P with
       | Some endTick => Some (Replay.pushOnto (__allRunEndTicks P) endTick)
       | None => __allRunEndTicks P
       end;
     __currentRunStartY := __currentRunStartY P;
     __lastGameEndTick := __lastGameEndTick P;
     __currentRunFlapTicksArray := __currentRunFlapTicksArray P;
     run := run P |}.

(** a state leaves [scan]: [filter(s => s.gameEnd), take(1)], then
    [map(() => window.__currentRunFlapTicksArray)],
    [filter(arr => Array.isArray(arr) && arr.length > 0)] and the
    subscriber *)
Definition emit (P : Program) : Program :=
  match run P with
  | Some r =>
      if gameEnd (state r) && negb (taken r) then
        let P1 := setRun P {| allTickLists := allTickLists r;
                              state := state r;
                              taken := true |} in
        match __currentRunFlapTicksArray P1 with
        | Some arr =>
            if Replay.recordable (content (heap P1) arr) then record arr P1
            else P1
        | None => P1
        end
      else P
  | None => P
  end.

(** [ticksSub.push(t)] of every call of [state$] made so far *)
Definition pushAll (h : list TicksSub) : list TicksSub :=
  map (fun a => {| tickIndex := tickIndex a;
                   ticksSub := ticksSub a ++ [tickIndex a] |}) h.

(** [scan(i => i + 1, 0)] of the [tickIndex$] read by array [j] *)
Fixpoint elapse (j : nat) (h : list TicksSub) : list TicksSub :=
  match h, j with
  | [], _ => []
  | a :: h', O => {| tickIndex := tickIndex a + 1; ticksSub := ticksSub a |} :: h'
  | a :: h', S j' => a :: elapse j' h'
  end.

(** [physics$] applied to the accumulator, with its write to [window] *)
Definition physicsFired (P : Program) (r : Run) : Program :=
  let s := state r in
  {| heap := heap P;
     __allRunFlapTicksArrays := __allRunFlapTicksArrays P;
     __allRunStartYs := __allRunStartYs P;
     __allRunEndTicks := __allRunEndTicks P;
     __currentRunStartY := __currentRunStartY P;
     __lastGameEndTick :=
       if negb (gameEnd s) && gameEnd (physics s)
       then Some (gameTime (physics s))
       else __lastGameEndTick P;
     __currentRunFlapTicksArray := __currentRunFlapTicksArray P;
     run := Some (withState r (physics s)) |}.

(** [ghostStreams.length > 0] *)
Definition hasGhost (r : Run) : bool :=
  match allTickLists r with
  | Some (_ :: _) => true
  | _ => false
  end.

(** the tick lists behind [allTickLists], as the ghost reducers see them *)
Definition tickListsOf (P : Program) (r : Run) : option (list (list Z)) :=
  option_map (map (content (heap P))) (allTickLists r).

Inductive Input : Type :=
| Click                   (* mousedown on the start or the replay button *)
| Space                   (* keydown with code Space *)
| IndexTimer (j : nat)    (* the interval behind the [tickIndex$] of array [j] *)
| PhysicsTimer            (* the interval behind [physics$] *)
| GhostTimer              (* the interval behind [ghostReducerPhysics$] *)
| GhostImpulse (idx : Z). (* [ghostStreams[idx]] lets a tick index through *)

Definition step (csvContents : string) (P : Program) (i : Input) : Program :=
  match i with
  | Click =>
      {| heap := heap P ++ [{| tickIndex := 0; ticksSub := [] |}];
         __allRunFlapTicksArrays := __allRunFlapTicksArrays P;
         __allRunStartYs := __allRunStartYs P;
         __allRunEndTicks := __allRunEndTicks P;
         __currentRunStartY := __currentRunStartY P;
         __lastGameEndTick := __lastGameEndTick P;
         __currentRunFlapTicksArray := Some (List.length (heap P));
         run := Some {| allTickLists := __allRunFlapTicksArrays P;
                        state := initialGameState csvContents;
                        taken := false |} |}
  | Space =>
      let P1 := setHeap P (pushAll (heap P)) in
      match run P1 with
      | Some r => emit (setRun P1 (withState r (playerFlapReducer (state r))))
      | None => P1
      end
  | IndexTimer j => setHeap P (elapse j (heap P))
  | PhysicsTimer =>
      match run P with
      | Some r => emit (physicsFired P r)
      | None => P
      end
  | GhostTimer =>
      match run P with
      | Some r =>
          if hasGhost r then
            emit (setRun P (withState r
                    (ghostReducerPhysics (tickListsOf P r) (window P) (state r))))
          else P
      | None => P
      end
  | GhostImpulse idx =>
      match run P with
      | Some r =>
          if hasGhost r then
            emit (setRun P (withState r
                    (ghostReducerFlap (tickListsOf P r) (window P) idx (state r))))
          else P
      | None => P
      end
  end.

(** the page after the inputs [ins] *)
Definition play (csvContents : string) (ins : list Input) : Program :=
  fold_left (step csvContents) ins loaded.

(** the positions stored in the ledger, and the tick lists behind them *)
Definition stored (P : Program) : list nat :=
  match __allRunFlapTicksArrays P with
  | Some l => l
  | None => []
  end.

Definition tickLists (P : Program) : list (list Z) :=
  map (content (heap P)) (stored P).

End Session.

(** ** Levels and runs used as concrete inputs *)

(** a header and one pipe pair whose gap is the band [50, 150] *)
Definition levelOnePipe : string :=
  "gap_y,gap_height,time
0.25,0.25,0".

(** a header and two pipe pairs whose gaps are the band [150, 250] *)
Definition levelTwoPipes : string :=
  "gap_y,gap_height,time
0.5,0.25,0
0.5,0.25,1".

(** only the header line *)
Definition levelHeaderOnly : string := "gap_y,gap_height,time".

(** a header and one data line that is not numeric *)
Definition levelBadLine : string :=
  "gap_y,gap_height,time
abc".

Definition ticks (n : nat) : list Game.Event := repeat Game.Tick n.

(** the bird is left to fall: it reaches the floor on tick 27 *)
Definition falling (n : nat) : Game.State :=
  Game.scan None (Game.initialGameState levelOnePipe) (ticks n).

(** a flap every 19 ticks keeps the bird between 177.5 and 200 *)
Definition hovering (n : nat) : list Game.Event :=
  List.concat (repeat (Game.Flap :: ticks 19) 8) ++ Game.Flap :: ticks n.

(** the pipe pair of [levelOnePipe] after tick 161 of the hovering run *)
Definition passedPipe : Game.Pipe.t :=
  {| Game.Pipe.id := 0;
     Game.Pipe.x := ofZ 117;
     Game.Pipe.gapY := ofZ 100;
     Game.Pipe.gapHeight := ofZ 100;
     Game.Pipe.time := Some (ofZ 0);
     Game.Pipe.scored := Some true |}.


(** the first run of a session: one flap after five ticks, then the bird
    is left to fall; the game ends on tick 103 *)
Definition firstRun (n : nat) : Game.State :=
  Game.scan None (Game.initialGameState levelOnePipe)
            (ticks 5 ++ Game.Flap :: ticks n).

Definition emptyWindow : Game.Window :=
  {| Game.__allRunFlapTicksArrays := None;
     Game.__allRunStartYs := None;
     Game.__allRunEndTicks := None;
     Game.__currentRunStartY := None;
     Game.__lastGameEndTick := None |}.

(** [window] after the first run ended and was recorded *)
Definition ledgerAfterFirstRun : Game.Window :=
  Replay.record [5] (Game.physicsWindow (firstRun 97) emptyWindow).

(** a session in which the same run is played twice.  First run: the
    start button, five timer periods, the Space key, then [n] more
    periods; with 98 of them the game is over on tick 103.  One period of
    the first run fires the timer behind the tick index of array 0, then
    the timer of [physics$]. *)
Definition firstPeriod : list Session.Input :=
  [Session.IndexTimer 0; Session.PhysicsTimer].

Definition firstSession (n : nat) : list Session.Input :=
  Session.Click :: List.concat (repeat firstPeriod 5)
  ++ Session.Space :: List.concat (repeat firstPeriod n).

(** Second run: the replay button, then the same keys at the same ticks.
    One period fires the timers behind the tick indexes of both arrays,
    then [physics$] and the ghost's physics; the ghost gets its recorded
    impulse when the tick index is 5.  [n] periods follow the Space key. *)
Definition secondPeriod : list Session.Input :=
  [Session.IndexTimer 0; Session.IndexTimer 1;
   Session.PhysicsTimer; Session.GhostTimer].

Definition secondSession (n : nat) : list Session.Input :=
  Session.Click :: List.concat (repeat secondPeriod 5)
  ++ Session.GhostImpulse 0 :: Session.Space
  :: List.concat (repeat secondPeriod n).

(** the last period of the second run up to the tick that ends the game *)
Definition lastPeriod : list Session.Input :=
  [Session.IndexTimer 0; Session.IndexTimer 1; Session.PhysicsTimer].

(** a later run that replays the first run as a ghost while the player
    does not flap: [n] ticks, each followed by the ghost tick, with the
    ghost's recorded flap after tick 5 *)
Definition tickWithGhost : list Game.Event :=
  [Game.Tick; Game.GhostTick ledgerAfterFirstRun].

Definition ghostRun (n : nat) : Game.State :=
  Game.scan (Some [[5]]) (Game.initialGameState levelOnePipe)
            (List.concat (repeat tickWithGhost 5)
             ++ Game.GhostFlap ledgerAfterFirstRun 0
             :: List.concat (repeat tickWithGhost n)).

(** the second run of the session above just before the tick that ends
    it, as [scan] holds it *)
Definition secondRunBeforeEnd : Session.Run :=
  {| Session.allTickLists := Some [0%nat];
     Session.state :=
       Game.scan (Some [[5]]) (Game.initialGameState levelOnePipe)
                 (List.concat (repeat tickWithGhost 5)
                  ++ Game.GhostFlap ledgerAfterFirstRun 0 :: Game.Flap
                  :: List.concat (repeat tickWithGhost 97));
     Session.taken := false |}.

(** the events of a later run that replays the first 25 ticks of the
    first run while the player lets the bird fall *)
Definition replayRun : list Game.Event :=
  List.concat (repeat tickWithGhost 5)
  ++ Game.GhostFlap ledgerAfterFirstRun 0
  :: List.concat (repeat tickWithGhost 20).

(** the ghost of that run once it lies on the floor *)
Definition ghostOnFloor : Game.Ghost.t :=
  {| Game.Ghost.x := ofZ 180;
     Game.Ghost.y := ofZ 385;
     Game.Ghost.velocity := Fin (71 # 2);
     Game.Ghost.dead := None |}.

(** the ghost of that run two ticks after its flap *)
Definition ghostRising : Game.Ghost.t :=
  {| Game.Ghost.x := ofZ 180;
     Game.Ghost.y := ofZ 199;
     Game.Ghost.velocity := ofZ (-4);
     Game.Ghost.dead := None |}.

(** what [parsePipeData] returns for the data line of [levelBadLine] *)
Definition pipeOfBadLine : Game.Pipe.t :=
  {| Game.Pipe.id := 0;
     Game.Pipe.x := ofZ 600;
     Game.Pipe.gapY := NaN;
     Game.Pipe.gapHeight := NaN;
     Game.Pipe.time := None;
     Game.Pipe.scored := None |}.

(** the earlier revision's bird on the floor, one tick of cooldown left *)
Definition rectOnFloor : RectGame.State :=
  {| RectGame.gameEnd := false;
     RectGame.bird := {| Game.Bird.x := ofZ 180;
                         Game.Bird.y := ofZ 385;
                         Game.Bird.velocity := ofZ 28 |};
     RectGame.pipes := [];
     RectGame.lives := 2;
     RectGame.score := 0;
     RectGame.gameTime := 56;
     RectGame.hitCooldown := 1 |}.

(** a run in which the player hovers while the first run is replayed:
    every tick of [hovering 0] is followed by the ghost tick *)
Definition withGhostTicks (es : list Game.Event) : list Game.Event :=
  flat_map (fun e => match e with
                     | Game.Tick => tickWithGhost
                     | _ => [e]
                     end) es.

Definition hoveringWithGhost : Game.State :=
  Game.scan (Some [[5]]) (Game.initialGameState levelOnePipe)
            (withGhostTicks (hovering 0)).

(** the ghost of that run after its source run's end tick 103 *)
Definition ghostDone : Game.Ghost.t :=
  {| Game.Ghost.x := ofZ 180;
     Game.Ghost.y := ofZ 385;
     Game.Ghost.velocity := ofZ 51;
     Game.Ghost.dead := Some true |}.

(** the ghost of the replayed run after three ticks *)
Definition ghostFalling : Game.Ghost.t :=
  {| Game.Ghost.x := ofZ 180;
     Game.Ghost.y := ofZ 203;
     Game.Ghost.velocity := Fin (3 # 2);
     Game.Ghost.dead := None |}.

(** ** Vocabulary of the properties *)

Import Game.

Definition livesInv (s : State) : Prop :=
  0 <= lives s <= 3 /\ (lives s = 0 -> gameEnd s = true).

Definition wonInv (s : State) : Prop := won s = true -> gameEnd s = true.

Definition isScored (p : Pipe.t) : bool := truthy (Pipe.scored p).

(** what one tick does to a pipe pair that stays on screen *)
Definition stepPipe (birdX : num) (p : Pipe.t) : Pipe.t :=
  if justPassed birdX p then markScored p else p.

(** a data line parses to three numbers: its first three comma-separated
    fields exist and none converts to NaN *)
Definition threeNumbers (line : string) : bool :=
  let fields := map Number (split "," line) in
  match nth_error fields 0, nth_error fields 1, nth_error fields 2 with
  | Some a, Some b, Some c => negb (isNaN a) && negb (isNaN b) && negb (isNaN c)
  | _, _, _ => false
  end.

(** a stored value is NaN or [undefined] *)
Definition notANumber (v : option num) : bool :=
  match v with
  | Some a => isNaN a
  | None => true
  end.

(** a ghost marked finished, and a ghost given the jump velocity *)
Definition finished (g : Ghost.t) : Ghost.t :=
  {| Ghost.x := Ghost.x g;
     Ghost.y := Ghost.y g;
     Ghost.velocity := Ghost.velocity g;
     Ghost.dead := Some true |}.

Definition jumped (g : Ghost.t) : Ghost.t :=
  {| Ghost.x := Ghost.x g;
     Ghost.y := Ghost.y g;
     Ghost.velocity := Constants.JUMP_VELOCITY;
     Ghost.dead := Ghost.dead g |}.

(** the ghost list of a state, empty when the field is absent *)
Definition ghostList (s : State) : list Ghost.t :=
  match ghosts s with
  | Some gs => gs
  | None => []
  end.

(** the pipe pairs that a tick applied to [s] marks as passed, each with
    the verdict of the gap test at the clamped height of that tick *)
Definition marksOf (s : State) : list (Z * bool) :=
  map (fun p => (Pipe.id p, insideGap (clampedY s) p))
      (filter (justPassed (Bird.x (bird s))) (updatedPipes s)).

Definition marks (e : Event) (s : State) : list (Z * bool) :=
  match e with
  | Tick => if gameEnd s then [] else marksOf s
  | _ => []
  end.

(** all marks of a run, oldest first *)
Fixpoint history (tl : option (list (list Z))) (s : State) (es : list Event)
  : list (Z * bool) :=
  match es with
  | [] => []
  | e :: es' => marks e s ++ history tl (reducer tl e s) es'
  end.

(** how many marked pipe pairs had the bird inside the gap *)
Definition insideCount (h : list (Z * bool)) : Z :=
  Z.of_nat (List.length (filter snd h)).

(** what a run of a level with [n] pipe pairs keeps true, where [seen]
    holds the identities marked so far *)
Record runInv (n : Z) (s : State) (seen : list Z) : Prop := mkRunInv {
  inv_ids : NoDup (map Pipe.id (pipes s));
  inv_seen : NoDup seen;
  inv_flag : forall p, In p (pipes s) ->
                       (In (Pipe.id p) seen <-> isScored p = true);
  inv_ahead : forall p, In p (pipes s) -> isScored p = false ->
                        exists q, Pipe.x p = Fin q /\ (120 <= q)%Q;
  inv_all : forall i, 0 <= i < n ->
                      In i (map Pipe.id (pipes s)) \/ In i seen;
  inv_range : forall p, In p (pipes s) -> 0 <= Pipe.id p < n;
  inv_bird : Bird.x (bird s) = ofZ 180;
  inv_total : totalPipes s = n
}.

(** the number of ticks among the events of a run *)
Fixpoint countTicks (es : list Event) : Z :=
  match es with
  | [] => 0
  | Tick :: es' => 1 + countTicks es'
  | _ :: es' => countTicks es'
  end.

(** the events of the player: what a run without ghosts is made of *)
Definition playerEvent (e : Event) : bool :=
  match e with
  | Tick | Flap => true
  | _ => false
  end.

(** a state with the ghost field dropped *)
Definition eraseGhosts (s : State) : State :=
  {| gameEnd := gameEnd s;
     won := won s;
     bird := bird s;
     ghosts := None;
     pipes := pipes s;
     lives := lives s;
     score := score s;
     gameTime := gameTime s;
     hitCooldown := hitCooldown s;
     totalPipes := totalPipes s;
     damageTicks := damageTicks s |}.

(** how often a code unit occurs in a string *)
Fixpoint countChar (c : ascii) (s : string) : nat :=
  match s with
  | EmptyString => O
  | String c' s' => if Ascii.eqb c' c then S (countChar c s') else countChar c s'
  end.

(** [a.push(t)] on the array stored at index [i] of the tick lists *)
Fixpoint pushAt (i : nat) (t : Z) (l : list (list Z)) : list (list Z) :=
  match l, i with
  | [], _ => []
  | a :: l', O => (a ++ [t]) :: l'
  | a :: l', S i' => a :: pushAt i' t l'
  end.

(** the three places that change what the globals of the replay ledger
    hold: the subscriber called with the flap ticks of a finished run,
    [physics$] applied to a state, and the push of a Space key onto an
    array that the tick lists store.  The arrays are stored themselves,
    not copied, and the push subscribed by the run that made an array is
    never unsubscribed; every window of a session is reached by a
    sequence of these writes ([session_writes] below). *)
Inductive WindowWrite : Type :=
| Recorded (arr : list Z)
| Ticked (s : State)
| Pushed (i : nat) (t : Z).

Definition applyWrite (w : Window) (op : WindowWrite) : Window :=
  match op with
  | Recorded arr => Replay.record arr w
  | Ticked s => physicsWindow s w
  | Pushed i t =>
      {| __allRunFlapTicksArrays :=
           option_map (pushAt i t) (__allRunFlapTicksArrays w);
         __allRunStartYs := __allRunStartYs w;
         __allRunEndTicks := __allRunEndTicks w;
         __currentRunStartY := __currentRunStartY w;
         __lastGameEndTick := __lastGameEndTick w |}
  end.

(** [window] with other tick lists *)
Definition setTicks (w : Window) (l : option (list (list Z))) : Window :=
  {| __allRunFlapTicksArrays := l;
     __allRunStartYs := __allRunStartYs w;
     __allRunEndTicks := __allRunEndTicks w;
     __currentRunStartY := __currentRunStartY w;
     __lastGameEndTick := __lastGameEndTick w |}.

(** [<=] on numbers as a relation: NaN is related to nothing *)
Definition numLe (a b : num) : Prop :=
  match a, b with
  | NaN, _ | _, NaN => False
  | NInf, _ | _, PInf => True
  | Fin x, Fin y => (x <= y)%Q
  | _, _ => False
  end.

Definition numLe_dec (a b : num) : {numLe a b} + {~ numLe a b} :=
  match a, b return {numLe a b} + {~ numLe a b} with
  | NaN, _ => right (fun H => H)
  | NInf, NaN | Fin _, NaN | PInf, NaN => right (fun H => H)
  | NInf, NInf | NInf, Fin _ | NInf, PInf => left I
  | Fin _, PInf | PInf, PInf => left I
  | Fin x, Fin y =>
      match Qlt_le_dec y x with
      | left H => right (Qlt_not_le y x H)
      | right H => left H
      end
  | Fin _, NInf | PInf, NInf | PInf, Fin _ => right (fun H => H)
  end.

(** an obstacle as it is judged on the tick that marks it passed: its
    identity and gap, and the bird's clamped height of that tick *)
Record Judged : Type := mkJudged {
  judgedId : Z;
  gapCentre : num;
  gapSize : num;
  birdHeight : num
}.

(** the height lies in [gap centre - gap size / 2, gap centre + gap size / 2] *)
Definition inBand (j : Judged) : Prop :=
  numLe (gapCentre j - gapSize j / two)%num (birdHeight j)
  /\ numLe (birdHeight j) (gapCentre j + gapSize j / two)%num.

Definition inBand_dec (j : Judged) : {inBand j} + {~ inBand j} :=
  match numLe_dec (gapCentre j - gapSize j / two)%num (birdHeight j),
        numLe_dec (birdHeight j) (gapCentre j + gapSize j / two)%num with
  | left H1, left H2 => left (conj H1 H2)
  | right H1, _ => right (fun H => H1 (proj1 H))
  | _, right H2 => right (fun H => H2 (proj2 H))
  end.

(** how many of the judged obstacles had the bird inside the band *)
Definition countInBand (js : list Judged) : nat :=
  List.length (filter (fun j => if inBand_dec j then true else false) js).

(** the obstacles that a tick applied to [s] marks as passed *)
Definition judgedBy (s : State) : list Judged :=
  map (fun p => {| judgedId := Pipe.id p;
                   gapCentre := Pipe.gapY p;
                   gapSize := Pipe.gapHeight p;
                   birdHeight := clampedY s |})
      (filter (justPassed (Bird.x (bird s))) (updatedPipes s)).

Definition judged (e : Event) (s : State) : list Judged :=
  match e with
  | Tick => if gameEnd s then [] else judgedBy s
  | _ => []
  end.

(** every obstacle marked in a run, oldest first *)
Fixpoint judgements (tl : option (list (list Z))) (s : State) (es : list Event)
  : list Judged :=
  match es with
  | [] => []
  | e :: es' => judged e s ++ judgements tl (reducer tl e s) es'
  end.

(** the events of a run that drive the ghosts *)
Definition ghostEvents (es : list Event) : list Event :=
  filter (fun e => negb (playerEvent e)) es.

(** what a session keeps true of its ledger: the stored positions are
    arrays of the heap with at least one tick each and of different
    lengths, there is one end tick for each, and the array of a run whose
    end is still to come is shorter than every stored one *)
Record ledgerInv (P : Session.Program) : Prop := mkLedgerInv {
  li_valid : forall r, In r (Session.stored P) ->
                       (r < List.length (Session.heap P))%nat;
  li_flaps : forall r, In r (Session.stored P) ->
                       (1 <= List.length (Session.content (Session.heap P) r))%nat;
  li_distinct : NoDup (map (fun r => List.length
                                       (Session.content (Session.heap P) r))
                           (Session.stored P));
  li_aligned : List.length (Session.stored P)
               = Replay.entries (Session.__allRunEndTicks P);
  li_current : forall r, Session.run P = Some r ->
      exists c, Session.__currentRunFlapTicksArray P = Some c
                /\ (c < List.length (Session.heap P))%nat
                /\ (Session.taken r = false ->
                    gameEnd (Session.state r) = false
                    /\ forall old, In old (Session.stored P) ->
                         (List.length (Session.content (Session.heap P) c)
                          < List.length (Session.content (Session.heap P) old))%nat)
}.

(** obstacle [p] of a run at tick count [t]: where it is, and whether its
    centre line is left of the bird *)
Definition pipeAt (t : Z) (p : Pipe.t) : Prop :=
  Pipe.x p = ofZ (600 + 250 * Pipe.id p - 3 * t)
  /\ (isScored p = true <-> 480 + 250 * Pipe.id p < 3 * t).

(** what every state of a run satisfies about its end *)
Record endInv (s : State) : Prop := mkEndInv {
  end_iff : gameEnd s = true <-> (lives s = 0 \/ won s = true);
  end_won : won s = true -> 0 < lives s;
  end_stop : lives s = 0 -> Bird.velocity (bird s) = ofZ 0;
  end_lives : 0 <= lives s
}.

(** the bird of a state is on screen and has a finite velocity *)
Definition birdOnScreen (b : Bird.t) : Prop :=
  exists y v, Bird.y b = Fin y /\ Bird.velocity b = Fin v
              /\ (15 <= y <= 385)%Q.

(** the obstacles of a level with [n] pipe pairs at tick count [t]:
    the active ones are where [pipeAt] says and not yet off screen, and
    every obstacle not yet off screen is active *)
Record levelInv (n : Z) (s : State) : Prop := mkLevelInv {
  lvl_active : forall p, In p (pipes s) ->
                 0 <= Pipe.id p < n
                 /\ pipeAt (gameTime s) p
                 /\ 3 * gameTime s < 720 + 250 * Pipe.id p;
  lvl_all : forall i, 0 <= i < n -> 3 * gameTime s < 720 + 250 * i ->
                      In i (map Pipe.id (pipes s))
}.

(** a ghost event reads [endTick] as the end tick of ghost [i] *)
Definition seesEndTick (i : nat) (endTick : Z) (e : Event) : Prop :=
  match e with
  | GhostTick w | GhostFlap w _ => optNth (__allRunEndTicks w) i = Some endTick
  | _ => True
  end.

(** a ghost as [Array.from] creates it when no start height is recorded *)
Definition freshGhost (s : State) : Ghost.t :=
  {| Ghost.x := Bird.x (bird s);
     Ghost.y := ofZ 200;
     Ghost.velocity := ofZ 0;
     Ghost.dead := None |}.

(** ghost event [g] brings back event [e] of the recorded run, for the
    ghost with index 0: a tick of the ghost physics for a tick, an
    impulse of ghost 0 for an impulse *)
Definition mirrors (e g : Event) : Prop :=
  match e, g with
  | Tick, GhostTick _ => True
  | Flap, GhostFlap _ idx => idx = 0
  | _, _ => False
  end.

(** a live ghost that flies where bird [b] is *)
Definition ghostOf (b : Bird.t) (x : num) : Ghost.t :=
  {| Ghost.x := x;
     Ghost.y := Bird.y b;
     Ghost.velocity := Bird.velocity b;
     Ghost.dead := None |}.

(** a ghost event reads no start heights from [window] *)
Definition seesNoStartYs (e : Event) : Prop :=
  match e with
  | GhostTick w | GhostFlap w _ => __allRunStartYs w = None
  | _ => True
  end.

(** a ghost is on screen with finite height and velocity *)
Definition ghostOnScreen (g : Ghost.t) : Prop :=
  exists y v, Ghost.y g = Fin y /\ Ghost.velocity g = Fin v
              /\ (15 <= y <= 385)%Q.

(* ================================================================== *)
(** * Properties *)
(* ================================================================== *)

(** ** The string and number primitives on sample inputs *)

Example ex_trim : trim "  a b
"%string = "a b"%string.
Proof. reflexivity. Qed.
Example ex_split : split "," "a,,b"%string = ["a"; ""; "b"]%string.
Proof. reflexivity. Qed.
Example ex_num1 : Number "0.35" = Fin (7 # 20).
Proof. vm_compute. reflexivity. Qed.
Example ex_num2 : Number " -1.5e1 " = Fin (-15 # 1).
Proof. vm_compute. reflexivity. Qed.
Example ex_num3 : Number "gap_y" = NaN.
Proof. vm_compute. reflexivity. Qed.
Example ex_num4 : Number "0x1F" = Fin (31 # 1).
Proof. vm_compute. reflexivity. Qed.
Example ex_num5 : Number "." = NaN /\ Number "5." = Fin (5#1) /\ Number ".5" = Fin (1#2)
  /\ Number "" = Fin 0 /\ Number "1e" = NaN /\ Number "-Infinity" = NInf /\ Number "1 2" = NaN.
Proof. vm_compute. repeat split. Qed.
Example ex_parse :
  parsePipeData levelOnePipe
  = [{| Pipe.id := 0; Pipe.x := ofZ 600; Pipe.gapY := ofZ 100;
        Pipe.gapHeight := ofZ 100; Pipe.time := Some (ofZ 0);
        Pipe.scored := None |}].
Proof. vm_compute. reflexivity. Qed.

(** ** Cooldown-gated life loss *)

Lemma nextCooldown_zero (s : State) :
  (nextCooldown s =? 0) = (hitCooldown s <=? 1).
Proof.
  unfold nextCooldown.
  destruct (Z.leb_spec (hitCooldown s) 1); [apply Z.eqb_eq | apply Z.eqb_neq]; lia.
Qed.

Lemma rect_nextCooldown_zero (s : RectGame.State) :
  (RectGame.nextCooldown s =? 0) = (RectGame.hitCooldown s <=? 1).
Proof.
  unfold RectGame.nextCooldown.
  destruct (Z.leb_spec (RectGame.hitCooldown s) 1);
    [apply Z.eqb_eq | apply Z.eqb_neq]; lia.
Qed.

Lemma physics_running (s : State) :
  gameEnd s = false ->
  lives (physics s) = nextLives s
  /\ hitCooldown (physics s) = nextCooldownOut s
  /\ score (physics s) = newScore s
  /\ pipes (physics s) = scoredPipes s
  /\ gameTime (physics s) = gameTime s + 1.
Proof.
  intros H. unfold physics. rewrite H. cbn. repeat split.
Qed.

(** C1, as stated, fails: left to fall on the one-pipe level, the bird
    lies on the floor with two lives after 56 ticks; the cooldown counter
    is 1, not 0, before tick 57, and tick 57 takes a life and resets the
    counter to 30. *)
Lemma C1_counterexample :
  gameEnd (falling 56) = false
  /\ collided (falling 56) = true
  /\ hitCooldown (falling 56) = 1
  /\ lives (falling 56) = 2
  /\ lives (physics (falling 56)) = 1
  /\ hitCooldown (physics (falling 56)) = Constants.HIT_COOLDOWN_TICKS.
Proof. vm_compute. repeat split. Qed.

(** C1, amended: on every tick where the game has not ended, in both
    revisions of [physics$], a life is lost (lives decremented by 1 with
    floor 0, cooldown reset to HIT_COOLDOWN_TICKS = 30) if and only if a
    collision was flagged this tick and the cooldown counter after its
    decrement is 0, that is, the counter before the decrement was at most
    1; otherwise lives are unchanged and the counter decremented by 1
    (floor 0) carries forward.  In particular no life is lost on a tick
    whose counter before the decrement is 2 or more. *)
Theorem C1_life_lost_iff_collision_and_cooldown_at_most_one :
  (forall s : State,
      gameEnd s = false ->
      (collided s = true /\ hitCooldown s <= 1 ->
       lives (physics s) = Z.max 0 (lives s - 1)
       /\ hitCooldown (physics s) = 30)
      /\ (~ (collided s = true /\ hitCooldown s <= 1) ->
          lives (physics s) = lives s
          /\ hitCooldown (physics s) = Z.max 0 (hitCooldown s - 1))
      /\ (2 <= hitCooldown s -> lives (physics s) = lives s))
  /\ (forall s : RectGame.State,
      RectGame.gameEnd s = false ->
      (RectGame.collided s = true /\ RectGame.hitCooldown s <= 1 ->
       RectGame.lives (RectGame.physics s) = Z.max 0 (RectGame.lives s - 1)
       /\ RectGame.hitCooldown (RectGame.physics s) = 30)
      /\ (~ (RectGame.collided s = true /\ RectGame.hitCooldown s <= 1) ->
          RectGame.lives (RectGame.physics s) = RectGame.lives s
          /\ RectGame.hitCooldown (RectGame.physics s)
             = Z.max 0 (RectGame.hitCooldown s - 1))
      /\ (2 <= RectGame.hitCooldown s ->
          RectGame.lives (RectGame.physics s) = RectGame.lives s)).
Proof.
  split; intros s Hrun.
  - destruct (physics_running s Hrun) as (Hl & Hc & _).
    rewrite Hl, Hc. unfold nextLives, nextCooldownOut.
    rewrite nextCooldown_zero. unfold nextCooldown.
    destruct (collided s); destruct (Z.leb_spec (hitCooldown s) 1); cbn;
      repeat split; intros; try reflexivity; try lia;
      try (exfalso; intuition (congruence || lia)).
  - unfold RectGame.physics. rewrite Hrun. cbn.
    unfold RectGame.nextLives, RectGame.nextCooldownOut.
    rewrite rect_nextCooldown_zero. unfold RectGame.nextCooldown.
    destruct (RectGame.collided s);
      destruct (Z.leb_spec (RectGame.hitCooldown s) 1); cbn;
      repeat split; intros; try reflexivity; try lia;
      try (exfalso; intuition (congruence || lia)).
Qed.

Lemma C1_witness :
  (gameEnd (falling 56) = false
   /\ lives (physics (falling 56)) = Z.max 0 (lives (falling 56) - 1)
   /\ hitCooldown (physics (falling 56)) = 30)
  /\ (RectGame.gameEnd rectOnFloor = false
      /\ RectGame.lives (RectGame.physics rectOnFloor)
         = Z.max 0 (RectGame.lives rectOnFloor - 1)
      /\ RectGame.hitCooldown (RectGame.physics rectOnFloor) = 30).
Proof.
  split; (split; [vm_compute; reflexivity|]).
  - apply (proj1 C1_life_lost_iff_collision_and_cooldown_at_most_one (falling 56)).
    + vm_compute; reflexivity.
    + split; [vm_compute; reflexivity | vm_compute; discriminate].
  - apply (proj2 C1_life_lost_iff_collision_and_cooldown_at_most_one rectOnFloor).
    + vm_compute; reflexivity.
    + split; [vm_compute; reflexivity | vm_compute; discriminate].
Defined.

(** ** The world is frozen once the game has ended *)

Lemma reducer_frozen (tl : option (list (list Z))) (e : Event) (s : State) :
  gameEnd s = true ->
  gameEnd (reducer tl e s) = true /\ won (reducer tl e s) = won s
  /\ lives (reducer tl e s) = lives s /\ score (reducer tl e s) = score s.
Proof.
  intros H. destruct e; cbn.
  - unfold physics. rewrite H. auto.
  - unfold playerFlapReducer. rewrite H. auto.
  - unfold ghostReducerPhysics. rewrite H. auto.
  - unfold ghostReducerFlap, withGhosts. cbn. auto.
Qed.

(** C2, as stated, fails: left to fall on the one-pipe level the bird
    loses its last life on tick 87, which sets both counters to 30; the
    next tick returns the same state, the counters still at 30 and not
    decayed to 29. *)
Lemma C2_counterexample :
  gameEnd (falling 87) = true
  /\ hitCooldown (falling 87) = 30
  /\ damageTicks (falling 87) = 30
  /\ hitCooldown (physics (falling 87)) <> Z.max 0 (hitCooldown (falling 87) - 1)
  /\ damageTicks (physics (falling 87)) <> Z.max 0 (damageTicks (falling 87) - 1).
Proof. vm_compute. repeat split; discriminate. Qed.

(** C2, amended: for every state with end-of-game true, a tick event
    yields a state identical to the input in every field; the hit-cooldown
    and damage-indicator counters are frozen with the rest and do not
    decay.  The same holds for the ghost tick reducer and for the earlier
    revision of [physics$]. *)
Theorem C2_tick_after_end_returns_same_state :
  (forall s : State,
      gameEnd s = true ->
      physics s = s
      /\ forall tl w, ghostReducerPhysics tl w s = s)
  /\ (forall s : RectGame.State,
      RectGame.gameEnd s = true -> RectGame.physics s = s).
Proof.
  split.
  - intros s H. split.
    + unfold physics. now rewrite H.
    + intros tl w. unfold ghostReducerPhysics. now rewrite H.
  - intros s H. unfold RectGame.physics. now rewrite H.
Qed.

Lemma C2_witness :
  gameEnd (falling 87) = true /\ physics (falling 87) = falling 87.
Proof.
  split; [vm_compute; reflexivity|].
  refine (proj1 (proj1 C2_tick_after_end_returns_same_state (falling 87) _)).
  vm_compute; reflexivity.
Defined.

(** ** Lives *)

Lemma nextLives_bounds (s : State) :
  0 <= lives s -> 0 <= nextLives s <= lives s.
Proof.
  intros H. unfold nextLives.
  destruct (collided s && (nextCooldown s =? 0)); lia.
Qed.

Lemma reducer_lives_le (tl : option (list (list Z))) (e : Event) (s : State) :
  0 <= lives s -> 0 <= lives (reducer tl e s) <= lives s.
Proof.
  intros H. destruct e; cbn.
  - unfold physics. destruct (gameEnd s); cbn; [lia|].
    now apply nextLives_bounds.
  - unfold playerFlapReducer. destruct (gameEnd s); cbn; lia.
  - unfold ghostReducerPhysics. destruct (gameEnd s); cbn; lia.
  - unfold ghostReducerFlap; cbn; lia.
Qed.

Lemma reducer_livesInv (tl : option (list (list Z))) (e : Event) (s : State) :
  livesInv s -> livesInv (reducer tl e s).
Proof.
  intros [Hb Hz]. split.
  - pose proof (reducer_lives_le tl e s (proj1 Hb)). lia.
  - destruct (gameEnd s) eqn:Hend.
    + intros _. now apply reducer_frozen.
    + destruct e; cbn.
      * unfold physics. rewrite Hend. cbn. intros H0.
        apply Z.eqb_eq in H0. now rewrite H0.
      * unfold playerFlapReducer. rewrite Hend. cbn. intros H0.
        specialize (Hz H0). congruence.
      * unfold ghostReducerPhysics. rewrite Hend. cbn. intros H0.
        specialize (Hz H0). congruence.
      * unfold ghostReducerFlap. cbn. intros H0.
        specialize (Hz H0). congruence.
Qed.

Lemma scan_livesInv (tl : option (list (list Z))) (es : list Event) :
  forall s, livesInv s -> livesInv (scan tl s es).
Proof.
  induction es as [|e es IH]; intros s H; [exact H|].
  change (scan tl s (e :: es)) with (scan tl (reducer tl e s) es).
  apply IH. now apply reducer_livesInv.
Qed.

Lemma initial_livesInv (csv : string) : livesInv (initialGameState csv).
Proof. split; cbn; [lia | discriminate]. Qed.

(** C7: in every run from the initial state (lives = 3), after every
    sequence of events (ticks, player impulses and, with ghosts, ghost
    ticks and ghost impulses), 0 <= lives <= 3, the next event does not
    increase lives, and lives = 0 implies end-of-game in that same
    state. *)
Theorem C7_lives_bounded_nonincreasing_zero_ends
  (tl : option (list (list Z))) (csv : string) (es : list Event) (e : Event) :
  let s := scan tl (initialGameState csv) es in
  0 <= lives s <= 3
  /\ lives (reducer tl e s) <= lives s
  /\ (lives s = 0 -> gameEnd s = true).
Proof.
  intros s.
  destruct (scan_livesInv tl es _ (initial_livesInv csv)) as [Hb Hz].
  fold s in Hb, Hz. repeat split; try lia; auto.
  apply reducer_lives_le. lia.
Qed.

(** ** End-of-game and the win flag are final *)

(** C8: once end-of-game is true in a state, every later state of the
    run, after any further events, has end-of-game true and the same
    value of the win flag. *)
Theorem C8_game_end_and_won_are_final
  (tl : option (list (list Z))) (s : State) (es : list Event) :
  gameEnd s = true ->
  gameEnd (scan tl s es) = true /\ won (scan tl s es) = won s.
Proof.
  revert s. induction es as [|e es IH]; intros s H; [now split|].
  change (scan tl s (e :: es)) with (scan tl (reducer tl e s) es).
  destruct (reducer_frozen tl e s H) as (Hg & Hw & _).
  destruct (IH _ Hg) as [IH1 IH2]. split; [exact IH1 | congruence].
Qed.

Lemma C8_witness :
  gameEnd (falling 87) = true
  /\ gameEnd (scan None (falling 87) [Tick; Flap; Tick]) = true
  /\ won (scan None (falling 87) [Tick; Flap; Tick]) = won (falling 87).
Proof.
  split; [vm_compute; reflexivity|].
  apply (C8_game_end_and_won_are_final None (falling 87) [Tick; Flap; Tick]).
  vm_compute; reflexivity.
Defined.

(** ** A level without obstacles *)

Lemma scan_flaps (tl : option (list (list Z))) (csv : string) (es : list Event) :
  Forall (fun e => e = Flap) es ->
  scan tl (initialGameState csv) es = initialGameState csv
  \/ scan tl (initialGameState csv) es
     = playerFlapReducer (initialGameState csv).
Proof.
  intros H. induction es as [|e es IH] using rev_ind; [now left|].
  apply Forall_app in H. destruct H as [H1 H2].
  inversion H2 as [|? ? He _]; subst.
  unfold scan. rewrite fold_left_app. cbn.
  destruct (IH H1) as [E|E]; unfold scan in E; rewrite E; now right.
Qed.

(** C10: for a level whose data parses to zero obstacles, the first tick
    event of a run, whether or not impulses came before it, yields a
    state with end-of-game and won both true, with no obstacle passed and
    no score earned: the check that every obstacle is passed holds
    vacuously over the empty obstacle list. *)
Theorem C10_empty_level_is_won_on_first_tick (csv : string) (es : list Event) :
  parsePipeData csv = [] ->
  Forall (fun e => e = Flap) es ->
  let s1 := physics (scan None (initialGameState csv) es) in
  gameEnd s1 = true /\ won s1 = true
  /\ score s1 = 0 /\ pipes s1 = [] /\ lives s1 = 3.
Proof.
  intros Hp Hf s1. subst s1.
  destruct (scan_flaps None csv es Hf) as [E|E]; rewrite E;
    unfold initialGameState; rewrite Hp; vm_compute; repeat split.
Qed.

Lemma C10_witness :
  parsePipeData levelHeaderOnly = []
  /\ gameEnd (physics (scan None (initialGameState levelHeaderOnly) [Flap])) = true
  /\ won (physics (scan None (initialGameState levelHeaderOnly) [Flap])) = true.
Proof.
  split; [vm_compute; reflexivity|].
  pose proof (C10_empty_level_is_won_on_first_tick levelHeaderOnly [Flap]) as H.
  cbv zeta in H.
  split; apply H; try (vm_compute; reflexivity);
    repeat constructor.
Defined.

(** ** Passed flags and the score *)

Lemma scoreAll_spec (birdX y : num) (ps : list Pipe.t) :
  forall t,
    scoreAll birdX y t ps
    = ({| addedScore :=
            addedScore t
            + Z.of_nat (List.length (filter (insideGap y)
                                            (filter (justPassed birdX) ps)));
          pipeCenterCollision :=
            pipeCenterCollision t
            || existsb (fun p => negb (insideGap y p))
                       (filter (justPassed birdX) ps) |},
       map (fun p => if justPassed birdX p then markScored p else p) ps).
Proof.
  induction ps as [|p ps IH]; intros t.
  - cbn. rewrite Z.add_0_r, orb_false_r. now destruct t.
  - cbn [scoreAll]. rewrite IH. unfold scoreOne. cbn [fst snd map filter].
    destruct (justPassed birdX p); cbn [filter existsb List.length].
    + destruct (insideGap y p); cbn [addedScore pipeCenterCollision negb orb
                                      List.length]; f_equal; f_equal.
      * lia.
      * rewrite orb_true_r. reflexivity.
    + reflexivity.
Qed.

Lemma scoredPipes_map (s : State) :
  scoredPipes s
  = map (fun p => if justPassed (Bird.x (bird s)) p then markScored p else p)
        (updatedPipes s).
Proof. unfold scoredPipes, scoring. now rewrite scoreAll_spec. Qed.

Lemma filter_snd_tagged {A : Type} (f : A -> Z) (g : A -> bool) (l : list A) :
  List.length (filter snd (map (fun p => (f p, g p)) l))
  = List.length (filter g l).
Proof.
  induction l as [|p l IH]; [reflexivity|].
  cbn [map filter snd]. destruct (g p); cbn [List.length]; now rewrite IH.
Qed.

Lemma newScore_marks (s : State) :
  newScore s = score s + insideCount (marksOf s).
Proof.
  unfold newScore, scoring, insideCount, marksOf.
  rewrite scoreAll_spec, filter_snd_tagged. cbn [fst addedScore]. lia.
Qed.

Lemma insideCount_app (h1 h2 : list (Z * bool)) :
  insideCount (h1 ++ h2) = insideCount h1 + insideCount h2.
Proof.
  unfold insideCount. rewrite filter_app, length_app. lia.
Qed.

Lemma reducer_score (tl : option (list (list Z))) (e : Event) (s : State) :
  score (reducer tl e s) = score s + insideCount (marks e s).
Proof.
  destruct e; cbn [reducer marks]; unfold insideCount at 1; cbn.
  - unfold physics. destruct (gameEnd s); cbn [score].
    + cbn. lia.
    + apply newScore_marks.
  - unfold playerFlapReducer. destruct (gameEnd s); cbn; lia.
  - unfold ghostReducerPhysics. destruct (gameEnd s); cbn; lia.
  - lia.
Qed.

Lemma scan_score (tl : option (list (list Z))) (es : list Event) :
  forall s, score (scan tl s es) = score s + insideCount (history tl s es).
Proof.
  induction es as [|e es IH]; intros s.
  - cbn. unfold insideCount. cbn. lia.
  - change (scan tl s (e :: es)) with (scan tl (reducer tl e s) es).
    cbn [history]. rewrite IH, reducer_score, insideCount_app. lia.
Qed.

Lemma physics_pipes (s : State) :
  gameEnd s = false ->
  pipes (physics s)
  = map (stepPipe (Bird.x (bird s))) (filter onScreen (map movePipe (pipes s))).
Proof.
  intros H. unfold physics. rewrite H. cbn [pipes].
  now rewrite scoredPipes_map.
Qed.

Lemma reducer_pipes (tl : option (list (list Z))) (e : Event) (s : State) :
  pipes (reducer tl e s)
  = match e with
    | Tick => if gameEnd s then pipes s
              else map (stepPipe (Bird.x (bird s)))
                       (filter onScreen (map movePipe (pipes s)))
    | _ => pipes s
    end.
Proof.
  destruct e; cbn [reducer].
  - destruct (gameEnd s) eqn:H; [unfold physics; now rewrite H|].
    now apply physics_pipes.
  - unfold playerFlapReducer. now destruct (gameEnd s).
  - unfold ghostReducerPhysics. now destruct (gameEnd s).
  - reflexivity.
Qed.

Lemma justPassed_unscored (birdX : num) (p : Pipe.t) :
  justPassed birdX p = true -> isScored p = false.
Proof.
  unfold justPassed, isScored. destruct (truthy (Pipe.scored p)); cbn; congruence.
Qed.

Lemma stepPipe_id (birdX : num) (p : Pipe.t) :
  Pipe.id (stepPipe birdX p) = Pipe.id p.
Proof. unfold stepPipe. now destruct (justPassed birdX p). Qed.

Lemma stepPipe_scored (birdX : num) (p : Pipe.t) :
  isScored (stepPipe birdX p) = isScored p || justPassed birdX p.
Proof.
  unfold stepPipe. destruct (justPassed birdX p) eqn:J.
  - now rewrite orb_true_r.
  - now rewrite orb_false_r.
Qed.

Lemma stepPipe_x (birdX : num) (p : Pipe.t) :
  Pipe.x (stepPipe birdX p) = Pipe.x p.
Proof. unfold stepPipe. now destruct (justPassed birdX p). Qed.

Lemma map_id_movePipe (ps : list Pipe.t) :
  map Pipe.id (map movePipe ps) = map Pipe.id ps.
Proof. rewrite map_map. now apply map_ext. Qed.

Lemma map_id_stepPipe (birdX : num) (ps : list Pipe.t) :
  map Pipe.id (map (stepPipe birdX) ps) = map Pipe.id ps.
Proof. rewrite map_map. apply map_ext. intros. apply stepPipe_id. Qed.

Lemma NoDup_map_filter {A B : Type} (f : A -> B) (g : A -> bool) (l : list A) :
  NoDup (map f l) -> NoDup (map f (filter g l)).
Proof.
  induction l as [|a l IH]; cbn; intros H; [constructor|].
  inversion H as [|? ? Hn Hd]; subst.
  destruct (g a); cbn; auto.
  constructor; auto.
  intros Hin. apply Hn. apply in_map_iff in Hin.
  destruct Hin as (b & Hb & Hin). apply filter_In in Hin.
  apply in_map_iff. exists b. tauto.
Qed.

Lemma NoDup_map_eq {A B : Type} (f : A -> B) (l : list A) (a b : A) :
  NoDup (map f l) -> In a l -> In b l -> f a = f b -> a = b.
Proof.
  induction l as [|c l IH]; cbn; intros H Ha Hb E; [contradiction|].
  inversion H as [|? ? Hn Hd]; subst.
  destruct Ha as [->|Ha], Hb as [->|Hb]; auto.
  - exfalso. apply Hn. rewrite E. now apply in_map.
  - exfalso. apply Hn. rewrite <- E. now apply in_map.
Qed.


Lemma reducer_pipes_NoDup (tl : option (list (list Z))) (e : Event) (s : State) :
  NoDup (map Pipe.id (pipes s)) ->
  NoDup (map Pipe.id (pipes (reducer tl e s))).
Proof.
  intros H. rewrite reducer_pipes. destruct e; auto.
  destruct (gameEnd s); auto.
  rewrite map_id_stepPipe. apply NoDup_map_filter.
  now rewrite map_id_movePipe.
Qed.


(** ** What a run keeps true *)

Lemma onScreen_ahead (p : Pipe.t) (q : Q) :
  Pipe.x p = Fin q -> (120 <= q)%Q -> onScreen (movePipe p) = true.
Proof.
  intros Hx Hq. unfold onScreen, movePipe. cbn [Pipe.x]. rewrite Hx.
  change (negb (Qle_bool (Qred (q - inject_Z 3)) (Qred (- inject_Z 120))) = true).
  apply negb_true_iff.
  destruct (Qle_bool (Qred (q - inject_Z 3)) (Qred (- inject_Z 120))) eqn:E;
    [|reflexivity].
  apply Qle_bool_iff in E. rewrite !Qred_correct in E.
  exfalso. unfold inject_Z in E. lra.
Qed.

Lemma not_passed_ahead (p : Pipe.t) (q : Q) :
  Pipe.x p = Fin q -> isScored p = false ->
  justPassed (ofZ 180) p = false -> (120 <= q)%Q.
Proof.
  intros Hx Hs. unfold justPassed. unfold isScored in Hs. rewrite Hs, Hx.
  change (negb (Qle_bool (inject_Z 180) (Qred (q + 60))) = false -> (120 <= q)%Q).
  intros E. apply negb_false_iff in E. apply Qle_bool_iff in E.
  rewrite Qred_correct in E. unfold inject_Z in E. lra.
Qed.

Lemma movePipe_scored (p : Pipe.t) : isScored (movePipe p) = isScored p.
Proof. reflexivity. Qed.

Lemma reducer_static (tl : option (list (list Z))) (e : Event) (s : State) :
  Bird.x (bird (reducer tl e s)) = Bird.x (bird s)
  /\ totalPipes (reducer tl e s) = totalPipes s.
Proof.
  destruct e; cbn [reducer].
  - unfold physics. now destruct (gameEnd s).
  - unfold playerFlapReducer. now destruct (gameEnd s).
  - unfold ghostReducerPhysics. now destruct (gameEnd s).
  - now unfold ghostReducerFlap.
Qed.

Lemma marks_ids (s : State) :
  map fst (marksOf s)
  = map Pipe.id (filter (justPassed (Bird.x (bird s)))
                        (filter onScreen (map movePipe (pipes s)))).
Proof. unfold marksOf. rewrite map_map. reflexivity. Qed.

Lemma tick_runInv (n : Z) (s : State) (seen : list Z) :
  gameEnd s = false ->
  runInv n s seen ->
  runInv n (physics s) (seen ++ map fst (marksOf s)).
Proof.
  intros Hrun [Hids Hseen Hflag Hahead Hall Hrange Hbird Htotal].
  pose proof (reducer_pipes_NoDup None Tick s Hids) as Hids'.
  pose proof (reducer_static None Tick s) as [Hb' Ht'].
  cbn [reducer] in Hids', Hb', Ht'.
  rewrite marks_ids.
  pose proof (physics_pipes s Hrun) as Hp. rewrite Hp in Hids'.
  remember (Bird.x (bird s)) as bx eqn:Ebx.
  remember (filter onScreen (map movePipe (pipes s))) as U eqn:EU.
  assert (HidsU : NoDup (map Pipe.id U)).
  { rewrite EU. apply NoDup_map_filter. now rewrite map_id_movePipe. }
  assert (HU : forall u, In u U ->
                 exists p0, In p0 (pipes s) /\ u = movePipe p0).
  { intros u Hu. rewrite EU in Hu. apply filter_In in Hu. destruct Hu as [Hu _].
    apply in_map_iff in Hu. destruct Hu as (p0 & <- & Hp0). eauto. }
  assert (Hmark : forall u, In u U ->
                    (In (Pipe.id u) (map Pipe.id (filter (justPassed bx) U))
                     <-> justPassed bx u = true)).
  { intros u Hu. split.
    - intros Hin. apply in_map_iff in Hin. destruct Hin as (u' & E & Hu').
      apply filter_In in Hu'. destruct Hu' as [Hu' J].
      now rewrite <- (NoDup_map_eq Pipe.id U u' u HidsU Hu' Hu E).
    - intros J. apply in_map. apply filter_In. now split. }
  constructor; rewrite ?Hp.
  - exact Hids'.
  - apply NoDup_app; [exact Hseen | now apply NoDup_map_filter |].
    intros i Hi Hm. apply in_map_iff in Hm. destruct Hm as (u & <- & Hu).
    apply filter_In in Hu. destruct Hu as [Hu J].
    destruct (HU u Hu) as (p0 & Hp0 & ->).
    apply justPassed_unscored in J. rewrite movePipe_scored in J.
    apply (Hflag p0 Hp0) in Hi. congruence.
  - intros p' Hp'. apply in_map_iff in Hp'. destruct Hp' as (u & <- & Hu).
    rewrite stepPipe_id, stepPipe_scored, in_app_iff, (Hmark u Hu).
    destruct (HU u Hu) as (p0 & Hp0 & ->).
    rewrite movePipe_scored. change (Pipe.id (movePipe p0)) with (Pipe.id p0).
    rewrite (Hflag p0 Hp0), orb_true_iff. tauto.
  - intros p' Hp' Hs. apply in_map_iff in Hp'. destruct Hp' as (u & <- & Hu).
    rewrite stepPipe_scored in Hs. apply orb_false_iff in Hs.
    destruct Hs as [Hs J]. rewrite stepPipe_x.
    destruct (HU u Hu) as (p0 & Hp0 & ->).
    rewrite movePipe_scored in Hs.
    destruct (Hahead p0 Hp0 Hs) as (q & Hx & Hq).
    exists (Qred (q - inject_Z 3)). split.
    + cbn [movePipe Pipe.x]. now rewrite Hx.
    + apply (not_passed_ahead (movePipe p0)).
      * cbn [movePipe Pipe.x]. now rewrite Hx.
      * exact Hs.
      * now rewrite Hbird in J.
  - intros i Hi. rewrite map_id_stepPipe, in_app_iff.
    destruct (Hall i Hi) as [Hin|Hin]; [|tauto].
    apply in_map_iff in Hin. destruct Hin as (p0 & <- & Hp0).
    destruct (isScored p0) eqn:Hs.
    + right. left. now apply (Hflag p0 Hp0).
    + left. destruct (Hahead p0 Hp0 Hs) as (q & Hx & Hq).
      change (Pipe.id p0) with (Pipe.id (movePipe p0)).
      apply in_map. rewrite EU. apply filter_In. split.
      * now apply in_map.
      * now apply (onScreen_ahead p0 q).
  - intros p' Hp'. apply in_map_iff in Hp'. destruct Hp' as (u & <- & Hu).
    rewrite stepPipe_id. destruct (HU u Hu) as (p0 & Hp0 & ->).
    exact (Hrange p0 Hp0).
  - now rewrite Hb'.
  - now rewrite Ht'.
Qed.

Lemma reducer_runInv (n : Z) (tl : option (list (list Z))) (e : Event)
  (s : State) (seen : list Z) :
  runInv n s seen ->
  runInv n (reducer tl e s) (seen ++ map fst (marks e s)).
Proof.
  intros H.
  assert (Hsame : pipes (reducer tl e s) = pipes s ->
                  runInv n (reducer tl e s) (seen ++ [])).
  { intros E. rewrite app_nil_r.
    destruct (reducer_static tl e s) as [Hb Ht].
    destruct H as [Hids Hseen Hflag Hahead Hall Hrange Hbird Htotal].
    constructor; rewrite ?E, ?Hb, ?Ht; auto. }
  destruct e; cbn [marks map]; try (apply Hsame; now rewrite reducer_pipes).
  destruct (gameEnd s) eqn:Hend.
  - apply Hsame. rewrite reducer_pipes. now rewrite Hend.
  - now apply tick_runInv.
Qed.

Lemma scan_runInv (n : Z) (tl : option (list (list Z))) (es : list Event) :
  forall s seen,
    runInv n s seen ->
    runInv n (scan tl s es) (seen ++ map fst (history tl s es)).
Proof.
  induction es as [|e es IH]; intros s seen H.
  - cbn. now rewrite app_nil_r.
  - change (scan tl s (e :: es)) with (scan tl (reducer tl e s) es).
    cbn [history]. rewrite map_app, app_assoc.
    apply IH. now apply reducer_runInv.
Qed.

(** ** The level loader *)

Lemma Qred_inject_Z (a : Z) : Qred (inject_Z a) = inject_Z a.
Proof. apply Qcanon.Qred_identity. cbn. apply Z.gcd_1_r. Qed.

Lemma add_ofZ (a b : Z) : (ofZ a + ofZ b)%num = ofZ (a + b).
Proof.
  unfold ofZ, JSNum.add. f_equal.
  replace (inject_Z a + inject_Z b)%Q with (inject_Z (a + b)).
  - apply Qred_inject_Z.
  - unfold inject_Z, Qplus. cbn. now rewrite !Z.mul_1_r.
Qed.

Lemma mul_ofZ (a b : Z) : (ofZ a * ofZ b)%num = ofZ (a * b).
Proof.
  unfold ofZ, JSNum.mul. f_equal.
  change (inject_Z a * inject_Z b)%Q with (inject_Z (a * b)).
  apply Qred_inject_Z.
Qed.

Lemma parseLine_x (i : Z) (line : string) :
  Pipe.x (parseLine i line) = ofZ (600 + (i - 1) * 250).
Proof.
  unfold parseLine. cbn [Pipe.x].
  unfold Viewport.CANVAS_WIDTH, Constants.PIPE_SPAWN_DISTANCE.
  now rewrite mul_ofZ, add_ofZ.
Qed.

Lemma parseLines_length (ls : list string) :
  forall i, List.length (parseLines i ls) = List.length ls.
Proof. induction ls as [|l ls IH]; intros i; cbn; auto. Qed.

Lemma parseLines_nth (ls : list string) :
  forall i k line,
    nth_error ls k = Some line ->
    nth_error (parseLines i ls) k = Some (parseLine (i + Z.of_nat k) line).
Proof.
  induction ls as [|l ls IH]; intros i k line H.
  - now destruct k.
  - destruct k as [|k].
    + cbn in *. injection H as ->. now rewrite Z.add_0_r.
    + cbn [nth_error parseLines] in *. rewrite (IH (i + 1) k line H).
      do 2 f_equal. lia.
Qed.

Lemma parseLines_In (ls : list string) :
  forall i p,
    In p (parseLines i ls) ->
    exists k line, (k < List.length ls)%nat
                   /\ p = parseLine (i + Z.of_nat k) line.
Proof.
  induction ls as [|l ls IH]; intros i p H; [contradiction|].
  cbn in H. destruct H as [<-|H].
  - exists O, l. cbn. split; [lia | now rewrite Z.add_0_r].
  - destruct (IH _ _ H) as (k & line & Hk & ->).
    exists (S k), line. cbn [List.length]. split; [lia|].
    f_equal. lia.
Qed.

Lemma parseLines_ids (ls : list string) :
  forall i j,
    In j (map Pipe.id (parseLines i ls))
    <-> i - 1 <= j < i - 1 + Z.of_nat (List.length ls).
Proof.
  induction ls as [|l ls IH]; intros i j.
  - cbn. lia.
  - cbn [parseLines map In List.length]. rewrite IH.
    change (Pipe.id (parseLine i l)) with (i - 1). lia.
Qed.

Lemma parseLines_NoDup (ls : list string) :
  forall i, NoDup (map Pipe.id (parseLines i ls)).
Proof.
  induction ls as [|l ls IH]; intros i; cbn [parseLines map]; constructor.
  - rewrite parseLines_ids. change (Pipe.id (parseLine i l)) with (i - 1). lia.
  - apply IH.
Qed.

Lemma initial_runInv (csv : string) :
  runInv (Z.of_nat (List.length (parsePipeData csv))) (initialGameState csv) [].
Proof.
  unfold parsePipeData.
  set (ls := tl (split "010" (trim csv))).
  constructor; cbn [initialGameState pipes bird totalPipes]; fold ls.
  - apply parseLines_NoDup.
  - constructor.
  - intros p Hp. destruct (parseLines_In _ _ _ Hp) as (k & line & _ & ->).
    cbn. split; [contradiction | discriminate].
  - intros p Hp _. destruct (parseLines_In _ _ _ Hp) as (k & line & _ & ->).
    rewrite parseLine_x. eexists. split; [reflexivity|].
    change (120%Q) with (inject_Z 120). rewrite <- Zle_Qle. lia.
  - intros i Hi. left. unfold parsePipeData. fold ls.
    apply parseLines_ids. rewrite parseLines_length in Hi. lia.
  - intros p Hp. apply (in_map Pipe.id) in Hp. apply parseLines_ids in Hp.
    rewrite parseLines_length. fold ls in Hp. lia.
  - vm_compute. reflexivity.
  - unfold parsePipeData. now fold ls.
Qed.

Lemma run_runInv (tl : option (list (list Z))) (csv : string) (es : list Event) :
  runInv (Z.of_nat (List.length (parsePipeData csv)))
         (scan tl (initialGameState csv) es)
         (map fst (history tl (initialGameState csv) es)).
Proof.
  apply (scan_runInv _ tl es (initialGameState csv) []). apply initial_runInv.
Qed.

Lemma scan_app (tl : option (list (list Z))) (s : State) (es1 es2 : list Event) :
  scan tl s (es1 ++ es2) = scan tl (scan tl s es1) es2.
Proof. unfold scan. apply fold_left_app. Qed.









(** on a tick of a running game the judged height is the height of the
    bird in the state the tick returns *)
Lemma judged_height (s : State) (j : Judged) :
  gameEnd s = false -> In j (judged Tick s) ->
  birdHeight j = Bird.y (bird (physics s)).
Proof.
  intros H Hj. cbn [judged] in Hj. rewrite H in Hj.
  unfold judgedBy in Hj. apply in_map_iff in Hj. destruct Hj as (p & <- & _).
  unfold physics. rewrite H. reflexivity.
Qed.


(** ** End of the game *)

Lemma reducer_wonInv (tl : option (list (list Z))) (e : Event) (s : State) :
  wonInv s -> wonInv (reducer tl e s).
Proof.
  unfold wonInv. intros H.
  destruct (gameEnd s) eqn:Hend.
  - intros _. now apply reducer_frozen.
  - destruct e; cbn [reducer].
    + unfold physics. rewrite Hend. cbn [won gameEnd].
      destruct (nextLives s =? 0); [reflexivity|].
      destruct (nextLives s >? 0); cbn [andb orb];
        [destruct (allPassed s); auto|]; intros W; specialize (H W); congruence.
    + unfold playerFlapReducer. rewrite Hend. cbn. intros W.
      specialize (H W). congruence.
    + unfold ghostReducerPhysics. rewrite Hend. cbn. intros W.
      specialize (H W). congruence.
    + unfold ghostReducerFlap. cbn. intros W. specialize (H W). congruence.
Qed.

Lemma run_wonInv (tl : option (list (list Z))) (csv : string) (es : list Event) :
  wonInv (scan tl (initialGameState csv) es).
Proof.
  assert (G : forall s, wonInv s -> wonInv (scan tl s es)).
  { induction es as [|e es IH]; intros s H; [exact H|].
    change (scan tl s (e :: es)) with (scan tl (reducer tl e s) es).
    apply IH. now apply reducer_wonInv. }
  apply G. unfold wonInv. cbn. discriminate.
Qed.

Lemma all_marked_iff_active_flagged (n : Z) (s : State) (seen : list Z) :
  runInv n s seen ->
  (forallb isScored (pipes s) = true <-> forall i, 0 <= i < n -> In i seen).
Proof.
  intros I. rewrite forallb_forall. split.
  - intros H i Hi. destruct (inv_all _ _ _ I i Hi) as [Hin|Hin]; [|exact Hin].
    apply in_map_iff in Hin. destruct Hin as (p & <- & Hp).
    apply (inv_flag _ _ _ I p Hp). now apply H.
  - intros H p Hp. apply (inv_flag _ _ _ I p Hp). apply H.
    now apply (inv_range _ _ _ I).
Qed.

(** C3, as stated, fails: on the one-pipe level, with a flap every 19
    ticks, the bird is at height 177.5 when the pair's centre line passes
    it on tick 161, outside the gap [50, 150].  The tick marks the pair
    passed and takes a life; two lives remain, every obstacle is marked
    passed, and the game ends as won, with score 0 below the total
    obstacle count 1. *)
Lemma C3_counterexample :
  let s := scan None (initialGameState levelOnePipe) (hovering 8) in
  gameEnd s = false
  /\ gameEnd (physics s) = true /\ won (physics s) = true
  /\ lives (physics s) = 2
  /\ forallb isScored (pipes (physics s)) = true
  /\ score (physics s) = 0 /\ totalPipes (physics s) = 1
  /\ score (physics s) < totalPipes (physics s).
Proof. vm_compute. repeat split. Qed.

(** C3, amended: on a tick applied to a state of a run in which the game
    has not ended, if lives remain positive after the tick then
    end-of-game and won both become true exactly when, by this tick,
    every obstacle of the level (identities 0 to totalPipes - 1) has been
    marked passed, which is what the test over the active obstacles
    decides, whether inside its gap or not, or the score has reached 20;
    otherwise both stay false.  When lives reach 0 on the tick,
    end-of-game becomes true with won = false. *)
Theorem C3_win_iff_every_obstacle_marked_or_score_twenty
  (tl : option (list (list Z))) (csv : string) (es : list Event) :
  let s := scan tl (initialGameState csv) es in
  let s' := physics s in
  let h' := history tl (initialGameState csv) (es ++ [Tick]) in
  gameEnd s = false ->
  (0 < lives s' ->
   ((gameEnd s' = true /\ won s' = true)
    <-> (20 <= score s'
         \/ forall i, 0 <= i < totalPipes s' -> In i (map fst h')))
   /\ gameEnd s' = won s'
   /\ (forallb isScored (pipes s') = true
       <-> forall i, 0 <= i < totalPipes s' -> In i (map fst h')))
  /\ (lives s' = 0 -> gameEnd s' = true /\ won s' = false)
  /\ totalPipes s' = Z.of_nat (List.length (parsePipeData csv)).
Proof.
  intros s s' h' Hrun.
  pose proof (run_runInv tl csv (es ++ [Tick])) as I.
  rewrite scan_app in I. change (scan tl (scan tl (initialGameState csv) es) [Tick])
    with s' in I. fold h' in I.
  pose proof (all_marked_iff_active_flagged _ _ _ I) as Hall.
  rewrite <- (inv_total _ _ _ I) in Hall.
  assert (Hwon : won s = false).
  { pose proof (run_wonInv tl csv es) as W. fold s in W. unfold wonInv in W.
    destruct (won s); [specialize (W eq_refl); congruence | reflexivity]. }
  assert (Hg : gameEnd s' = if nextLives s =? 0 then true else allPassed s)
    by (unfold s', physics; rewrite Hrun; reflexivity).
  assert (Hw : won s' = if (nextLives s >? 0) && allPassed s then true else false)
    by (unfold s', physics; rewrite Hrun; cbn [won]; now rewrite Hwon).
  assert (Hl : lives s' = nextLives s)
    by (unfold s', physics; rewrite Hrun; reflexivity).
  assert (Hp : allPassed s = (score s' >=? 20) || forallb isScored (pipes s'))
    by (unfold s', physics; rewrite Hrun; reflexivity).
  rewrite Hp in Hg, Hw. clear Hp.
  split.
  - intros Hpos. rewrite Hl in Hpos.
    destruct (Z.eqb_spec (nextLives s) 0) as [E|_]; [lia|].
    destruct (Z.gtb_spec (nextLives s) 0) as [_|E]; [|lia].
    cbn [andb] in Hw.
    assert (Hor : (score s' >=? 20) || forallb isScored (pipes s') = true
                  <-> (20 <= score s'
                       \/ forall i, 0 <= i < totalPipes s' -> In i (map fst h'))).
    { rewrite orb_true_iff, Hall, Z.geb_le. reflexivity. }
    split; [|split].
    + rewrite <- Hor, Hg, Hw.
      destruct ((score s' >=? 20) || forallb isScored (pipes s')); intuition congruence.
    + rewrite Hg, Hw.
      now destruct ((score s' >=? 20) || forallb isScored (pipes s')).
    + exact Hall.
  - split; [|exact (inv_total _ _ _ I)].
    intros Hz. rewrite Hl in Hz. rewrite Hg, Hw, Hz. cbn. auto.
Qed.

Lemma C3_witness :
  gameEnd (scan None (initialGameState levelOnePipe) (hovering 8)) = false
  /\ gameEnd (physics (scan None (initialGameState levelOnePipe) (hovering 8)))
     = won (physics (scan None (initialGameState levelOnePipe) (hovering 8))).
Proof.
  split; [vm_compute; reflexivity|].
  pose proof (C3_win_iff_every_obstacle_marked_or_score_twenty
                None levelOnePipe (hovering 8)) as H.
  cbv zeta in H.
  assert (H0 : gameEnd (scan None (initialGameState levelOnePipe) (hovering 8))
               = false) by (vm_compute; reflexivity).
  assert (H1 : 0 < lives (physics (scan None (initialGameState levelOnePipe)
                                        (hovering 8))))
    by (vm_compute; reflexivity).
  exact (proj1 (proj2 (proj1 (H H0) H1))).
Defined.


(** on the same level, left to fall after the first pair, the bird lies
    on the floor when the second pair is marked: two pairs are marked,
    one of them inside its band, and the score is 1 *)
Example ex_second_pair_outside_band :
  List.length (judgements None (initialGameState levelTwoPipes)
                          (hovering 9 ++ ticks 90)) = 2%nat
  /\ countInBand (judgements None (initialGameState levelTwoPipes)
                             (hovering 9 ++ ticks 90)) = 1%nat
  /\ score (scan None (initialGameState levelTwoPipes) (hovering 9 ++ ticks 90))
     = 1.
Proof. vm_compute. repeat split. Qed.

(** ** Ghosts *)

Lemma nth_error_mapi {A B : Type} (f : A -> nat -> B) (l : list A) :
  forall k i,
    nth_error (mapi f k l) i
    = option_map (fun a => f a (k + i)%nat) (nth_error l i).
Proof.
  induction l as [|a l IH]; intros k i.
  - now destruct i.
  - destruct i as [|i]; cbn [mapi nth_error option_map].
    + now rewrite Nat.add_0_r.
    + rewrite IH. now rewrite Nat.add_succ_r.
Qed.

Lemma nth_error_setNth {A : Type} (v : A) (l : list A) :
  forall i j,
    (i < List.length l)%nat ->
    nth_error (setNth i v l) j = if Nat.eqb i j then Some v else nth_error l j.
Proof.
  induction l as [|a l IH]; intros i j H; [cbn in H; lia|].
  destruct i as [|i], j as [|j]; cbn [setNth nth_error Nat.eqb]; auto.
  apply IH. cbn in H. lia.
Qed.

Lemma sourceRunEnded_iff (w : Window) (s : State) (i : nat) :
  sourceRunEnded w s i = true
  <-> exists endTick, optNth (__allRunEndTicks w) i = Some endTick
                      /\ endTick <= gameTime s.
Proof.
  unfold sourceRunEnded. destruct (optNth (__allRunEndTicks w) i) as [t|].
  - rewrite Z.geb_le. split; [eauto|]. now intros (t' & [= <-] & H).
  - split; [discriminate|]. now intros (t' & [=] & _).
Qed.

(** C9, as stated, fails: in the run that replays the first run as a
    ghost, the player is left to fall and loses the last life on tick 87;
    the ghost's source run ended on tick 103, which has not been reached,
    yet the ghost tick that follows leaves the ghost as it is instead of
    adding gravity to its velocity. *)
Lemma C9_counterexample :
  gameEnd (ghostRun 82) = true
  /\ gameTime (ghostRun 82) = 87
  /\ optNth (__allRunEndTicks ledgerAfterFirstRun) 0 = Some 103
  /\ sourceRunEnded ledgerAfterFirstRun (ghostRun 82) 0 = false
  /\ ghosts (ghostRun 82) = Some [ghostOnFloor]
  /\ ghosts (ghostReducerPhysics (Some [[5]]) ledgerAfterFirstRun (ghostRun 82))
     = Some [ghostOnFloor]
  /\ Ghost.velocity ghostOnFloor = Fin (71 # 2)
  /\ (Ghost.velocity ghostOnFloor + Constants.GRAVITY)%num = ofZ 36.
Proof. vm_compute. repeat split. Qed.

(** C9, amended: on every tick of a run with ghosts on which the game has
    not ended, each ghost is advanced by the same gravity-then-clamp rule
    as the bird (velocity += GRAVITY; y += velocity; clamp to the screen),
    from its own velocity and position, except that a ghost whose source
    run's recorded end tick has been reached by the current tick count is
    marked finished and not advanced; once the game has ended a tick
    leaves the ghosts as they are.  A ghost impulse sets the velocity of
    the addressed ghost to the jump velocity only if its source run has
    not ended at the current tick count, and leaves every other ghost as
    it is. *)
Theorem C9_ghosts_follow_bird_rule_until_source_run_or_game_ends
  (tl : option (list (list Z))) (w : Window) (s : State) :
  (gameEnd s = false ->
   (forall i g,
       nth_error (baseGhosts tl w s) i = Some g ->
       exists g',
         nth_error (ghostList (ghostReducerPhysics tl w s)) i = Some g'
         /\ (sourceRunEnded w s i = true -> g' = finished g)
         /\ (sourceRunEnded w s i = false ->
             Ghost.velocity g' = (Ghost.velocity g + Constants.GRAVITY)%num
             /\ Ghost.y g'
                = clamp (Ghost.y g + (Ghost.velocity g + Constants.GRAVITY))%num
                        (Birb.HEIGHT / two)%num
                        (Viewport.CANVAS_HEIGHT - Birb.HEIGHT / two)%num
             /\ Ghost.x g' = Ghost.x g /\ Ghost.dead g' = Ghost.dead g))
   /\ List.length (ghostList (ghostReducerPhysics tl w s))
      = List.length (baseGhosts tl w s)
   /\ Bird.y (bird (physics s))
      = clamp (Bird.y (bird s) + (Bird.velocity (bird s) + Constants.GRAVITY))%num
              (Birb.HEIGHT / two)%num
              (Viewport.CANVAS_HEIGHT - Birb.HEIGHT / two)%num
   /\ (lives (physics s) <> 0 ->
       Bird.velocity (bird (physics s))
       = (Bird.velocity (bird s) + Constants.GRAVITY)%num))
  /\ (gameEnd s = true -> ghostReducerPhysics tl w s = s)
  /\ (forall idx i g,
         nth_error (baseGhosts tl w s) i = Some g ->
         nth_error (ghostList (ghostReducerFlap tl w idx s)) i
         = Some (if (Z.of_nat i =? idx) && negb (sourceRunEnded w s i)
                 then jumped g else g)).
Proof.
  repeat split.
  - intros i g Hg. unfold ghostReducerPhysics. rewrite H.
    cbn [ghostList withGhosts ghosts]. rewrite nth_error_mapi, Hg.
    cbn [option_map Nat.add]. eexists. split; [reflexivity|].
    unfold advanceGhost.
    split; intros E; rewrite E; [reflexivity | repeat split].
  - unfold ghostReducerPhysics. rewrite H. cbn [ghostList withGhosts ghosts].
    generalize (advanceGhost w s) (baseGhosts tl w s) O.
    intros f l. induction l as [|a l IH]; intros k; cbn; auto.
  - unfold physics. now rewrite H.
  - unfold physics. rewrite H. cbn [lives bird Bird.velocity].
    intros Hl. destruct (Z.eqb_spec (nextLives s) 0); [contradiction | reflexivity].
  - intros H. unfold ghostReducerPhysics. now rewrite H.
  - intros idx i g Hg. unfold ghostReducerFlap.
    cbn [ghostList withGhosts ghosts].
    assert (Hi : (i < List.length (baseGhosts tl w s))%nat)
      by (apply nth_error_Some; congruence).
    destruct (Z.eqb_spec (Z.of_nat i) idx) as [<-|Hne].
    + rewrite Nat2Z.id.
      replace ((Z.of_nat i >=? 0)
               && (Z.of_nat i <? Z.of_nat (List.length (baseGhosts tl w s))))
        with true
        by (symmetry; apply andb_true_iff; split;
            [apply Z.geb_le | apply Z.ltb_lt]; lia).
      cbn [andb]. destruct (sourceRunEnded w s i); cbn [negb]; [exact Hg|].
      rewrite Hg, nth_error_setNth, Nat.eqb_refl by exact Hi. reflexivity.
    + cbn [andb].
      destruct ((idx >=? 0)
                && (idx <? Z.of_nat (List.length (baseGhosts tl w s)))) eqn:R;
        [|exact Hg].
      apply andb_true_iff in R. destruct R as [R1 R2].
      apply Z.geb_le in R1. apply Z.ltb_lt in R2.
      destruct (sourceRunEnded w s (Z.to_nat idx)); cbn [negb]; [exact Hg|].
      destruct (nth_error (baseGhosts tl w s) (Z.to_nat idx)) as [g0|] eqn:G0;
        [|exact Hg].
      rewrite nth_error_setNth by lia.
      destruct (Nat.eqb_spec (Z.to_nat idx) i) as [E|_]; [lia | exact Hg].
Qed.

Lemma C9_witness :
  gameEnd (ghostRun 2) = false
  /\ nth_error (baseGhosts (Some [[5]]) ledgerAfterFirstRun (ghostRun 2)) 0
     = Some ghostRising
  /\ exists g',
      nth_error (ghostList (ghostReducerPhysics (Some [[5]]) ledgerAfterFirstRun
                                                (ghostRun 2))) 0 = Some g'
      /\ (sourceRunEnded ledgerAfterFirstRun (ghostRun 2) 0 = true ->
          g' = finished ghostRising)
      /\ (sourceRunEnded ledgerAfterFirstRun (ghostRun 2) 0 = false ->
          Ghost.velocity g'
          = (Ghost.velocity ghostRising + Constants.GRAVITY)%num
          /\ Ghost.y g'
             = clamp (Ghost.y ghostRising
                      + (Ghost.velocity ghostRising + Constants.GRAVITY))%num
                     (Birb.HEIGHT / two)%num
                     (Viewport.CANVAS_HEIGHT - Birb.HEIGHT / two)%num
          /\ Ghost.x g' = Ghost.x ghostRising
          /\ Ghost.dead g' = Ghost.dead ghostRising).
Proof.
  assert (H0 : gameEnd (ghostRun 2) = false) by (vm_compute; reflexivity).
  assert (H1 : nth_error (baseGhosts (Some [[5]]) ledgerAfterFirstRun (ghostRun 2)) 0
               = Some ghostRising) by (vm_compute; reflexivity).
  pose proof (C9_ghosts_follow_bird_rule_until_source_run_or_game_ends
                (Some [[5]]) ledgerAfterFirstRun (ghostRun 2)) as (Hrun & _).
  exact (conj H0 (conj H1 (proj1 (Hrun H0) 0%nat ghostRising H1))).
Defined.

(** ** The replay ledger *)

Import Replay.

Lemma sameTicks_refl (arr : list Z) : sameTicks arr arr = true.
Proof.
  unfold sameTicks. rewrite Nat.eqb_refl. cbn [andb].
  apply forallb_forall. intros b Hb.
  apply In_nth_error in Hb. destruct Hb as (i & Hi).
  rewrite nth_error_mapi in Hi. cbn [Nat.add] in Hi.
  destruct (nth_error arr i) as [a|]; cbn in Hi; [|discriminate].
  injection Hi as <-. apply Z.eqb_refl.
Qed.

(** the tick lists are left alone when the content is already there, but
    the end tick and the start height are appended all the same *)
Lemma record_duplicate (arr : list Z) (w : Window) (l : list (list Z)) :
  __allRunFlapTicksArrays w = Some l ->
  existsb (sameTicks arr) l = true ->
  __allRunFlapTicksArrays (record arr w) = Some l
  /\ (forall t, __lastGameEndTick w = Some t ->
                __allRunEndTicks (record arr w)
                = Some (pushOnto (__allRunEndTicks w) t))
  /\ (forall y0, __currentRunStartY w = Some y0 ->
                 __allRunStartYs (record arr w)
                 = Some (pushOnto (__allRunStartYs w) y0)).
Proof.
  intros Hl Hex. unfold record. cbn. rewrite Hl, Hex. repeat split.
  - intros t Ht. now rewrite Ht.
  - intros y0 Hy. now rewrite Hy.
Qed.

(** C4 fails in a session that plays the same run twice.  The first run
    (one Space key at tick index 5, game over on tick 103) is recorded:
    the subscriber is called with the array of the run, which holds [5],
    and the ledger gets one tick list and one end tick.  In the second
    run the same key at the same tick is pushed onto the array of the
    second run and also, by the push that the first run subscribed, onto
    the array of the first run, which is the one the ledger stores: the
    stored list is [5, 108] by the time the second run ends.  The
    subscriber is called with an array that holds [5] again, finds no
    stored list equal to it and appends: two tick lists and two end
    ticks for a run recorded twice. *)
Theorem C4_same_run_played_twice_is_recorded_twice :
  let Q1 := Session.play levelOnePipe
              (firstSession 97 ++ [Session.IndexTimer 0]) in
  let P1 := Session.play levelOnePipe (firstSession 98) in
  let Q2 := Session.play levelOnePipe
              (firstSession 98 ++ secondSession 97
               ++ [Session.IndexTimer 0; Session.IndexTimer 1]) in
  let P2 := Session.play levelOnePipe
              (firstSession 98 ++ secondSession 97 ++ lastPeriod) in
  (* the first call of the subscriber *)
  option_map Session.taken (Session.run Q1) = Some false
  /\ option_map (Session.content (Session.heap Q1))
                (Session.__currentRunFlapTicksArray Q1) = Some [5]
  /\ Session.tickLists Q1 = []
  /\ P1 = Session.step levelOnePipe Q1 Session.PhysicsTimer
  /\ option_map Session.taken (Session.run P1) = Some true
  /\ Session.tickLists P1 = [[5]]
  /\ Session.__allRunEndTicks P1 = Some [103]
  (* the second call *)
  /\ option_map Session.taken (Session.run Q2) = Some false
  /\ option_map (Session.content (Session.heap Q2))
                (Session.__currentRunFlapTicksArray Q2) = Some [5]
  /\ Session.tickLists Q2 = [[5; 108]]
  /\ P2 = Session.step levelOnePipe Q2 Session.PhysicsTimer
  /\ option_map Session.taken (Session.run P2) = Some true
  /\ Session.tickLists P2 = [[5; 108]; [5]]
  /\ Session.__allRunEndTicks P2 = Some [103; 103]
  /\ entries (Session.__allRunFlapTicksArrays P1) = 1%nat
  /\ entries (Session.__allRunEndTicks P1) = 1%nat
  /\ entries (Session.__allRunFlapTicksArrays P2) = 2%nat
  /\ entries (Session.__allRunEndTicks P2) = 2%nat.
Proof. vm_compute. repeat split. Qed.

(** ** The level loader never fails *)

Lemma isNaN_mul_l (a b : num) : isNaN a = true -> isNaN (a * b)%num = true.
Proof. destruct a; cbn; try discriminate. reflexivity. Qed.

(** C5, as stated, fails: the data line of [levelBadLine] does not parse
    to three numbers, and [parsePipeData] returns a list with one
    obstacle whose gap centre and gap height are NaN; the run starts
    from it. *)
Lemma C5_counterexample :
  tl (split "010" (trim levelBadLine)) = ["abc"%string]
  /\ threeNumbers "abc" = false
  /\ parsePipeData levelBadLine = [pipeOfBadLine]
  /\ pipes (initialGameState levelBadLine) = [pipeOfBadLine]
  /\ gameEnd (initialGameState levelBadLine) = false
  /\ gameEnd (physics (initialGameState levelBadLine)) = false.
Proof. vm_compute. repeat split. Qed.

(** C5, amended: level parsing has no failure: for every text it returns
    one obstacle per line after the header, in order, obstacle [k] with
    identity [k], initial horizontal position viewport_width + k *
    spawn_spacing, and gap centre and gap height equal to the first and
    second field scaled by the viewport height.  A data line that does
    not parse to three numbers yields an obstacle in which the gap
    centre, the gap height or the time is NaN or undefined. *)
Theorem C5_parsePipeData_returns_one_obstacle_per_data_line
  (csvContent : string) :
  let lines := split "010" (trim csvContent) in
  List.length (parsePipeData csvContent) = (List.length lines - 1)%nat
  /\ forall k line,
      nth_error (List.tl lines) k = Some line ->
      let fields := map Number (split "," line) in
      exists p,
        nth_error (parsePipeData csvContent) k = Some p
        /\ Pipe.id p = Z.of_nat k
        /\ Pipe.x p = ofZ (600 + Z.of_nat k * 250)
        /\ Pipe.gapY p
           = (toNumber (nth_error fields 0) * Viewport.CANVAS_HEIGHT)%num
        /\ Pipe.gapHeight p
           = (toNumber (nth_error fields 1) * Viewport.CANVAS_HEIGHT)%num
        /\ Pipe.time p = nth_error fields 2
        /\ Pipe.scored p = None
        /\ (threeNumbers line = false ->
            isNaN (Pipe.gapY p) || isNaN (Pipe.gapHeight p)
            || notANumber (Pipe.time p) = true).
Proof.
  intros lines. split.
  - unfold parsePipeData. fold lines. rewrite parseLines_length.
    clearbody lines. destruct lines; cbn [List.tl List.length]; lia.
  - intros k line Hk fields. unfold parsePipeData. fold lines.
    rewrite (parseLines_nth _ 1 k line Hk). eexists. split; [reflexivity|].
    repeat split.
    + cbn [parseLine Pipe.id]. lia.
    + rewrite parseLine_x. f_equal. lia.
    + cbn [parseLine Pipe.gapY Pipe.gapHeight Pipe.time]. fold fields.
      unfold threeNumbers. fold fields.
      destruct (nth_error fields 0) as [a|]; [|reflexivity].
      destruct (nth_error fields 1) as [b|];
        [|intros _; cbn [toNumber]; rewrite (isNaN_mul_l NaN) by reflexivity;
          apply orb_true_iff; left; apply orb_true_r].
      destruct (nth_error fields 2) as [c|];
        [|intros _; apply orb_true_r].
      cbn [toNumber notANumber]. intros H.
      destruct (isNaN a) eqn:Ea;
        [rewrite (isNaN_mul_l a) by exact Ea; reflexivity|].
      destruct (isNaN b) eqn:Eb;
        [rewrite (isNaN_mul_l b) by exact Eb; apply orb_true_iff; left;
         apply orb_true_r|].
      destruct (isNaN c); [apply orb_true_r | discriminate].
Qed.

Lemma C5_witness :
  nth_error (List.tl (split "010" (trim levelBadLine))) 0 = Some "abc"%string
  /\ exists p,
      nth_error (parsePipeData levelBadLine) 0 = Some p
      /\ Pipe.id p = Z.of_nat 0
      /\ Pipe.x p = ofZ (600 + Z.of_nat 0 * 250)
      /\ Pipe.gapY p
         = (toNumber (nth_error (map Number (split "," "abc")) 0)
            * Viewport.CANVAS_HEIGHT)%num
      /\ Pipe.gapHeight p
         = (toNumber (nth_error (map Number (split "," "abc")) 1)
            * Viewport.CANVAS_HEIGHT)%num
      /\ Pipe.time p = nth_error (map Number (split "," "abc")) 2
      /\ Pipe.scored p = None
      /\ (threeNumbers "abc" = false ->
          isNaN (Pipe.gapY p) || isNaN (Pipe.gapHeight p)
          || notANumber (Pipe.time p) = true).
Proof.
  assert (H : nth_error (List.tl (split "010" (trim levelBadLine))) 0
              = Some "abc"%string) by (vm_compute; reflexivity).
  exact (conj H (proj2 (C5_parsePipeData_returns_one_obstacle_per_data_line
                          levelBadLine) 0%nat "abc"%string H)).
Defined.

(** ** Instances on the sample runs *)

Lemma C7_witness :
  lives (scan None (initialGameState levelOnePipe) (ticks 87)) = 0
  /\ gameEnd (scan None (initialGameState levelOnePipe) (ticks 87)) = true.
Proof.
  assert (H : lives (scan None (initialGameState levelOnePipe) (ticks 87)) = 0)
    by (vm_compute; reflexivity).
  exact (conj H (proj2 (proj2 (C7_lives_bounded_nonincreasing_zero_ends
                                 None levelOnePipe (ticks 87) Tick)) H)).
Defined.

(* ================================================================== *)
(** * Further properties of the code *)
(* ================================================================== *)

(** ** [clamp] and the bird's height *)

Lemma Qle_bool_false (a b : Q) : Qle_bool a b = false -> (b < a)%Q.
Proof.
  intros H. apply Qnot_le_lt. intros Hle.
  apply Qle_bool_iff in Hle. congruence.
Qed.

Lemma halfHeight : (Birb.HEIGHT / two)%num = Fin 15.
Proof. vm_compute. reflexivity. Qed.

Lemma floorHeight : (Viewport.CANVAS_HEIGHT - Birb.HEIGHT / two)%num = Fin 385.
Proof. vm_compute. reflexivity. Qed.

Lemma clamp_Fin (v lo hi : Q) :
  (lo <= hi)%Q ->
  exists r, clamp (Fin v) (Fin lo) (Fin hi) = Fin r
            /\ (lo <= r <= hi)%Q
            /\ ((lo <= v <= hi)%Q -> (r == v)%Q)
            /\ ((v <= lo)%Q -> (r == lo)%Q)
            /\ ((hi <= v)%Q -> (r == hi)%Q).
Proof.
  intros Hlh. unfold clamp, JSNum.min, JSNum.max, JSNum.leb.
  destruct (Qle_bool hi v) eqn:E1.
  - apply Qle_bool_iff in E1.
    destruct (Qle_bool lo hi) eqn:E2.
    + exists hi. repeat split; try lra; intros; lra.
    + apply Qle_bool_false in E2. lra.
  - apply Qle_bool_false in E1.
    destruct (Qle_bool lo v) eqn:E2.
    + apply Qle_bool_iff in E2. exists v. repeat split; try lra; intros; lra.
    + apply Qle_bool_false in E2. exists lo. repeat split; try lra; intros; lra.
Qed.

(** X2: [clamp] on finite bounds lo <= hi returns a number between the
    bounds: the value itself when it lies between them, the nearer bound
    otherwise, also for the two infinities.  A NaN value is not repaired:
    it comes back as NaN. *)
Theorem X2_clamp_keeps_value_in_range_and_passes_NaN (lo hi : Q) :
  (lo <= hi)%Q ->
  (forall v,
      exists r, clamp (Fin v) (Fin lo) (Fin hi) = Fin r
                /\ (lo <= r <= hi)%Q
                /\ ((lo <= v <= hi)%Q -> (r == v)%Q)
                /\ ((v <= lo)%Q -> (r == lo)%Q)
                /\ ((hi <= v)%Q -> (r == hi)%Q))
  /\ clamp PInf (Fin lo) (Fin hi) = Fin hi
  /\ clamp NInf (Fin lo) (Fin hi) = Fin lo
  /\ clamp NaN (Fin lo) (Fin hi) = NaN.
Proof.
  intros Hlh. split; [intros v; now apply clamp_Fin|].
  unfold clamp, JSNum.min, JSNum.max, JSNum.leb.
  apply Qle_bool_iff in Hlh. rewrite Hlh. repeat split.
Qed.

Lemma X2_witness :
  (15 <= 385)%Q
  /\ clamp PInf (Fin 15) (Fin 385) = Fin 385
  /\ clamp NInf (Fin 15) (Fin 385) = Fin 15
  /\ clamp NaN (Fin 15) (Fin 385) = NaN.
Proof.
  assert (H : (15 <= 385)%Q) by (vm_compute; discriminate).
  exact (conj H (proj2 (X2_clamp_keeps_value_in_range_and_passes_NaN 15 385 H))).
Defined.

Lemma clampedY_onScreen (y v : Q) :
  exists r, clamp (Fin y + (Fin v + Constants.GRAVITY))%num
                  (Birb.HEIGHT / two)%num
                  (Viewport.CANVAS_HEIGHT - Birb.HEIGHT / two)%num = Fin r
            /\ (15 <= r <= 385)%Q.
Proof.
  rewrite floorHeight, halfHeight.
  destruct (clamp_Fin (Qred (y + Qred (v + (1 # 2)))) 15 385) as (r & E & B & _);
    [lra|].
  exists r. split; [exact E | exact B].
Qed.

Lemma reducer_birdOnScreen (tl : option (list (list Z))) (e : Event) (s : State) :
  birdOnScreen (bird s) -> birdOnScreen (bird (reducer tl e s)).
Proof.
  intros (y & v & Hy & Hv & B).
  destruct e; cbn [reducer].
  - unfold physics. destruct (gameEnd s); [exists y, v; auto|].
    cbn [bird]. unfold birdOnScreen. cbn [Bird.y Bird.velocity].
    unfold clampedY, newY, newVelocity. rewrite Hy, Hv.
    destruct (clampedY_onScreen y v) as (r & E & Br).
    exists r. destruct (nextLives s =? 0).
    + exists 0%Q. repeat split; try exact E; apply Br.
    + exists (Qred (v + (1 # 2))). repeat split; try exact E; apply Br.
  - unfold playerFlapReducer. destruct (gameEnd s); [exists y, v; auto|].
    cbn [bird]. exists y, (inject_Z (-5)). repeat split; auto; apply B.
  - unfold ghostReducerPhysics. destruct (gameEnd s); exists y, v; auto.
  - exists y, v; auto.
Qed.

(** X1: in every run from the initial state of any level, after any
    events, the bird's height is a finite number between half its height
    and the viewport height minus half its height (15 and 385), its
    velocity is finite, and its horizontal position is still 180. *)
Theorem X1_bird_stays_on_screen
  (tl : option (list (list Z))) (csv : string) (es : list Event) :
  birdOnScreen (bird (scan tl (initialGameState csv) es))
  /\ Bird.x (bird (scan tl (initialGameState csv) es)) = ofZ 180.
Proof.
  split; [|exact (inv_bird _ _ _ (run_runInv tl csv es))].
  assert (G : forall s, birdOnScreen (bird s) -> birdOnScreen (bird (scan tl s es))).
  { induction es as [|e es IH]; intros s H; [exact H|].
    change (scan tl s (e :: es)) with (scan tl (reducer tl e s) es).
    apply IH. now apply reducer_birdOnScreen. }
  apply G. exists 200%Q, 0%Q. repeat split; try (vm_compute; reflexivity);
    vm_compute; discriminate.
Qed.

(** ** Tick count, counters and the end of a run *)

Lemma scan_frozen (tl : option (list (list Z))) (es : list Event) :
  forall s, gameEnd s = true -> gameEnd (scan tl s es) = true.
Proof.
  induction es as [|e es IH]; intros s H; [exact H|].
  change (scan tl s (e :: es)) with (scan tl (reducer tl e s) es).
  apply IH. now apply reducer_frozen.
Qed.

Lemma reducer_gameTime (tl : option (list (list Z))) (e : Event) (s : State) :
  gameTime (reducer tl e s)
  = match e with
    | Tick => if gameEnd s then gameTime s else gameTime s + 1
    | _ => gameTime s
    end.
Proof.
  destruct e; cbn [reducer].
  - unfold physics. now destruct (gameEnd s).
  - unfold playerFlapReducer. now destruct (gameEnd s).
  - unfold ghostReducerPhysics. now destruct (gameEnd s).
  - reflexivity.
Qed.

Lemma scan_gameTime (tl : option (list (list Z))) (es : list Event) :
  forall s,
    gameTime s <= gameTime (scan tl s es) <= gameTime s + countTicks es
    /\ (gameEnd (scan tl s es) = false ->
        gameTime (scan tl s es) = gameTime s + countTicks es).
Proof.
  induction es as [|e es IH]; intros s.
  - cbn. split; [lia | intros _; lia].
  - change (scan tl s (e :: es)) with (scan tl (reducer tl e s) es).
    destruct (IH (reducer tl e s)) as [IH1 IH2].
    rewrite reducer_gameTime in IH1, IH2.
    destruct e; cbn [countTicks]; try (split; [lia | exact IH2]).
    destruct (gameEnd s) eqn:Hend.
    + split; [lia|]. intros Hrun.
      pose proof (scan_frozen tl es (reducer tl Tick s)
                              (proj1 (reducer_frozen tl Tick s Hend))).
      congruence.
    + split; [lia|]. intros Hrun. specialize (IH2 Hrun). lia.
Qed.

(** X3: the tick count of a state never goes down, and in a run from the
    initial state it is at most the number of tick events so far, with
    equality for as long as the game has not ended: flaps and ghost
    events do not advance it, and ticks after the end are not counted. *)
Theorem X3_gameTime_counts_ticks_until_end
  (tl : option (list (list Z))) (csv : string) (es1 es2 : list Event) :
  let s1 := scan tl (initialGameState csv) es1 in
  let s2 := scan tl s1 es2 in
  gameTime s1 <= gameTime s2
  /\ 0 <= gameTime s1 <= countTicks es1
  /\ (gameEnd s1 = false -> gameTime s1 = countTicks es1).
Proof.
  intros s1 s2.
  destruct (scan_gameTime tl es2 s1) as [[H1 _] _].
  destruct (scan_gameTime tl es1 (initialGameState csv)) as [H2 H3].
  cbn [initialGameState gameTime initialState] in H2, H3.
  fold s1 in H2, H3. fold s2 in H1. repeat split; try lia.
  intros H. specialize (H3 H). lia.
Qed.

Lemma X3_witness :
  gameEnd (scan None (initialGameState levelOnePipe) (hovering 8)) = false
  /\ gameTime (scan None (initialGameState levelOnePipe) (hovering 8))
     = countTicks (hovering 8).
Proof.
  assert (H : gameEnd (scan None (initialGameState levelOnePipe) (hovering 8))
              = false) by (vm_compute; reflexivity).
  exact (conj H (proj2 (proj2 (X3_gameTime_counts_ticks_until_end
                                 None levelOnePipe (hovering 8) [])) H)).
Defined.

Lemma reducer_counters (tl : option (list (list Z))) (e : Event) (s : State) :
  hitCooldown (reducer tl e s)
  = match e with
    | Tick => if gameEnd s then hitCooldown s else nextCooldownOut s
    | _ => hitCooldown s
    end
  /\ lives (reducer tl e s)
     = match e with
       | Tick => if gameEnd s then lives s else nextLives s
       | _ => lives s
       end.
Proof.
  destruct e; cbn [reducer].
  - unfold physics. now destruct (gameEnd s).
  - unfold playerFlapReducer. now destruct (gameEnd s).
  - unfold ghostReducerPhysics. now destruct (gameEnd s).
  - split; reflexivity.
Qed.

(** X4: while the hit-cooldown counter of a state exceeds the number of
    ticks among the events that follow, no life is lost over those
    events, whatever collides; with the counter at 30 after a hit, the
    next 29 ticks are safe. *)
Theorem X4_no_life_lost_within_cooldown
  (tl : option (list (list Z))) (es : list Event) :
  forall s,
    countTicks es < hitCooldown s ->
    lives (scan tl s es) = lives s
    /\ hitCooldown s - countTicks es <= hitCooldown (scan tl s es).
Proof.
  induction es as [|e es IH]; intros s H.
  - cbn. split; [reflexivity | lia].
  - change (scan tl s (e :: es)) with (scan tl (reducer tl e s) es).
    destruct (reducer_counters tl e s) as [Hc Hl].
    assert (Hn : 0 <= countTicks es)
      by (clear; induction es as [|[] es IH]; cbn [countTicks]; lia).
    assert (Hsame : hitCooldown (reducer tl e s) = hitCooldown s ->
                    lives (reducer tl e s) = lives s ->
                    countTicks es <= countTicks (e :: es) ->
                    lives (scan tl (reducer tl e s) es) = lives s
                    /\ hitCooldown s - countTicks (e :: es)
                       <= hitCooldown (scan tl (reducer tl e s) es)).
    { intros E1 E2 E3. destruct (IH (reducer tl e s)) as [I1 I2]; [lia|].
      split; [congruence | lia]. }
    destruct e; try (apply Hsame; auto; cbn [countTicks]; lia).
    destruct (gameEnd s); [apply Hsame; auto; cbn [countTicks]; lia|].
    cbn [countTicks] in *.
    assert (Hsafe : collided s && (nextCooldown s =? 0) = false).
    { rewrite nextCooldown_zero.
      destruct (Z.leb_spec (hitCooldown s) 1); [lia | apply andb_false_r]. }
    unfold nextCooldownOut in Hc. unfold nextLives in Hl.
    rewrite Hsafe in Hc, Hl. unfold nextCooldown in Hc.
    destruct (IH (reducer tl Tick s)) as [I1 I2]; [lia|].
    split; [congruence | lia].
Qed.

Lemma X4_witness :
  countTicks (ticks 29) < hitCooldown (falling 57)
  /\ lives (scan None (falling 57) (ticks 29)) = lives (falling 57).
Proof.
  assert (H : countTicks (ticks 29) < hitCooldown (falling 57))
    by (vm_compute; reflexivity).
  exact (conj H (proj1 (X4_no_life_lost_within_cooldown
                          None (ticks 29) (falling 57) H))).
Defined.

Lemma reducer_counterInv (tl : option (list (list Z))) (e : Event) (s : State) :
  0 <= hitCooldown s <= 30 /\ damageTicks s = hitCooldown s ->
  0 <= hitCooldown (reducer tl e s) <= 30
  /\ damageTicks (reducer tl e s) = hitCooldown (reducer tl e s).
Proof.
  intros [Hb Hd]. destruct e; cbn [reducer].
  - unfold physics. destruct (gameEnd s); [auto|].
    cbn [hitCooldown damageTicks]. unfold nextCooldownOut, nextCooldown.
    rewrite Hd.
    destruct (collided s && (Z.max 0 (hitCooldown s - 1) =? 0));
      unfold Constants.HIT_COOLDOWN_TICKS, Constants.DAMAGE_TICKS; lia.
  - unfold playerFlapReducer. destruct (gameEnd s); auto.
  - unfold ghostReducerPhysics. destruct (gameEnd s); auto.
  - auto.
Qed.

(** X5: in every run from the initial state the hit-cooldown counter
    stays between 0 and HIT_COOLDOWN_TICKS = 30, and the damage-indicator
    counter always holds the same value as the hit-cooldown counter. *)
Theorem X5_counters_bounded_and_equal
  (tl : option (list (list Z))) (csv : string) (es : list Event) :
  let s := scan tl (initialGameState csv) es in
  0 <= hitCooldown s <= 30 /\ damageTicks s = hitCooldown s.
Proof.
  assert (G : forall s0,
             0 <= hitCooldown s0 <= 30 /\ damageTicks s0 = hitCooldown s0 ->
             0 <= hitCooldown (scan tl s0 es) <= 30
             /\ damageTicks (scan tl s0 es) = hitCooldown (scan tl s0 es)).
  { induction es as [|e es IH]; intros s0 H; [exact H|].
    change (scan tl s0 (e :: es)) with (scan tl (reducer tl e s0) es).
    apply IH. now apply reducer_counterInv. }
  apply G. cbn. lia.
Qed.

Lemma reducer_endInv (tl : option (list (list Z))) (e : Event) (s : State) :
  endInv s -> endInv (reducer tl e s).
Proof.
  intros [Hiff Hwon Hstop Hl].
  destruct (gameEnd s) eqn:Hend.
  - assert (E : reducer tl e s = s \/ exists gs, reducer tl e s = withGhosts s gs).
    { destruct e; cbn [reducer].
      - left. unfold physics. now rewrite Hend.
      - left. unfold playerFlapReducer. now rewrite Hend.
      - left. unfold ghostReducerPhysics. now rewrite Hend.
      - right. eexists. reflexivity. }
    destruct E as [->|(gs & ->)]; constructor; cbn; auto; now rewrite Hend.
  - assert (Hpos : 0 < lives s).
    { destruct (Z.eq_dec (lives s) 0) as [E|E]; [|lia].
      assert (false = true) by (apply Hiff; now left). discriminate. }
    assert (Hnw : won s = false).
    { destruct (won s); [|reflexivity].
      assert (false = true) by (apply Hiff; now right). discriminate. }
    destruct e; cbn [reducer].
    + unfold physics. rewrite Hend.
      pose proof (nextLives_bounds s Hl) as Hn.
      constructor; cbn [gameEnd won lives bird Bird.velocity]; rewrite ?Hnw.
      * destruct (Z.eqb_spec (nextLives s) 0) as [E0|E0].
        -- split; auto.
        -- destruct (Z.gtb_spec (nextLives s) 0); [|lia]. cbn [orb andb].
           destruct (allPassed s); split; auto; intros [?|?]; congruence.
      * destruct (Z.gtb_spec (nextLives s) 0); cbn [andb]; [lia|].
        intros; discriminate.
      * intros E0. apply Z.eqb_eq in E0. now rewrite E0.
      * lia.
    + unfold playerFlapReducer. rewrite Hend.
      constructor; cbn [gameEnd won lives bird Bird.velocity]; auto.
      intros E0. lia.
    + unfold ghostReducerPhysics. rewrite Hend.
      constructor; cbn [withGhosts gameEnd won lives bird]; rewrite ?Hend; auto.
    + unfold ghostReducerFlap.
      constructor; cbn [withGhosts gameEnd won lives bird]; rewrite ?Hend; auto.
Qed.

(** X6: in every state of a run from the initial state, the game has
    ended if and only if no life is left or the run is won; a won run has
    at least one life left, so the two endings exclude each other; and
    once no life is left the bird's velocity is 0. *)
Theorem X6_game_ended_iff_dead_or_won
  (tl : option (list (list Z))) (csv : string) (es : list Event) :
  let s := scan tl (initialGameState csv) es in
  (gameEnd s = true <-> (lives s = 0 \/ won s = true))
  /\ (won s = true -> 0 < lives s)
  /\ (lives s = 0 -> Bird.velocity (bird s) = ofZ 0).
Proof.
  assert (G : forall s0, endInv s0 -> endInv (scan tl s0 es)).
  { induction es as [|e es IH]; intros s0 H; [exact H|].
    change (scan tl s0 (e :: es)) with (scan tl (reducer tl e s0) es).
    apply IH. now apply reducer_endInv. }
  assert (I : endInv (initialGameState csv)).
  { constructor; cbn; try lia; try discriminate. }
  destruct (G _ I) as [H1 H2 H3 _]. auto.
Qed.

Lemma X6_witness :
  won (scan None (initialGameState levelOnePipe) (hovering 9)) = true
  /\ 0 < lives (scan None (initialGameState levelOnePipe) (hovering 9)).
Proof.
  assert (H : won (scan None (initialGameState levelOnePipe) (hovering 9)) = true)
    by (vm_compute; reflexivity).
  exact (conj H (proj1 (proj2 (X6_game_ended_iff_dead_or_won
                                 None levelOnePipe (hovering 9))) H)).
Defined.

(** ** Where the obstacles are *)

Lemma sub_ofZ (a b : Z) : (ofZ a - ofZ b)%num = ofZ (a - b).
Proof.
  unfold ofZ, JSNum.sub. f_equal.
  replace (inject_Z a - inject_Z b)%Q with (inject_Z (a - b)).
  - apply Qred_inject_Z.
  - unfold inject_Z, Qminus, Qplus, Qopp. cbn. f_equal. lia.
Qed.

Lemma neg_ofZ (a : Z) : (- ofZ a)%num = ofZ (- a).
Proof.
  unfold ofZ, JSNum.neg. f_equal.
  change (- inject_Z a)%Q with (inject_Z (- a)). apply Qred_inject_Z.
Qed.

Lemma ltb_ofZ (a b : Z) : (ofZ a <? ofZ b)%num = (a <? b).
Proof.
  unfold ofZ, JSNum.ltb.
  destruct (Z.ltb_spec a b) as [H|H].
  - apply negb_true_iff. destruct (Qle_bool (inject_Z b) (inject_Z a)) eqn:E;
      [|reflexivity].
    apply Qle_bool_iff in E. rewrite <- Zle_Qle in E. lia.
  - apply negb_false_iff. apply Qle_bool_iff. rewrite <- Zle_Qle. lia.
Qed.

Lemma halfPipeWidth : (Constants.PIPE_WIDTH / two)%num = ofZ 60.
Proof. vm_compute. reflexivity. Qed.

Lemma onScreen_ofZ (p : Pipe.t) (a : Z) :
  Pipe.x p = ofZ a -> onScreen p = (-120 <? a).
Proof.
  intros H. unfold onScreen, JSNum.gtb. rewrite H.
  unfold Constants.PIPE_WIDTH. rewrite neg_ofZ. apply ltb_ofZ.
Qed.

Lemma justPassed_ofZ (p : Pipe.t) (a : Z) :
  Pipe.x p = ofZ a ->
  justPassed (ofZ 180) p = negb (isScored p) && (a + 60 <? 180).
Proof.
  intros H. unfold justPassed, isScored.
  now rewrite H, halfPipeWidth, add_ofZ, ltb_ofZ.
Qed.

Lemma tick_levelInv (n : Z) (s : State) :
  gameEnd s = false -> Bird.x (bird s) = ofZ 180 ->
  levelInv n s -> levelInv n (physics s).
Proof.
  intros Hrun Hbird [Hact Hall].
  assert (Ht : gameTime (physics s) = gameTime s + 1)
    by (unfold physics; now rewrite Hrun).
  pose proof (physics_pipes s Hrun) as Hp. rewrite Hbird in Hp.
  assert (Hmoved : forall p0, In p0 (pipes s) ->
            Pipe.x (movePipe p0)
            = ofZ (600 + 250 * Pipe.id p0 - 3 * gameTime s - 3)).
  { intros p0 Hp0. destruct (Hact p0 Hp0) as (_ & [Hx _] & _).
    cbn [movePipe Pipe.x]. rewrite Hx. unfold Constants.PIPE_SPEED.
    now rewrite sub_ofZ. }
  constructor; rewrite Hp, Ht.
  - intros p' Hp'. apply in_map_iff in Hp'. destruct Hp' as (u & <- & Hu).
    apply filter_In in Hu. destruct Hu as [Hu Hon].
    apply in_map_iff in Hu. destruct Hu as (p0 & <- & Hp0).
    destruct (Hact p0 Hp0) as (Hr & [Hx Hs] & Hlive).
    pose proof (Hmoved p0 Hp0) as Hx'.
    rewrite (onScreen_ofZ _ _ Hx') in Hon. apply Z.ltb_lt in Hon.
    unfold pipeAt. rewrite !stepPipe_id.
    change (Pipe.id (movePipe p0)) with (Pipe.id p0).
    split; [exact Hr|]. split; [|lia].
    split.
    + rewrite stepPipe_x, Hx'. f_equal. lia.
    + rewrite stepPipe_scored, (justPassed_ofZ _ _ Hx'), movePipe_scored.
      destruct (isScored p0) eqn:E; cbn [negb andb orb].
      * split; [intros _|reflexivity]. assert (480 + 250 * Pipe.id p0 < 3 * gameTime s)
          by now apply Hs. lia.
      * rewrite Z.ltb_lt. split; intros H; [lia|].
        destruct (Z.lt_ge_cases (480 + 250 * Pipe.id p0) (3 * gameTime s)) as [L|L];
          [apply Hs in L; discriminate | lia].
  - intros i Hi Hlive. rewrite map_id_stepPipe.
    assert (Hin : In i (map Pipe.id (pipes s))) by (apply Hall; lia).
    apply in_map_iff in Hin. destruct Hin as (p0 & <- & Hp0).
    change (Pipe.id p0) with (Pipe.id (movePipe p0)).
    apply in_map. apply filter_In. split; [now apply in_map|].
    rewrite (onScreen_ofZ _ _ (Hmoved p0 Hp0)). apply Z.ltb_lt. lia.
Qed.

Lemma reducer_levelInv (n : Z) (tl : option (list (list Z))) (e : Event)
  (s : State) :
  Bird.x (bird s) = ofZ 180 -> levelInv n s -> levelInv n (reducer tl e s).
Proof.
  intros Hbird H.
  assert (Hsame : pipes (reducer tl e s) = pipes s ->
                  gameTime (reducer tl e s) = gameTime s ->
                  levelInv n (reducer tl e s)).
  { intros E1 E2. destruct H as [Hact Hall].
    constructor; rewrite E1, E2; auto. }
  pose proof (reducer_pipes tl e s) as Hp.
  pose proof (reducer_gameTime tl e s) as Ht.
  destruct e; auto.
  destruct (gameEnd s) eqn:Hend; auto.
  now apply tick_levelInv.
Qed.

Lemma initial_levelInv (csv : string) :
  levelInv (Z.of_nat (List.length (parsePipeData csv))) (initialGameState csv).
Proof.
  unfold parsePipeData.
  set (ls := List.tl (split "010" (trim csv))).
  constructor; cbn [initialGameState pipes gameTime initialState];
    unfold parsePipeData; fold ls.
  - intros p Hp.
    pose proof (proj1 (parseLines_ids ls 1 (Pipe.id p)) (in_map Pipe.id _ _ Hp))
      as Hr.
    destruct (parseLines_In _ _ _ Hp) as (k & line & Hk & ->).
    rewrite parseLines_length. cbn [parseLine Pipe.id] in *.
    split; [lia|]. split; [|lia]. split.
    + rewrite parseLine_x. cbn [parseLine Pipe.id]. f_equal. lia.
    + unfold isScored. cbn [parseLine Pipe.scored Pipe.id truthy].
      split; [discriminate | lia].
  - intros i Hi _. apply parseLines_ids. rewrite parseLines_length in Hi. lia.
Qed.

Lemma run_levelInv (tl : option (list (list Z))) (csv : string) (es : list Event) :
  levelInv (Z.of_nat (List.length (parsePipeData csv)))
           (scan tl (initialGameState csv) es).
Proof.
  assert (G : forall s,
             Bird.x (bird s) = ofZ 180 ->
             levelInv (Z.of_nat (List.length (parsePipeData csv))) s ->
             levelInv (Z.of_nat (List.length (parsePipeData csv))) (scan tl s es)).
  { induction es as [|e es IH]; intros s Hb H; [exact H|].
    change (scan tl s (e :: es)) with (scan tl (reducer tl e s) es).
    apply IH.
    - now rewrite (proj1 (reducer_static tl e s)).
    - now apply reducer_levelInv. }
  apply G; [vm_compute; reflexivity | apply initial_levelInv].
Qed.

(** X7: in every state of a run, the obstacles are a function of the
    tick count t: obstacle i of the level is still active exactly while
    3 t < 720 + 250 i; an active obstacle i is at x = 600 + 250 i - 3 t;
    and its passed flag is set exactly when 480 + 250 i < 3 t, that is,
    when its centre line is left of the bird. *)
Theorem X7_obstacles_are_a_function_of_the_tick_count
  (tl : option (list (list Z))) (csv : string) (es : list Event) :
  let s := scan tl (initialGameState csv) es in
  let n := Z.of_nat (List.length (parsePipeData csv)) in
  (forall i, 0 <= i < n ->
             (In i (map Pipe.id (pipes s)) <-> 3 * gameTime s < 720 + 250 * i))
  /\ (forall p, In p (pipes s) ->
                0 <= Pipe.id p < n
                /\ Pipe.x p = ofZ (600 + 250 * Pipe.id p - 3 * gameTime s)
                /\ (isScored p = true <-> 480 + 250 * Pipe.id p < 3 * gameTime s)).
Proof.
  intros s n. destruct (run_levelInv tl csv es) as [Hact Hall].
  fold s n in Hact, Hall. split.
  - intros i Hi. split; [|now apply Hall].
    intros Hin. apply in_map_iff in Hin. destruct Hin as (p & <- & Hp).
    apply (Hact p Hp).
  - intros p Hp. destruct (Hact p Hp) as (Hr & [Hx Hs] & _). auto.
Qed.

Lemma X7_witness :
  In passedPipe (pipes (scan None (initialGameState levelOnePipe) (hovering 9)))
  /\ Pipe.x passedPipe
     = ofZ (600 + 250 * Pipe.id passedPipe
            - 3 * gameTime (scan None (initialGameState levelOnePipe) (hovering 9))).
Proof.
  assert (H : In passedPipe
                 (pipes (scan None (initialGameState levelOnePipe) (hovering 9))))
    by (vm_compute; left; reflexivity).
  exact (conj H (proj1 (proj2 (proj2 (X7_obstacles_are_a_function_of_the_tick_count
                                        None levelOnePipe (hovering 9))
                                     passedPipe H)))).
Defined.

(** ** The score *)

Lemma marks_range (n : Z) (e : Event) (s : State) (seen : list Z) :
  runInv n s seen ->
  forall i, In i (map fst (marks e s)) -> 0 <= i < n.
Proof.
  intros I i Hi. destruct e; cbn [marks map] in Hi; try contradiction.
  destruct (gameEnd s); [contradiction|].
  rewrite marks_ids in Hi. apply in_map_iff in Hi. destruct Hi as (u & <- & Hu).
  apply filter_In in Hu. destruct Hu as [Hu _].
  apply filter_In in Hu. destruct Hu as [Hu _].
  apply in_map_iff in Hu. destruct Hu as (p0 & <- & Hp0).
  exact (inv_range _ _ _ I p0 Hp0).
Qed.

Lemma history_range (n : Z) (tl : option (list (list Z))) (es : list Event) :
  forall s seen,
    runInv n s seen ->
    forall i, In i (map fst (history tl s es)) -> 0 <= i < n.
Proof.
  induction es as [|e es IH]; intros s seen I i Hi; [contradiction|].
  cbn [history] in Hi. rewrite map_app, in_app_iff in Hi.
  destruct Hi as [Hi|Hi].
  - now apply (marks_range n e s seen).
  - apply (IH (reducer tl e s) (seen ++ map fst (marks e s))); auto.
    now apply reducer_runInv.
Qed.

Lemma NoDup_range_length (l : list Z) (n : Z) :
  NoDup l -> (forall i, In i l -> 0 <= i < n) ->
  Z.of_nat (List.length l) <= Z.max 0 n.
Proof.
  intros Hnd Hr.
  assert (Hincl : incl l (map Z.of_nat (seq 0 (Z.to_nat n)))).
  { intros i Hi. specialize (Hr i Hi). apply in_map_iff.
    exists (Z.to_nat i). split; [lia|]. apply in_seq. lia. }
  pose proof (NoDup_incl_length Hnd Hincl) as H.
  rewrite length_map, length_seq in H. lia.
Qed.

Lemma insideCount_le (h : list (Z * bool)) :
  0 <= insideCount h <= Z.of_nat (List.length (map fst h)).
Proof.
  unfold insideCount. rewrite length_map.
  pose proof (filter_length_le snd h). lia.
Qed.

(** X8: in every run from the initial state the score never goes down
    from one state to a later one, and it is never negative and never
    more than the number of obstacles of the level, which is what
    [totalPipes] holds. *)
Theorem X8_score_monotone_and_at_most_total
  (tl : option (list (list Z))) (csv : string) (es1 es2 : list Event) :
  let s1 := scan tl (initialGameState csv) es1 in
  let s2 := scan tl s1 es2 in
  score s1 <= score s2
  /\ 0 <= score s1 <= totalPipes s1
  /\ totalPipes s1 = Z.of_nat (List.length (parsePipeData csv)).
Proof.
  intros s1 s2.
  pose proof (run_runInv tl csv es1) as I. fold s1 in I.
  pose proof (scan_score tl es2 s1) as H2. fold s2 in H2.
  pose proof (scan_score tl es1 (initialGameState csv)) as H1. fold s1 in H1.
  cbn [initialGameState score initialState] in H1.
  pose proof (insideCount_le (history tl s1 es2)) as B2.
  pose proof (insideCount_le (history tl (initialGameState csv) es1)) as B1.
  pose proof (NoDup_range_length _ _ (inv_seen _ _ _ I)
                (history_range _ tl es1 _ [] (initial_runInv csv))) as B.
  rewrite (inv_total _ _ _ I). repeat split; lia.
Qed.

(** ** Every run ends *)

Lemma reducer_unfinished (tl : option (list (list Z))) (e : Event) (s : State) :
  (gameEnd s = false -> gameTime s = 0 \/ forallb isScored (pipes s) = false) ->
  gameEnd (reducer tl e s) = false ->
  gameTime (reducer tl e s) = 0
  \/ forallb isScored (pipes (reducer tl e s)) = false.
Proof.
  intros H Hrun'.
  destruct (gameEnd s) eqn:Hend.
  - rewrite (proj1 (reducer_frozen tl e s Hend)) in Hrun'. discriminate.
  - pose proof (reducer_pipes tl e s) as Hp.
    pose proof (reducer_gameTime tl e s) as Ht.
    destruct e; try (rewrite Hp, Ht; now apply H).
    right. cbn [reducer] in *. unfold physics in *. rewrite Hend in *.
    cbn [gameEnd pipes] in *.
    destruct (nextLives s =? 0); [discriminate|].
    cbn [orb] in Hrun'. unfold allPassed in Hrun'.
    apply orb_false_iff in Hrun'. apply Hrun'.
Qed.

(** X9: a run cannot go on for ever: in every state of a run of a level
    with n obstacles in which the game has not ended, the tick count t
    satisfies 3 t <= 230 + 250 n; so once the events of a run hold more
    ticks than that, the game has ended, whatever the player did. *)
Theorem X9_every_run_ends_by_a_tick_bound
  (tl : option (list (list Z))) (csv : string) (es : list Event) :
  let s := scan tl (initialGameState csv) es in
  let n := Z.of_nat (List.length (parsePipeData csv)) in
  (gameEnd s = false -> 3 * gameTime s <= 230 + 250 * n)
  /\ (230 + 250 * n < 3 * countTicks es -> gameEnd s = true).
Proof.
  intros s n.
  assert (G : forall s0,
             (gameEnd s0 = false ->
              gameTime s0 = 0 \/ forallb isScored (pipes s0) = false) ->
             gameEnd (scan tl s0 es) = false ->
             gameTime (scan tl s0 es) = 0
             \/ forallb isScored (pipes (scan tl s0 es)) = false).
  { induction es as [|e es IH]; intros s0 H; [exact H|].
    change (scan tl s0 (e :: es)) with (scan tl (reducer tl e s0) es).
    apply IH. now apply reducer_unfinished. }
  assert (Hbound : gameEnd s = false -> 3 * gameTime s <= 230 + 250 * n).
  { intros Hrun.
    destruct (G (initialGameState csv) (fun _ => or_introl eq_refl) Hrun)
      as [H0|Hf]; fold s in H0 || fold s in Hf.
    - lia.
    - destruct (forallb_forall isScored (pipes s)) as [_ Hall].
      destruct (existsb (fun p => negb (isScored p)) (pipes s)) eqn:Ex.
      + apply existsb_exists in Ex. destruct Ex as (p & Hp & Hs).
        apply negb_true_iff in Hs.
        destruct (lvl_active _ _ (run_levelInv tl csv es) p Hp)
          as (Hr & [_ Hflag] & _).
        fold s n in Hr, Hflag.
        destruct (Z.lt_ge_cases (480 + 250 * Pipe.id p) (3 * gameTime s)) as [L|L];
          [apply Hflag in L; congruence | lia].
      + exfalso. rewrite Hall in Hf; [discriminate|].
        intros p Hp. destruct (isScored p) eqn:E; [reflexivity|].
        assert (existsb (fun p => negb (isScored p)) (pipes s) = true)
          by (apply existsb_exists; exists p; split; [exact Hp | now rewrite E]).
        congruence. }
  split; [exact Hbound|].
  intros Hlong. destruct (gameEnd s) eqn:Hend; [reflexivity|].
  specialize (Hbound eq_refl).
  destruct (scan_gameTime tl es (initialGameState csv)) as [_ Heq].
  fold s in Heq. specialize (Heq Hend).
  cbn [initialGameState gameTime initialState] in Heq. lia.
Qed.

Lemma X9_witness :
  gameEnd (scan None (initialGameState levelOnePipe) (hovering 8)) = false
  /\ 3 * gameTime (scan None (initialGameState levelOnePipe) (hovering 8))
     <= 230 + 250 * Z.of_nat (List.length (parsePipeData levelOnePipe)).
Proof.
  assert (H : gameEnd (scan None (initialGameState levelOnePipe) (hovering 8))
              = false) by (vm_compute; reflexivity).
  exact (conj H (proj1 (X9_every_run_ends_by_a_tick_bound
                          None levelOnePipe (hovering 8)) H)).
Defined.

(** ** Ghosts are playback only *)

Lemma erase_physics (s : State) :
  eraseGhosts (physics s) = physics (eraseGhosts s).
Proof.
  destruct s as [ge w b g ps l sc t hc tp dt].
  unfold physics. cbn [gameEnd eraseGhosts]. destruct ge; reflexivity.
Qed.

Lemma erase_flap (s : State) :
  eraseGhosts (playerFlapReducer s) = playerFlapReducer (eraseGhosts s).
Proof.
  destruct s as [ge w b g ps l sc t hc tp dt].
  unfold playerFlapReducer. cbn [gameEnd eraseGhosts]. destruct ge; reflexivity.
Qed.

Lemma erase_reducer (tl : option (list (list Z))) (e : Event) (s : State) :
  eraseGhosts (reducer tl e s)
  = if playerEvent e then reducer None e (eraseGhosts s) else eraseGhosts s.
Proof.
  destruct e; cbn [reducer playerEvent].
  - apply erase_physics.
  - apply erase_flap.
  - unfold ghostReducerPhysics. now destruct (gameEnd s).
  - reflexivity.
Qed.

(** X10: ghosts never act on the game: the state reached by any run
    with ghost ticks and ghost impulses has, in every field but the
    ghost list, the values reached by the same run with the ghost events
    left out; and the player's tick and flap never touch the ghost
    list. *)
Theorem X10_ghost_events_do_not_change_the_game
  (tl : option (list (list Z))) (s : State) (es : list Event) :
  eraseGhosts (scan tl s es)
  = scan None (eraseGhosts s) (filter playerEvent es)
  /\ (forall e, playerEvent e = true -> ghosts (reducer tl e s) = ghosts s).
Proof.
  split.
  - revert s. induction es as [|e es IH]; intros s; [reflexivity|].
    change (scan tl s (e :: es)) with (scan tl (reducer tl e s) es).
    rewrite IH, erase_reducer. cbn [filter].
    destruct (playerEvent e); reflexivity.
  - intros e He. destruct e; try discriminate; cbn [reducer].
    + unfold physics. now destruct (gameEnd s).
    + unfold playerFlapReducer. now destruct (gameEnd s).
Qed.

Lemma X10_witness :
  playerEvent Tick = true
  /\ ghosts (reducer (Some [[5]]) Tick (ghostRun 2)) = ghosts (ghostRun 2).
Proof.
  exact (conj eq_refl
              (proj2 (X10_ghost_events_do_not_change_the_game
                        (Some [[5]]) (ghostRun 2) []) Tick eq_refl)).
Defined.

Lemma length_mapi {A B : Type} (f : A -> nat -> B) (l : list A) :
  forall k, List.length (mapi f k l) = List.length l.
Proof. induction l as [|a l IH]; intros k; cbn; auto. Qed.

Lemma length_setNth {A : Type} (v : A) (l : list A) :
  forall i, List.length (setNth i v l) = List.length l.
Proof.
  induction l as [|a l IH]; intros i; [now destruct i|].
  destruct i; cbn; auto.
Qed.

Lemma length_baseGhosts (tl : option (list (list Z))) (w : Window) (s : State) :
  ghosts s = None \/ List.length (ghostList s) = needed tl ->
  List.length (baseGhosts tl w s) = needed tl.
Proof.
  unfold baseGhosts, ghostList. intros H.
  destruct (ghosts s) as [[|g gs]|].
  - now rewrite length_map, length_seq.
  - destruct H as [H|H]; [discriminate | exact H].
  - now rewrite length_map, length_seq.
Qed.

Lemma reducer_ghostCount (tl : option (list (list Z))) (e : Event) (s : State) :
  ghosts s = None \/ List.length (ghostList s) = needed tl ->
  ghosts (reducer tl e s) = None
  \/ List.length (ghostList (reducer tl e s)) = needed tl.
Proof.
  intros H. destruct e; cbn [reducer].
  - unfold physics. destruct (gameEnd s); auto.
  - unfold playerFlapReducer. destruct (gameEnd s); auto.
  - unfold ghostReducerPhysics. destruct (gameEnd s); [auto|].
    right. cbn [ghostList withGhosts ghosts].
    rewrite length_mapi. now apply length_baseGhosts.
  - right. unfold ghostReducerFlap. cbn [ghostList withGhosts ghosts].
    pose proof (length_baseGhosts tl w s H) as Hb.
    destruct ((idx >=? 0) && (idx <? Z.of_nat (List.length (baseGhosts tl w s))));
      [|exact Hb].
    destruct (negb (sourceRunEnded w s (Z.to_nat idx))); [|exact Hb].
    destruct (nth_error (baseGhosts tl w s) (Z.to_nat idx)); [|exact Hb].
    now rewrite length_setNth.
Qed.

(** X11: in every run from the initial state the ghost list is either
    still absent or has exactly one ghost per recorded run (the length of
    the tick lists read when the run was set up): ghosts are created
    together on the first ghost event and are never added or removed
    later. *)
Theorem X11_one_ghost_per_recorded_run
  (tl : option (list (list Z))) (csv : string) (es : list Event) :
  let s := scan tl (initialGameState csv) es in
  ghosts s = None \/ List.length (ghostList s) = needed tl.
Proof.
  assert (G : forall s0,
             ghosts s0 = None \/ List.length (ghostList s0) = needed tl ->
             ghosts (scan tl s0 es) = None
             \/ List.length (ghostList (scan tl s0 es)) = needed tl).
  { induction es as [|e es IH]; intros s0 H; [exact H|].
    change (scan tl s0 (e :: es)) with (scan tl (reducer tl e s0) es).
    apply IH. now apply reducer_ghostCount. }
  apply G. now left.
Qed.

Lemma baseGhosts_existing (tl : option (list (list Z))) (w : Window) (s : State)
  (i : nat) (g : Ghost.t) :
  nth_error (ghostList s) i = Some g -> baseGhosts tl w s = ghostList s.
Proof.
  unfold baseGhosts, ghostList. destruct (ghosts s) as [[|g0 gs]|]; auto;
    destruct i; discriminate.
Qed.

Lemma ghostFlap_nth (tl : option (list (list Z))) (w : Window) (s : State)
  (idx : Z) (i : nat) (g : Ghost.t) :
  nth_error (baseGhosts tl w s) i = Some g ->
  nth_error (ghostList (ghostReducerFlap tl w idx s)) i
  = Some (if (Z.of_nat i =? idx) && negb (sourceRunEnded w s i)
          then jumped g else g).
Proof.
  intros Hg. unfold ghostReducerFlap. cbn [ghostList withGhosts ghosts].
  assert (Hi : (i < List.length (baseGhosts tl w s))%nat)
    by (apply nth_error_Some; congruence).
  destruct (Z.eqb_spec (Z.of_nat i) idx) as [<-|Hne]; cbn [andb].
  - rewrite Nat2Z.id.
    replace ((Z.of_nat i >=? 0)
             && (Z.of_nat i <? Z.of_nat (List.length (baseGhosts tl w s))))
      with true
      by (symmetry; apply andb_true_iff; split;
          [apply Z.geb_le | apply Z.ltb_lt]; lia).
    destruct (sourceRunEnded w s i); cbn [negb]; [exact Hg|].
    rewrite Hg, nth_error_setNth, Nat.eqb_refl by exact Hi. reflexivity.
  - destruct ((idx >=? 0)
              && (idx <? Z.of_nat (List.length (baseGhosts tl w s)))) eqn:R;
      [|exact Hg].
    apply andb_true_iff in R. destruct R as [R1 R2].
    apply Z.geb_le in R1. apply Z.ltb_lt in R2.
    destruct (sourceRunEnded w s (Z.to_nat idx)); cbn [negb]; [exact Hg|].
    destruct (nth_error (baseGhosts tl w s) (Z.to_nat idx)) as [g0|] eqn:G0;
      [|exact Hg].
    rewrite nth_error_setNth by lia.
    destruct (Nat.eqb_spec (Z.to_nat idx) i) as [E|_]; [lia | exact Hg].
Qed.

Lemma finished_dead (g : Ghost.t) : Ghost.dead g = Some true -> finished g = g.
Proof. destruct g as [x y v d]. cbn. now intros ->. Qed.

Lemma reducer_finished_ghost (tl : option (list (list Z))) (e : Event)
  (s : State) (i : nat) (g : Ghost.t) (endTick : Z) :
  nth_error (ghostList s) i = Some g ->
  Ghost.dead g = Some true ->
  endTick <= gameTime s ->
  seesEndTick i endTick e ->
  nth_error (ghostList (reducer tl e s)) i = Some g
  /\ endTick <= gameTime (reducer tl e s).
Proof.
  intros Hg Hd Ht He. split.
  - destruct e; cbn [reducer seesEndTick] in *.
    + unfold physics. now destruct (gameEnd s).
    + unfold playerFlapReducer. now destruct (gameEnd s).
    + assert (Hended : sourceRunEnded w s i = true)
        by (unfold sourceRunEnded; rewrite He; apply Z.geb_le; lia).
      unfold ghostReducerPhysics. destruct (gameEnd s); [exact Hg|].
      cbn [ghostList withGhosts ghosts].
      rewrite nth_error_mapi, (baseGhosts_existing tl w s i g Hg), Hg.
      cbn [option_map Nat.add]. unfold advanceGhost. rewrite Hended.
      f_equal. now apply finished_dead.
    + assert (Hended : sourceRunEnded w s i = true)
        by (unfold sourceRunEnded; rewrite He; apply Z.geb_le; lia).
      rewrite (ghostFlap_nth tl w s idx i g), Hended, andb_false_r;
        [reflexivity|].
      now rewrite (baseGhosts_existing tl w s i g Hg).
  - rewrite reducer_gameTime. destruct e; try lia. destruct (gameEnd s); lia.
Qed.

(** X12: a finished ghost stays as it is: once ghost i is marked dead and
    the tick count has reached the end tick that the ghost events read
    for it, no later event of the run moves it, changes its velocity or
    clears the mark, ghost impulses included. *)
Theorem X12_finished_ghost_is_never_moved_again
  (tl : option (list (list Z))) (i : nat) (endTick : Z) (es : list Event) :
  forall (s : State) (g : Ghost.t),
    nth_error (ghostList s) i = Some g ->
    Ghost.dead g = Some true ->
    endTick <= gameTime s ->
    Forall (seesEndTick i endTick) es ->
    nth_error (ghostList (scan tl s es)) i = Some g.
Proof.
  induction es as [|e es IH]; intros s g Hg Hd Ht Hes; [exact Hg|].
  change (scan tl s (e :: es)) with (scan tl (reducer tl e s) es).
  inversion Hes as [|? ? He Hes']; subst.
  destruct (reducer_finished_ghost tl e s i g endTick Hg Hd Ht He) as [H1 H2].
  now apply IH.
Qed.

Lemma baseGhosts_fresh (tl : option (list (list Z))) (w : Window) (s : State) :
  __allRunStartYs w = None ->
  ghostList s = [] ->
  baseGhosts tl w s = repeat (freshGhost s) (needed tl).
Proof.
  intros Hw Hs. unfold baseGhosts.
  assert (E : map (fun i : nat =>
                     {| Ghost.x := Bird.x (bird s);
                        Ghost.y := match optNth (__allRunStartYs w) i with
                                   | Some y0 => y0
                                   | None => (Viewport.CANVAS_HEIGHT / two)%num
                                   end;
                        Ghost.velocity := ofZ 0;
                        Ghost.dead := None |})
                  (seq 0 (needed tl))
              = repeat (freshGhost s) (needed tl)).
  { rewrite Hw. cbn [optNth]. generalize 0%nat.
    induction (needed tl) as [|n IH]; intros k; [reflexivity|].
    cbn [seq map repeat]. rewrite IH. reflexivity. }
  unfold ghostList in Hs. destruct (ghosts s) as [[|g gs]|]; auto; discriminate.
Qed.

Lemma applyWrite_startY (w : Window) (op : WindowWrite) :
  __currentRunStartY (applyWrite w op) = __currentRunStartY w
  /\ (__currentRunStartY w = None ->
      __allRunStartYs (applyWrite w op) = __allRunStartYs w).
Proof.
  destruct op as [arr|s|i t]; cbn [applyWrite].
  - unfold Replay.record. cbn. split; [reflexivity|]. now intros ->.
  - unfold physicsWindow. destruct (negb (gameEnd s) && gameEnd (physics s));
      cbn; auto.
  - cbn. auto.
Qed.

(** X13: no write to the globals ever records a start height: from the
    empty [window], after any sequence of recorded runs, ticks and pushes
    onto stored arrays, the start-height array is still absent.  So every ghost created for a
    state without ghosts starts at the bird's horizontal position, at
    mid-screen height 200 (where the bird itself starts), at rest and
    unmarked, one per recorded run. *)
Theorem X13_ghosts_start_at_mid_screen
  (ops : list WindowWrite) (tl : option (list (list Z))) (s : State) :
  let w := fold_left applyWrite ops emptyWindow in
  __allRunStartYs w = None
  /\ (ghostList s = [] ->
      baseGhosts tl w s = repeat (freshGhost s) (needed tl)).
Proof.
  intros w.
  assert (G : forall w0, __currentRunStartY w0 = None ->
                         __allRunStartYs w0 = None ->
                         __allRunStartYs (fold_left applyWrite ops w0) = None).
  { induction ops as [|op ops IH]; intros w0 H1 H2; [exact H2|].
    cbn [fold_left]. destruct (applyWrite_startY w0 op) as [E1 E2].
    apply IH; [congruence | rewrite E2; auto]. }
  assert (Hw : __allRunStartYs w = None) by (apply G; reflexivity).
  split; [exact Hw|]. intros Hs. now apply baseGhosts_fresh.
Qed.

Lemma X13_witness :
  ghostList (falling 3) = []
  /\ baseGhosts (Some [[5]])
                (fold_left applyWrite
                           [Ticked (firstRun 97); Recorded [5]] emptyWindow)
                (falling 3)
     = repeat (freshGhost (falling 3)) (needed (Some [[5]])).
Proof.
  assert (H : ghostList (falling 3) = []) by (vm_compute; reflexivity).
  exact (conj H (proj2 (X13_ghosts_start_at_mid_screen
                          [Ticked (firstRun 97); Recorded [5]]
                          (Some [[5]]) (falling 3)) H)).
Defined.

Lemma X12_witness :
  nth_error (ghostList hoveringWithGhost) 0 = Some ghostDone
  /\ Ghost.dead ghostDone = Some true
  /\ 103 <= gameTime hoveringWithGhost
  /\ nth_error (ghostList (scan (Some [[5]]) hoveringWithGhost
                                [Tick; GhostTick ledgerAfterFirstRun;
                                 GhostFlap ledgerAfterFirstRun 0])) 0
     = Some ghostDone.
Proof.
  assert (H1 : nth_error (ghostList hoveringWithGhost) 0 = Some ghostDone)
    by (vm_compute; reflexivity).
  assert (H2 : 103 <= gameTime hoveringWithGhost) by (vm_compute; discriminate).
  assert (H3 : Forall (seesEndTick 0 103)
                      [Tick; GhostTick ledgerAfterFirstRun;
                       GhostFlap ledgerAfterFirstRun 0])
    by (repeat constructor; vm_compute; reflexivity).
  exact (conj H1 (conj eq_refl (conj H2
           (X12_finished_ghost_is_never_moved_again
              (Some [[5]]) 0%nat 103 _ hoveringWithGhost ghostDone
              H1 eq_refl H2 H3)))).
Defined.

(** ** The ledger of recorded runs *)

Lemma forallb_mapi_nth {A : Type} (f : A -> nat -> bool) (l : list A) :
  forallb (fun b : bool => b) (mapi f 0 l) = true
  <-> forall i a, nth_error l i = Some a -> f a i = true.
Proof.
  rewrite forallb_forall. split.
  - intros H i a Ha. apply H.
    apply (nth_error_In _ i). now rewrite nth_error_mapi, Ha.
  - intros H b Hb. apply In_nth_error in Hb. destruct Hb as (i & Hi).
    rewrite nth_error_mapi in Hi. cbn [Nat.add] in Hi.
    destruct (nth_error l i) as [a|] eqn:Ha; [|discriminate].
    cbn in Hi. injection Hi as <-. now apply H.
Qed.

Lemma sameTicks_eq (arr old : list Z) : sameTicks arr old = true -> old = arr.
Proof.
  unfold sameTicks. intros H. apply andb_true_iff in H. destruct H as [Hlen Hall].
  apply Nat.eqb_eq in Hlen.
  pose proof (proj1 (forallb_mapi_nth _ old) Hall) as Hnth. cbv beta in Hnth.
  apply nth_error_ext. intros i.
  destruct (nth_error old i) as [v|] eqn:Ho.
  - specialize (Hnth i v Ho).
    destruct (nth_error arr i) as [a|]; [|discriminate].
    apply Z.eqb_eq in Hnth. now subst.
  - apply nth_error_None in Ho. symmetry. apply nth_error_None. lia.
Qed.

Lemma existsb_sameTicks (arr : list Z) (l : list (list Z)) :
  existsb (sameTicks arr) l = true <-> In arr l.
Proof.
  rewrite existsb_exists. split.
  - intros (old & Hin & Hs). apply sameTicks_eq in Hs. now subst.
  - intros Hin. exists arr. split; [exact Hin | apply sameTicks_refl].
Qed.

(** X14: the duplicate test of the subscriber is exact: it holds for a
    recorded tick list and the current one if and only if the two lists
    are equal, same length and same tick at every index; so a run is
    taken for recorded exactly when its tick list is in the ledger. *)
Theorem X14_duplicate_test_is_list_equality
  (arr old : list Z) (l : list (list Z)) :
  (sameTicks arr old = true <-> old = arr)
  /\ (existsb (sameTicks arr) l = true <-> In arr l).
Proof.
  split; [|apply existsb_sameTicks].
  split; [apply sameTicks_eq|].
  intros ->. apply sameTicks_refl.
Qed.

Lemma optNth_pushOnto {A : Type} (xs : option (list A)) (v x : A) (i : nat) :
  optNth xs i = Some x -> optNth (Some (pushOnto xs v)) i = Some x.
Proof.
  destruct xs as [l|]; cbn; [|discriminate].
  intros H. rewrite nth_error_app1; [exact H|].
  apply nth_error_Some. congruence.
Qed.

Lemma record_ticks (arr : list Z) (w : Window) :
  __allRunFlapTicksArrays (record arr w)
  = match __allRunFlapTicksArrays w with
    | Some l => if existsb (sameTicks arr) l then Some l else Some (l ++ [arr])
    | None => Some [arr]
    end.
Proof.
  unfold record. cbn [__allRunFlapTicksArrays].
  destruct (__allRunFlapTicksArrays w) as [l|]; [|reflexivity].
  now destruct (existsb (sameTicks arr) l).
Qed.

Lemma record_present (arr : list Z) (w : Window) :
  exists l, __allRunFlapTicksArrays (record arr w) = Some l /\ In arr l.
Proof.
  rewrite record_ticks. destruct (__allRunFlapTicksArrays w) as [l|].
  - destruct (existsb (sameTicks arr) l) eqn:E.
    + exists l. split; [reflexivity | now apply existsb_sameTicks].
    + exists (l ++ [arr]). split; [reflexivity|].
      apply in_or_app. right. now left.
  - exists [arr]. split; [reflexivity | now left].
Qed.

(** X15: after a run is recorded its tick list is in the ledger, and
    recording never disturbs what was there: every entry of the tick
    lists, of the start heights and of the end ticks keeps its index and
    its value, so the ledger only grows at the end. *)
Theorem X15_record_adds_at_the_end_and_keeps_entries
  (arr : list Z) (w : Window) :
  (exists l, __allRunFlapTicksArrays (record arr w) = Some l /\ In arr l)
  /\ (forall i x, optNth (__allRunFlapTicksArrays w) i = Some x ->
                  optNth (__allRunFlapTicksArrays (record arr w)) i = Some x)
  /\ (forall i x, optNth (__allRunStartYs w) i = Some x ->
                  optNth (__allRunStartYs (record arr w)) i = Some x)
  /\ (forall i x, optNth (__allRunEndTicks w) i = Some x ->
                  optNth (__allRunEndTicks (record arr w)) i = Some x).
Proof.
  repeat split.
  - apply record_present.
  - intros i x H. rewrite record_ticks.
    destruct (__allRunFlapTicksArrays w) as [l|]; [|discriminate].
    destruct (existsb (sameTicks arr) l); [exact H|].
    now apply (optNth_pushOnto (Some l) arr).
  - intros i x H. unfold record. cbn [__allRunStartYs].
    destruct (__currentRunStartY w); [now apply optNth_pushOnto | exact H].
  - intros i x H. unfold record. cbn [__allRunEndTicks].
    destruct (__lastGameEndTick w); [now apply optNth_pushOnto | exact H].
Qed.

Lemma X15_witness :
  optNth (__allRunEndTicks ledgerAfterFirstRun) 0 = Some 103
  /\ optNth (__allRunEndTicks (record [7] ledgerAfterFirstRun)) 0 = Some 103.
Proof.
  assert (H : optNth (__allRunEndTicks ledgerAfterFirstRun) 0 = Some 103)
    by (vm_compute; reflexivity).
  exact (conj H (proj2 (proj2 (proj2
           (X15_record_adds_at_the_end_and_keeps_entries [7] ledgerAfterFirstRun)))
           0%nat 103 H)).
Defined.

(** *** The ledger over a whole session *)

Lemma content_pushAll (h : list Session.TicksSub) (r : nat) :
  Session.content (Session.pushAll h) r
  = match nth_error h r with
    | Some a => Session.ticksSub a ++ [Session.tickIndex a]
    | None => []
    end.
Proof.
  unfold Session.content, Session.pushAll. rewrite nth_error_map.
  now destruct (nth_error h r).
Qed.

Lemma length_content_pushAll (h : list Session.TicksSub) (r : nat) :
  (r < List.length h)%nat ->
  List.length (Session.content (Session.pushAll h) r)
  = (1 + List.length (Session.content h r))%nat.
Proof.
  intros Hr. rewrite content_pushAll. unfold Session.content.
  destruct (nth_error h r) as [a|] eqn:E.
  - rewrite length_app. cbn. lia.
  - apply nth_error_None in E. lia.
Qed.

Lemma content_elapse (j : nat) (h : list Session.TicksSub) :
  forall r, Session.content (Session.elapse j h) r = Session.content h r.
Proof.
  revert j. induction h as [|a h IH]; intros j r; [now destruct j|].
  destruct j as [|j]; cbn [Session.elapse].
  - now destruct r.
  - destruct r as [|r]; [reflexivity|]. apply (IH j r).
Qed.

Lemma length_elapse (j : nat) (h : list Session.TicksSub) :
  List.length (Session.elapse j h) = List.length h.
Proof.
  revert j. induction h as [|a h IH]; intros j; [now destruct j|].
  destruct j as [|j]; cbn [Session.elapse List.length]; [reflexivity|].
  now rewrite IH.
Qed.

Lemma content_new (h : list Session.TicksSub) (i : Z) (r : nat) :
  Session.content (h ++ [{| Session.tickIndex := i; Session.ticksSub := [] |}]) r
  = Session.content h r.
Proof.
  unfold Session.content. destruct (Nat.lt_ge_cases r (List.length h)) as [H|H].
  - now rewrite nth_error_app1.
  - rewrite nth_error_app2 by exact H.
    assert (E : nth_error h r = None) by now apply nth_error_None.
    rewrite E. destruct (r - List.length h)%nat as [|[|k]]; reflexivity.
Qed.

Lemma sameTicks_length (arr old : list Z) :
  List.length old <> List.length arr -> sameTicks arr old = false.
Proof.
  intros H. unfold sameTicks.
  apply Nat.eqb_neq in H. now rewrite H.
Qed.

(** the subscriber, called when every stored array is longer than [arr] *)
Lemma record_fresh (c : nat) (P : Session.Program) (t : Z) :
  (forall old, In old (Session.stored P) ->
               (List.length (Session.content (Session.heap P) c)
                < List.length (Session.content (Session.heap P) old))%nat) ->
  Session.__lastGameEndTick P = Some t ->
  Session.stored (Session.record c P) = Session.stored P ++ [c]
  /\ Session.__allRunEndTicks (Session.record c P)
     = Some (pushOnto (Session.__allRunEndTicks P) t).
Proof.
  intros Hlen Ht. unfold Session.stored, Session.record in *.
  cbn [Session.__allRunFlapTicksArrays Session.__allRunEndTicks].
  rewrite Ht. split; [|reflexivity].
  destruct (Session.__allRunFlapTicksArrays P) as [l|]; [|reflexivity].
  assert (E : existsb (fun old => sameTicks (Session.content (Session.heap P) c)
                                            (Session.content (Session.heap P) old)) l
              = false).
  { apply not_true_is_false. intros H. apply existsb_exists in H.
    destruct H as (old & Hin & Hs).
    rewrite sameTicks_length in Hs; [discriminate|].
    specialize (Hlen old Hin). lia. }
  rewrite E. reflexivity.
Qed.

Lemma emit_ledgerInv (P : Session.Program) : ledgerInv P -> Session.emit P = P.
Proof.
  intros I. unfold Session.emit. destruct (Session.run P) as [r|] eqn:Hr; [|reflexivity].
  destruct (li_current P I r Hr) as (c & _ & _ & Hc).
  destruct (Session.taken r); [now rewrite andb_false_r|].
  destruct (Hc eq_refl) as [-> _]. reflexivity.
Qed.

Lemma NoDup_map_add (k : nat) (l : list nat) :
  NoDup l -> NoDup (map (fun n => (k + n)%nat) l).
Proof.
  induction 1 as [|a l Hn Hd IH]; cbn; constructor; auto.
  intros Hin. apply in_map_iff in Hin. destruct Hin as (b & Hb & Hin).
  assert (b = a) by lia. now subst.
Qed.

(** a change of the heap that lengthens every array by [k] ticks *)
Lemma heap_ledgerInv (P : Session.Program) (h' : list Session.TicksSub) (k : nat) :
  ledgerInv P ->
  List.length h' = List.length (Session.heap P) ->
  (forall r, (r < List.length (Session.heap P))%nat ->
             List.length (Session.content h' r)
             = (k + List.length (Session.content (Session.heap P) r))%nat) ->
  ledgerInv (Session.setHeap P h').
Proof.
  intros I Hlen Hcont.
  assert (Hst : Session.stored (Session.setHeap P h') = Session.stored P)
    by reflexivity.
  constructor; rewrite ?Hst; cbn [Session.heap Session.setHeap Session.run
                                  Session.__allRunEndTicks
                                  Session.__currentRunFlapTicksArray].
  - intros r Hr. rewrite Hlen. now apply (li_valid P I).
  - intros r Hr. rewrite Hcont by now apply (li_valid P I).
    pose proof (li_flaps P I r Hr). lia.
  - rewrite (map_ext_in _ (fun r => (k + List.length
                                          (Session.content (Session.heap P) r))%nat)).
    + rewrite <- (map_map (fun r => List.length (Session.content (Session.heap P) r))
                          (fun n => (k + n)%nat)).
      apply NoDup_map_add. apply (li_distinct P I).
    + intros r Hr. apply Hcont. now apply (li_valid P I).
  - apply (li_aligned P I).
  - intros r Hr. destruct (li_current P I r Hr) as (c & Hc & Hv & Hrest).
    exists c. split; [exact Hc|]. split; [now rewrite Hlen|].
    intros Ht. destruct (Hrest Ht) as [Hend Hold]. split; [exact Hend|].
    intros old Hin. rewrite !Hcont; [|now apply (li_valid P I)|exact Hv].
    specialize (Hold old Hin). lia.
Qed.

(** a reducer that leaves [gameEnd] alone *)
Lemma state_ledgerInv (P : Session.Program) (r : Session.Run) (s : State) :
  ledgerInv P -> Session.run P = Some r ->
  gameEnd s = gameEnd (Session.state r) ->
  ledgerInv (Session.setRun P (Session.withState r s)).
Proof.
  intros I Hr Hs.
  assert (Hst : Session.stored (Session.setRun P (Session.withState r s))
                = Session.stored P) by reflexivity.
  constructor; rewrite ?Hst; cbn [Session.heap Session.setRun Session.run
                                  Session.__allRunEndTicks
                                  Session.__currentRunFlapTicksArray].
  - apply (li_valid P I).
  - apply (li_flaps P I).
  - apply (li_distinct P I).
  - apply (li_aligned P I).
  - intros r' Hr'. injection Hr' as <-.
    destruct (li_current P I r Hr) as (c & Hc & Hv & Hrest).
    exists c. split; [exact Hc|]. split; [exact Hv|].
    cbn [Session.withState Session.taken Session.state]. rewrite Hs. exact Hrest.
Qed.

Lemma ghostReducerPhysics_gameEnd (tl : option (list (list Z))) (w : Window)
  (s : State) : gameEnd (ghostReducerPhysics tl w s) = gameEnd s.
Proof. unfold ghostReducerPhysics. now destruct (gameEnd s) eqn:E. Qed.

Lemma playerFlapReducer_gameEnd (s : State) :
  gameEnd (playerFlapReducer s) = gameEnd s.
Proof. unfold playerFlapReducer. now destruct (gameEnd s) eqn:E. Qed.

(** the tick of [physics$] that ends a run whose array holds a tick *)
Lemma physics_records (P : Session.Program) (r : Session.Run) (c : nat) :
  ledgerInv P -> Session.run P = Some r -> Session.taken r = false ->
  Session.__currentRunFlapTicksArray P = Some c ->
  gameEnd (physics (Session.state r)) = true ->
  Session.content (Session.heap P) c <> [] ->
  let P' := Session.emit (Session.physicsFired P r) in
  Session.stored P' = Session.stored P ++ [c]
  /\ Session.__allRunEndTicks P'
     = Some (pushOnto (Session.__allRunEndTicks P)
                      (gameTime (physics (Session.state r))))
  /\ Session.heap P' = Session.heap P
  /\ Session.__currentRunFlapTicksArray P' = Some c
  /\ Session.run P' = Some {| Session.allTickLists := Session.allTickLists r;
                              Session.state := physics (Session.state r);
                              Session.taken := true |}.
Proof.
  intros I Hr Ht Hc Hend Hne P'.
  destruct (li_current P I r Hr) as (c' & Hc' & Hv & Hrest).
  assert (c' = c) by congruence. subst c'.
  destruct (Hrest Ht) as [Hrun Hold].
  subst P'. unfold Session.emit, Session.physicsFired.
  cbn [Session.run Session.withState Session.state Session.taken
       Session.allTickLists Session.setRun Session.__currentRunFlapTicksArray
       Session.heap].
  rewrite Hend, Ht, Hrun, Hc. cbn [negb andb].
  assert (Hrec : recordable (Session.content (Session.heap P) c) = true).
  { unfold recordable. apply Nat.ltb_lt.
    destruct (Session.content (Session.heap P) c); [congruence|cbn; lia]. }
  rewrite Hrec.
  match goal with
  | |- context [Session.record c ?Q] =>
      destruct (record_fresh c Q (gameTime (physics (Session.state r))))
        as [E1 E2]; [exact Hold | reflexivity |]
  end.
  rewrite E1, E2. repeat split.
Qed.

Lemma step_ledgerInv (csvContents : string) (P : Session.Program)
  (i : Session.Input) :
  ledgerInv P -> ledgerInv (Session.step csvContents P i).
Proof.
  intros I. destruct i as [| |j| | |idx]; cbn [Session.step].
  - (* Click *)
    assert (Hst : forall X Y Z0,
               Session.stored
                 {| Session.heap := X;
                    Session.__allRunFlapTicksArrays := Session.__allRunFlapTicksArrays P;
                    Session.__allRunStartYs := Session.__allRunStartYs P;
                    Session.__allRunEndTicks := Session.__allRunEndTicks P;
                    Session.__currentRunStartY := Session.__currentRunStartY P;
                    Session.__lastGameEndTick := Session.__lastGameEndTick P;
                    Session.__currentRunFlapTicksArray := Y;
                    Session.run := Z0 |} = Session.stored P) by reflexivity.
    constructor; rewrite ?Hst; cbn [Session.heap Session.run
                                    Session.__allRunEndTicks
                                    Session.__currentRunFlapTicksArray].
    + intros r Hr. rewrite length_app. cbn. pose proof (li_valid P I r Hr). lia.
    + intros r Hr. rewrite content_new. now apply (li_flaps P I).
    + rewrite (map_ext _ (fun r => List.length (Session.content (Session.heap P) r))).
      * apply (li_distinct P I).
      * intros r. now rewrite content_new.
    + apply (li_aligned P I).
    + intros r Hr. injection Hr as <-.
      exists (List.length (Session.heap P)). split; [reflexivity|].
      split; [rewrite length_app; cbn; lia|].
      intros _. cbn [Session.state]. split; [reflexivity|].
      intros old Hin. rewrite !content_new.
      pose proof (li_flaps P I old Hin) as H1.
      unfold Session.content at 1.
      assert (E : nth_error (Session.heap P) (List.length (Session.heap P)) = None)
        by (apply nth_error_None; lia).
      rewrite E. cbn. lia.
  - (* Space *)
    assert (I1 : ledgerInv (Session.setHeap P (Session.pushAll (Session.heap P)))).
    { apply (heap_ledgerInv P _ 1%nat I).
      - unfold Session.pushAll. apply length_map.
      - intros r Hr. now apply length_content_pushAll. }
    cbn [Session.run Session.setHeap].
    destruct (Session.run P) as [r|] eqn:Hr; [|exact I1].
    assert (I2 : ledgerInv (Session.setRun
                              (Session.setHeap P (Session.pushAll (Session.heap P)))
                              (Session.withState r (playerFlapReducer (Session.state r))))).
    { apply state_ledgerInv; [exact I1 | exact Hr | apply playerFlapReducer_gameEnd]. }
    now rewrite emit_ledgerInv.
  - (* IndexTimer *)
    apply (heap_ledgerInv P _ 0%nat I).
    + apply length_elapse.
    + intros r _. now rewrite content_elapse.
  - (* PhysicsTimer *)
    destruct (Session.run P) as [r|] eqn:Hr; [|exact I].
    destruct (li_current P I r Hr) as (c & Hc & Hv & Hrest).
    destruct (gameEnd (physics (Session.state r)) && negb (Session.taken r)) eqn:Hcond.
    + apply andb_true_iff in Hcond. destruct Hcond as [Hend Ht].
      apply negb_true_iff in Ht.
      destruct (Hrest Ht) as [Hrun Hold].
      destruct (Session.content (Session.heap P) c) as [|t0 l0] eqn:Hcont.
      * (* nothing to record: only [take(1)] is used up *)
        assert (E : Session.emit (Session.physicsFired P r)
                    = Session.setRun (Session.physicsFired P r)
                        {| Session.allTickLists := Session.allTickLists r;
                           Session.state := physics (Session.state r);
                           Session.taken := true |}).
        { unfold Session.emit.
          cbn [Session.physicsFired Session.run Session.withState Session.state
               Session.taken Session.allTickLists Session.setRun
               Session.__currentRunFlapTicksArray Session.heap].
          now rewrite Hend, Ht, Hc, Hcont. }
        rewrite E.
        constructor;
          [apply (li_valid P I) | apply (li_flaps P I) | apply (li_distinct P I)
           | apply (li_aligned P I) |].
        intros r' Hr'. injection Hr' as <-. exists c.
        split; [exact Hc|]. split; [exact Hv|]. cbn. discriminate.
      * assert (Hne : Session.content (Session.heap P) c <> [])
          by (rewrite Hcont; discriminate).
        destruct (physics_records P r c I Hr Ht Hc Hend Hne)
          as (E1 & E2 & E3 & E4 & E5).
        cbv zeta in E1, E2, E3, E4, E5.
        constructor; rewrite ?E1, ?E2, ?E3, ?E4, ?E5.
        -- intros r' Hin. apply in_app_or in Hin.
           destruct Hin as [Hin|[<-|[]]]; [now apply (li_valid P I)|exact Hv].
        -- intros r' Hin. apply in_app_or in Hin.
           destruct Hin as [Hin|[<-|[]]]; [now apply (li_flaps P I)|].
           rewrite Hcont. cbn. lia.
        -- rewrite map_app. cbn [map].
           apply NoDup_app;
             [apply (li_distinct P I) | repeat constructor; intros [] |].
           intros a Ha. apply in_map_iff in Ha.
           destruct Ha as (old & <- & Hin). specialize (Hold old Hin).
           rewrite Hcont in *. intros [Heq|[]]. lia.
        -- rewrite length_app. cbn [List.length]. rewrite (li_aligned P I).
           unfold entries, pushOnto.
           destruct (Session.__allRunEndTicks P); [rewrite length_app|]; cbn; lia.
        -- intros r' Hr'. injection Hr' as <-. exists c.
           split; [reflexivity|]. split; [exact Hv|]. cbn. discriminate.
    + assert (E : Session.emit (Session.physicsFired P r) = Session.physicsFired P r).
      { unfold Session.emit, Session.physicsFired.
        cbn [Session.run Session.withState Session.state Session.taken].
        now rewrite Hcond. }
      rewrite E.
      constructor;
        [apply (li_valid P I) | apply (li_flaps P I) | apply (li_distinct P I)
         | apply (li_aligned P I) |].
      intros r' Hr'. injection Hr' as <-. exists c.
      split; [exact Hc|]. split; [exact Hv|].
      cbn [Session.withState Session.taken Session.state]. intros Ht.
      rewrite Ht in Hcond. rewrite andb_true_r in Hcond.
      split; [exact Hcond|]. apply (proj2 (Hrest Ht)).
  - (* GhostTimer *)
    destruct (Session.run P) as [r|] eqn:Hr; [|exact I].
    destruct (Session.hasGhost r); [|exact I].
    match goal with
    | |- ledgerInv (Session.emit ?Q) =>
        assert (I2 : ledgerInv Q)
          by (apply state_ledgerInv;
              [exact I | exact Hr | apply ghostReducerPhysics_gameEnd]);
        now rewrite emit_ledgerInv
    end.
  - (* GhostImpulse *)
    destruct (Session.run P) as [r|] eqn:Hr; [|exact I].
    destruct (Session.hasGhost r); [|exact I].
    match goal with
    | |- ledgerInv (Session.emit ?Q) =>
        assert (I2 : ledgerInv Q)
          by (apply state_ledgerInv; [exact I | exact Hr | reflexivity]);
        now rewrite emit_ledgerInv
    end.
Qed.

Lemma loaded_ledgerInv : ledgerInv Session.loaded.
Proof.
  constructor; cbn.
  - intros r [].
  - intros r [].
  - constructor.
  - reflexivity.
  - discriminate.
Qed.

Lemma play_ledgerInv (csvContents : string) (ins : list Session.Input) :
  ledgerInv (Session.play csvContents ins).
Proof.
  unfold Session.play.
  assert (G : forall P, ledgerInv P ->
                        ledgerInv (fold_left (Session.step csvContents) ins P)).
  { induction ins as [|i ins IH]; intros P I; [exact I|].
    cbn [fold_left]. apply IH. now apply step_ledgerInv. }
  apply G, loaded_ledgerInv.
Qed.

Lemma NoDup_of_lengths {A : Type} (l : list (list A)) :
  NoDup (map (@List.length A) l) -> NoDup l.
Proof. apply NoDup_map_inv. Qed.

(** X16: in a session the duplicate test of the subscriber never
    succeeds.  After any inputs (clicks, Space keys, timers in any
    order) the ledger holds one end tick for each tick list, the stored
    tick lists are pairwise different and none is empty; and for a run
    whose end is still to come, no stored list equals the ticks of its
    array, because every stored array has since received the Space keys
    of the later runs as well.  So the tick of [physics$] that ends a run
    with at least one Space key always appends its array and its end
    tick, also when an earlier run was played with the same keys at the
    same ticks. *)
Theorem X16_duplicate_test_never_succeeds_in_a_session
  (csvContents : string) (ins : list Session.Input) :
  let P := Session.play csvContents ins in
  List.length (Session.tickLists P) = entries (Session.__allRunEndTicks P)
  /\ NoDup (Session.tickLists P)
  /\ (forall l, In l (Session.tickLists P) -> l <> [])
  /\ (forall r c,
        Session.run P = Some r -> Session.taken r = false ->
        Session.__currentRunFlapTicksArray P = Some c ->
        existsb (sameTicks (Session.content (Session.heap P) c))
                (Session.tickLists P) = false
        /\ (gameEnd (physics (Session.state r)) = true ->
            Session.content (Session.heap P) c <> [] ->
            let P' := Session.step csvContents P Session.PhysicsTimer in
            Session.tickLists P'
            = Session.tickLists P ++ [Session.content (Session.heap P) c]
            /\ Session.__allRunEndTicks P'
               = Some (pushOnto (Session.__allRunEndTicks P)
                                (gameTime (physics (Session.state r)))))).
Proof.
  intros P. pose proof (play_ledgerInv csvContents ins) as I. fold P in I.
  split; [|split; [|split]].
  - unfold Session.tickLists. rewrite length_map. apply (li_aligned P I).
  - apply NoDup_of_lengths. unfold Session.tickLists. rewrite map_map.
    apply (li_distinct P I).
  - intros l Hl. unfold Session.tickLists in Hl. apply in_map_iff in Hl.
    destruct Hl as (r & <- & Hr). pose proof (li_flaps P I r Hr) as H.
    destruct (Session.content (Session.heap P) r); [cbn in H; lia | discriminate].
  - intros r c Hr Ht Hc.
    destruct (li_current P I r Hr) as (c' & Hc' & Hv & Hrest).
    assert (c' = c) by congruence. subst c'.
    destruct (Hrest Ht) as [Hrun Hold]. split.
    + apply not_true_is_false. intros H. apply existsb_exists in H.
      destruct H as (old & Hin & Hs). unfold Session.tickLists in Hin.
      apply in_map_iff in Hin. destruct Hin as (o & <- & Hin).
      rewrite sameTicks_length in Hs; [discriminate|].
      specialize (Hold o Hin). lia.
    + intros Hend Hne P'. subst P'. cbn [Session.step]. rewrite Hr.
      destruct (physics_records P r c I Hr Ht Hc Hend Hne)
        as (E1 & E2 & E3 & _).
      cbv zeta in E1, E2, E3. unfold Session.tickLists.
      rewrite E1, E2, E3, map_app. split; reflexivity.
Qed.

Lemma X16_witness :
  Session.run (Session.play levelOnePipe
                 (firstSession 98 ++ secondSession 97
                  ++ [Session.IndexTimer 0; Session.IndexTimer 1]))
  = Some secondRunBeforeEnd
  /\ Session.tickLists
       (Session.play levelOnePipe (firstSession 98 ++ secondSession 97 ++ lastPeriod))
     = [[5; 108]; [5]].
Proof.
  assert (H1 : Session.run (Session.play levelOnePipe
                              (firstSession 98 ++ secondSession 97
                               ++ [Session.IndexTimer 0; Session.IndexTimer 1]))
               = Some secondRunBeforeEnd) by (vm_compute; reflexivity).
  split; [exact H1|].
  assert (H2 : Session.__currentRunFlapTicksArray
                 (Session.play levelOnePipe
                    (firstSession 98 ++ secondSession 97
                     ++ [Session.IndexTimer 0; Session.IndexTimer 1]))
               = Some 1%nat) by (vm_compute; reflexivity).
  assert (H3 : gameEnd (physics (Session.state secondRunBeforeEnd)) = true)
    by (vm_compute; reflexivity).
  assert (H4 : Session.content
                 (Session.heap (Session.play levelOnePipe
                    (firstSession 98 ++ secondSession 97
                     ++ [Session.IndexTimer 0; Session.IndexTimer 1]))) 1 <> [])
    by (vm_compute; discriminate).
  pose proof (proj2 (proj2 (proj2
                (X16_duplicate_test_never_succeeds_in_a_session
                   levelOnePipe
                   (firstSession 98 ++ secondSession 97
                    ++ [Session.IndexTimer 0; Session.IndexTimer 1]))))) as D.
  cbv zeta in D.
  pose proof (proj1 (proj2 (D secondRunBeforeEnd 1%nat H1 eq_refl H2) H3 H4)) as H.
  assert (E : Session.play levelOnePipe
                (firstSession 98 ++ secondSession 97 ++ lastPeriod)
              = Session.step levelOnePipe
                  (Session.play levelOnePipe
                     (firstSession 98 ++ secondSession 97
                      ++ [Session.IndexTimer 0; Session.IndexTimer 1]))
                  Session.PhysicsTimer).
  { unfold Session.play, lastPeriod.
    change [Session.IndexTimer 0; Session.IndexTimer 1; Session.PhysicsTimer]
      with ([Session.IndexTimer 0; Session.IndexTimer 1] ++ [Session.PhysicsTimer]).
    rewrite !app_assoc. rewrite (fold_left_app _ _ [Session.PhysicsTimer]).
    reflexivity. }
  rewrite E, H. vm_compute. reflexivity.
Defined.

(** *** Every window of a session is reached by the three writes *)

Lemma existsb_map_comp {A B : Type} (f : B -> bool) (g : A -> B) (l : list A) :
  existsb f (map g l) = existsb (fun a => f (g a)) l.
Proof. induction l as [|a l IH]; cbn; [reflexivity | now rewrite IH]. Qed.

(** on the tick lists behind the stored positions the subscriber of the
    session is [Replay.record] *)
Lemma window_record (arr : nat) (P : Session.Program) :
  Session.window (Session.record arr P)
  = record (Session.content (Session.heap P) arr) (Session.window P).
Proof.
  unfold Session.window, Session.record, record.
  cbn [Session.heap Session.__allRunFlapTicksArrays Session.__allRunStartYs
       Session.__allRunEndTicks Session.__currentRunStartY
       Session.__lastGameEndTick __allRunFlapTicksArrays __allRunStartYs
       __allRunEndTicks __currentRunStartY __lastGameEndTick].
  f_equal.
  destruct (Session.__allRunFlapTicksArrays P) as [l|]; cbn [option_map];
    [|reflexivity].
  rewrite existsb_map_comp.
  destruct (existsb _ l); cbn [option_map pushOnto]; [reflexivity|].
  now rewrite map_app.
Qed.

Lemma window_physicsFired (P : Session.Program) (r : Session.Run) :
  Session.window (Session.physicsFired P r)
  = physicsWindow (Session.state r) (Session.window P).
Proof.
  unfold Session.window, Session.physicsFired, physicsWindow.
  cbn [Session.heap Session.__allRunFlapTicksArrays Session.__allRunStartYs
       Session.__allRunEndTicks Session.__currentRunStartY
       Session.__lastGameEndTick].
  now destruct (negb (gameEnd (Session.state r))
                && gameEnd (physics (Session.state r))).
Qed.

Lemma pushAt_app (pre : list (list Z)) (a : list Z) (l : list (list Z)) (t : Z) :
  pushAt (List.length pre) t (pre ++ a :: l) = pre ++ (a ++ [t]) :: l.
Proof. induction pre as [|b pre IH]; cbn; [reflexivity | now rewrite IH]. Qed.

Lemma pushes_reach (l l' : list (list Z)) :
  Forall2 (fun a b => b = a \/ exists t, b = a ++ [t]) l l' ->
  forall pre w,
    __allRunFlapTicksArrays w = Some (pre ++ l) ->
    exists ops, fold_left applyWrite ops w = setTicks w (Some (pre ++ l')).
Proof.
  induction 1 as [|a b l l' Hab Hl IH]; intros pre w Hw.
  - exists []. cbn [fold_left]. unfold setTicks. rewrite <- Hw. now destruct w.
  - destruct Hab as [->|(t & ->)].
    + destruct (IH (pre ++ [a]) w) as (ops & Hops).
      * now rewrite <- app_assoc.
      * exists ops. rewrite Hops. now rewrite <- app_assoc.
    + destruct (IH (pre ++ [a ++ [t]]) (applyWrite w (Pushed (List.length pre) t)))
        as (ops & Hops).
      * cbn [applyWrite __allRunFlapTicksArrays]. rewrite Hw. cbn [option_map].
        now rewrite pushAt_app, <- app_assoc.
      * exists (Pushed (List.length pre) t :: ops). cbn [fold_left].
        rewrite Hops. unfold setTicks. cbn. now rewrite <- app_assoc.
Qed.

Lemma emit_writes (P : Session.Program) :
  exists ops, Session.window (Session.emit P)
              = fold_left applyWrite ops (Session.window P).
Proof.
  unfold Session.emit. destruct (Session.run P) as [r|]; [|now exists []].
  destruct (gameEnd (Session.state r) && negb (Session.taken r)); [|now exists []].
  cbn [Session.setRun Session.__currentRunFlapTicksArray Session.heap].
  destruct (Session.__currentRunFlapTicksArray P) as [arr|]; [|now exists []].
  destruct (recordable (Session.content (Session.heap P) arr)); [|now exists []].
  exists [Recorded (Session.content (Session.heap P) arr)].
  now rewrite window_record.
Qed.

Lemma step_writes (csvContents : string) (P : Session.Program)
  (i : Session.Input) :
  exists ops, Session.window (Session.step csvContents P i)
              = fold_left applyWrite ops (Session.window P).
Proof.
  destruct i as [| |j| | |idx]; cbn [Session.step].
  - exists []. cbn [fold_left]. unfold Session.window.
    cbn [Session.heap Session.__allRunFlapTicksArrays Session.__allRunStartYs
         Session.__allRunEndTicks Session.__currentRunStartY
         Session.__lastGameEndTick].
    f_equal. destruct (Session.__allRunFlapTicksArrays P) as [l|]; [|reflexivity].
    cbn [option_map]. f_equal. apply map_ext. intros r. apply content_new.
  - assert (H : exists ops,
                 Session.window (Session.setHeap P (Session.pushAll (Session.heap P)))
                 = fold_left applyWrite ops (Session.window P)).
    { destruct (Session.__allRunFlapTicksArrays P) as [l|] eqn:Hl.
      - destruct (pushes_reach (map (Session.content (Session.heap P)) l)
                    (map (Session.content (Session.pushAll (Session.heap P))) l))
          with (pre := @nil (list Z)) (w := Session.window P) as (ops & Hops).
        + clear Hl. induction l as [|r l IH]; cbn [map]; constructor; [|exact IH].
          rewrite content_pushAll. unfold Session.content.
          destruct (nth_error (Session.heap P) r); [right; eauto | now left].
        + unfold Session.window. cbn [__allRunFlapTicksArrays]. now rewrite Hl.
        + exists ops. rewrite Hops. unfold setTicks, Session.window.
          cbn [Session.setHeap Session.heap Session.__allRunFlapTicksArrays
               Session.__allRunStartYs Session.__allRunEndTicks
               Session.__currentRunStartY Session.__lastGameEndTick
               __allRunStartYs __allRunEndTicks __currentRunStartY
               __lastGameEndTick app].
          now rewrite Hl.
      - exists []. unfold Session.window.
        cbn [Session.setHeap Session.heap Session.__allRunFlapTicksArrays
             Session.__allRunStartYs Session.__allRunEndTicks
             Session.__currentRunStartY Session.__lastGameEndTick fold_left].
        now rewrite Hl. }
    destruct H as (ops & Hops).
    cbn [Session.run Session.setHeap].
    destruct (Session.run P) as [r|]; [|now exists ops].
    match goal with
    | |- context [Session.emit ?Q] =>
        destruct (emit_writes Q) as (ops2 & Hops2);
        exists (ops ++ ops2); rewrite Hops2, fold_left_app; f_equal; exact Hops
    end.
  - exists []. cbn [fold_left]. unfold Session.window.
    cbn [Session.setHeap Session.heap Session.__allRunFlapTicksArrays
         Session.__allRunStartYs Session.__allRunEndTicks
         Session.__currentRunStartY Session.__lastGameEndTick].
    f_equal. destruct (Session.__allRunFlapTicksArrays P) as [l|]; [|reflexivity].
    cbn [option_map]. f_equal. apply map_ext. intros r. apply content_elapse.
  - destruct (Session.run P) as [r|]; [|now exists []].
    destruct (emit_writes (Session.physicsFired P r)) as (ops & Hops).
    exists (Ticked (Session.state r) :: ops). cbn [fold_left applyWrite].
    now rewrite Hops, window_physicsFired.
  - destruct (Session.run P) as [r|]; [|now exists []].
    destruct (Session.hasGhost r); [|now exists []].
    match goal with
    | |- context [Session.emit ?Q] =>
        destruct (emit_writes Q) as (ops & Hops); exists ops; exact Hops
    end.
  - destruct (Session.run P) as [r|]; [|now exists []].
    destruct (Session.hasGhost r); [|now exists []].
    match goal with
    | |- context [Session.emit ?Q] =>
        destruct (emit_writes Q) as (ops & Hops); exists ops; exact Hops
    end.
Qed.

(** the globals after any inputs of a session are the result of a
    sequence of writes, starting from the empty [window] *)
Lemma session_writes (csvContents : string) (ins : list Session.Input) :
  exists ops, Session.window (Session.play csvContents ins)
              = fold_left applyWrite ops emptyWindow.
Proof.
  unfold Session.play.
  assert (G : forall P ops0,
             Session.window P = fold_left applyWrite ops0 emptyWindow ->
             exists ops, Session.window (fold_left (Session.step csvContents) ins P)
                         = fold_left applyWrite ops emptyWindow).
  { induction ins as [|i ins IH]; intros P ops0 H0; [now exists ops0|].
    cbn [fold_left]. destruct (step_writes csvContents P i) as (ops1 & H1).
    apply (IH _ (ops0 ++ ops1)). now rewrite fold_left_app, <- H0. }
  apply (G Session.loaded []). reflexivity.
Qed.

(** X17: [physics$] writes the end tick once, on the tick that ends the
    game: applied to a state of a run in which the game goes on, a tick
    that ends the game stores the number of ticks of the run, this one
    included, in [__lastGameEndTick] and leaves the other globals alone;
    a tick that does not end the game, or comes after the end, leaves
    [window] as it is. *)
Theorem X17_end_tick_is_written_once_with_the_tick_count
  (tl : option (list (list Z))) (csv : string) (es : list Event) (w : Window) :
  let s := scan tl (initialGameState csv) es in
  (gameEnd s = false -> gameEnd (physics s) = true ->
   __lastGameEndTick (physicsWindow s w) = Some (countTicks es + 1)
   /\ __allRunFlapTicksArrays (physicsWindow s w) = __allRunFlapTicksArrays w
   /\ __allRunStartYs (physicsWindow s w) = __allRunStartYs w
   /\ __allRunEndTicks (physicsWindow s w) = __allRunEndTicks w
   /\ __currentRunStartY (physicsWindow s w) = __currentRunStartY w)
  /\ (gameEnd s = true \/ gameEnd (physics s) = false -> physicsWindow s w = w).
Proof.
  intros s. split.
  - intros Hrun Hend. unfold physicsWindow. rewrite Hrun, Hend.
    cbn [negb andb __lastGameEndTick __allRunFlapTicksArrays __allRunStartYs
         __allRunEndTicks __currentRunStartY].
    repeat split.
    destruct (scan_gameTime tl es (initialGameState csv)) as [_ Heq].
    fold s in Heq. specialize (Heq Hrun).
    cbn [initialGameState gameTime initialState] in Heq.
    unfold physics. rewrite Hrun. cbn [gameTime]. f_equal. lia.
  - intros [H|H]; unfold physicsWindow; rewrite H;
      [reflexivity | now rewrite andb_false_r].
Qed.

Lemma X17_witness :
  gameEnd (scan None (initialGameState levelOnePipe) (ticks 86)) = false
  /\ gameEnd (physics (scan None (initialGameState levelOnePipe) (ticks 86))) = true
  /\ __lastGameEndTick
       (physicsWindow (scan None (initialGameState levelOnePipe) (ticks 86))
                      emptyWindow)
     = Some (countTicks (ticks 86) + 1).
Proof.
  assert (H1 : gameEnd (scan None (initialGameState levelOnePipe) (ticks 86))
               = false) by (vm_compute; reflexivity).
  assert (H2 : gameEnd (physics (scan None (initialGameState levelOnePipe)
                                      (ticks 86))) = true)
    by (vm_compute; reflexivity).
  exact (conj H1 (conj H2 (proj1 (proj1
           (X17_end_tick_is_written_once_with_the_tick_count
              None levelOnePipe (ticks 86) emptyWindow) H1 H2)))).
Defined.

(** ** How many obstacles a level has *)

Lemma split_length (c : ascii) (s : string) :
  List.length (split c s) = S (countChar c s).
Proof.
  induction s as [|c' s IH]; [reflexivity|].
  cbn [split countChar]. destruct (Ascii.eqb c' c).
  - cbn [List.length]. now rewrite IH.
  - destruct (split c s) as [|w ws]; [discriminate | exact IH].
Qed.

Lemma rect_parseLines_length (ls : list string) :
  forall i, List.length (RectRun.parseLines i ls) = List.length ls.
Proof. induction ls as [|l ls IH]; intros i; cbn; auto. Qed.

(** X18: the level loader returns as many obstacles as the text, with
    the white space at its ends removed, has line breaks, in every
    revision: the first line is always skipped, so an empty text, a blank
    text and a text of one line all give a level without obstacles. *)
Theorem X18_one_obstacle_per_line_break (csvContent : string) :
  List.length (parsePipeData csvContent) = countChar "010" (trim csvContent)
  /\ List.length (RectRun.parsePipeData csvContent)
     = countChar "010" (trim csvContent)
  /\ (countChar "010" (trim csvContent) = O -> parsePipeData csvContent = []).
Proof.
  pose proof (split_length "010" (trim csvContent)) as H.
  unfold parsePipeData, RectRun.parsePipeData.
  rewrite parseLines_length, rect_parseLines_length.
  destruct (split "010" (trim csvContent)) as [|l ls]; [discriminate|].
  cbn [List.tl List.length] in *. repeat split; try lia.
  intros H0. destruct ls; [reflexivity | cbn in H; lia].
Qed.

Lemma X18_witness :
  countChar "010" (trim levelHeaderOnly) = O
  /\ parsePipeData levelHeaderOnly = [].
Proof.
  assert (H : countChar "010" (trim levelHeaderOnly) = O)
    by (vm_compute; reflexivity).
  exact (conj H (proj2 (proj2 (X18_one_obstacle_per_line_break levelHeaderOnly)) H)).
Defined.

(** ** The player's impulse *)

Lemma jumpThenGravity :
  (Constants.JUMP_VELOCITY + Constants.GRAVITY)%num = Fin (-9 # 2).
Proof. vm_compute. reflexivity. Qed.

(** X19: an impulse replaces the bird's velocity, it does not add to it:
    two impulses in a row leave the state that one leaves, and on the
    tick after an impulse, in a game that has not ended, the bird moves
    up by 4.5 (jump velocity plus gravity), clamped to the screen,
    whatever its velocity was before; unless that tick takes the last
    life, the velocity after it is -4.5. *)
Theorem X19_impulse_replaces_velocity (s : State) :
  playerFlapReducer (playerFlapReducer s) = playerFlapReducer s
  /\ (gameEnd s = false ->
      Bird.y (bird (physics (playerFlapReducer s)))
      = clamp (Bird.y (bird s) + Fin (-9 # 2))%num
              (Birb.HEIGHT / two)%num
              (Viewport.CANVAS_HEIGHT - Birb.HEIGHT / two)%num
      /\ (lives (physics (playerFlapReducer s)) <> 0 ->
          Bird.velocity (bird (physics (playerFlapReducer s))) = Fin (-9 # 2))).
Proof.
  split.
  - unfold playerFlapReducer. destruct (gameEnd s) eqn:H; rewrite ?H; cbn [gameEnd];
      rewrite ?H; reflexivity.
  - intros H. unfold playerFlapReducer. rewrite H.
    unfold physics. cbn [gameEnd]. cbn [bird Bird.y Bird.velocity lives].
    unfold clampedY, newY, newVelocity. cbn [bird Bird.y Bird.velocity].
    rewrite jumpThenGravity. split; [reflexivity|].
    intros Hl. match goal with
               | |- (if ?b then _ else _) = _ => destruct b eqn:E
               end; [|reflexivity].
    apply Z.eqb_eq in E. contradiction.
Qed.

Lemma X19_witness :
  gameEnd (falling 20) = false
  /\ Bird.y (bird (physics (playerFlapReducer (falling 20))))
     = clamp (Bird.y (bird (falling 20)) + Fin (-9 # 2))%num
             (Birb.HEIGHT / two)%num
             (Viewport.CANVAS_HEIGHT - Birb.HEIGHT / two)%num.
Proof.
  assert (H : gameEnd (falling 20) = false) by (vm_compute; reflexivity).
  exact (conj H (proj1 (proj2 (X19_impulse_replaces_velocity (falling 20)) H))).
Defined.

(** ** The earlier revision: runs, rectangles and pipe hits *)

Lemma rect_nextLives_bounds (s : RectGame.State) :
  0 <= RectGame.lives s ->
  0 <= RectGame.nextLives s <= RectGame.lives s.
Proof.
  intros H. unfold RectGame.nextLives.
  destruct (RectGame.collided s && (RectGame.nextCooldown s =? 0)); lia.
Qed.

Lemma rect_reducer_inv (e : RectRun.Event) (s : RectGame.State) :
  0 <= RectGame.lives s <= 3
  /\ (RectGame.gameEnd s = true <-> RectGame.lives s = 0)
  /\ RectGame.score s = 0 ->
  (0 <= RectGame.lives (RectRun.reducer e s) <= RectGame.lives s
   /\ (RectGame.gameEnd (RectRun.reducer e s) = true
       <-> RectGame.lives (RectRun.reducer e s) = 0)
   /\ RectGame.score (RectRun.reducer e s) = 0)
  /\ (RectGame.gameEnd s = true -> RectRun.reducer e s = s).
Proof.
  intros (Hb & Hiff & Hs).
  destruct (RectGame.gameEnd s) eqn:Hend.
  - assert (E : RectRun.reducer e s = s).
    { destruct e; cbn [RectRun.reducer];
        [unfold RectGame.physics | unfold RectRun.flapReducer];
        now rewrite Hend. }
    rewrite E, Hend. repeat split; auto; try lia; apply Hiff.
  - split; [|discriminate].
    assert (Hpos : RectGame.lives s <> 0)
      by (intros E; apply Hiff in E; discriminate).
    destruct e; cbn [RectRun.reducer].
    + unfold RectGame.physics. rewrite Hend.
      cbn [RectGame.lives RectGame.gameEnd RectGame.score].
      pose proof (rect_nextLives_bounds s (proj1 Hb)) as Hn.
      repeat split; try lia; auto.
      * destruct (Z.eqb_spec (RectGame.nextLives s) 0); [auto | discriminate].
      * intros E. apply Z.eqb_eq in E. now rewrite E.
    + unfold RectRun.flapReducer. rewrite Hend.
      cbn [RectGame.lives RectGame.gameEnd RectGame.score].
      repeat split; try lia; auto; try discriminate.
Qed.

(** X20: the earlier revision keeps the same discipline of lives: in
    every run from its initial state 0 <= lives <= 3, no event increases
    lives, the game has ended exactly when lives are 0 (there is no way to
    win), every event after the end returns the state unchanged, and the
    score is never changed from 0. *)
Theorem X20_earlier_revision_ends_only_by_losing_all_lives
  (csv : string) (es : list RectRun.Event) (e : RectRun.Event) :
  let s := RectRun.scan (RectRun.initialGameState csv) es in
  0 <= RectGame.lives s <= 3
  /\ RectGame.lives (RectRun.reducer e s) <= RectGame.lives s
  /\ (RectGame.gameEnd s = true <-> RectGame.lives s = 0)
  /\ RectGame.score s = 0
  /\ (RectGame.gameEnd s = true -> RectRun.reducer e s = s).
Proof.
  intros s.
  assert (G : forall s0,
             0 <= RectGame.lives s0 <= 3
             /\ (RectGame.gameEnd s0 = true <-> RectGame.lives s0 = 0)
             /\ RectGame.score s0 = 0 ->
             0 <= RectGame.lives (RectRun.scan s0 es) <= 3
             /\ (RectGame.gameEnd (RectRun.scan s0 es) = true
                 <-> RectGame.lives (RectRun.scan s0 es) = 0)
             /\ RectGame.score (RectRun.scan s0 es) = 0).
  { induction es as [|e0 es IH]; intros s0 H; [exact H|].
    change (RectRun.scan s0 (e0 :: es))
      with (RectRun.scan (RectRun.reducer e0 s0) es).
    apply IH. destruct (rect_reducer_inv e0 s0 H) as [(H1 & H2 & H3) _].
    repeat split; try lia; apply H2. }
  assert (I : 0 <= RectGame.lives s <= 3
              /\ (RectGame.gameEnd s = true <-> RectGame.lives s = 0)
              /\ RectGame.score s = 0).
  { apply G. cbn. repeat split; try lia; discriminate. }
  destruct (rect_reducer_inv e s I) as [(H1 & _) Hfix].
  destruct I as (I1 & I2 & I3). repeat split; try lia; auto; apply I2.
Qed.

Lemma Qle_bool_false_iff (a b : Q) : Qle_bool a b = false <-> (b < a)%Q.
Proof.
  split; [apply Qle_bool_false|].
  intros H. destruct (Qle_bool a b) eqn:E; [|reflexivity].
  apply Qle_bool_iff in E. lra.
Qed.

(** X21: [rectsIntersect] does not depend on the order of the two
    rectangles; for finite coordinates it holds exactly when the two
    open intervals overlap on both axes, so rectangles that only share an
    edge do not intersect; and a rectangle whose position is NaN
    intersects everything, since every comparison with NaN is false. *)
Theorem X21_rectsIntersect_is_strict_overlap
  (ax ay aw ah bx by_ bw bh : Q) (a1 a2 a3 a4 b1 b2 b3 b4 : num) :
  RectGame.rectsIntersect a1 a2 a3 a4 b1 b2 b3 b4
  = RectGame.rectsIntersect b1 b2 b3 b4 a1 a2 a3 a4
  /\ (RectGame.rectsIntersect (Fin ax) (Fin ay) (Fin aw) (Fin ah)
                              (Fin bx) (Fin by_) (Fin bw) (Fin bh) = true
      <-> (ax < bx + bw /\ bx < ax + aw /\ ay < by_ + bh /\ by_ < ay + ah)%Q)
  /\ RectGame.rectsIntersect NaN NaN a3 a4 b1 b2 b3 b4 = true.
Proof.
  split; [|split].
  - unfold RectGame.rectsIntersect.
    destruct (a1 + a3 <=? b1)%num, (b1 + b3 <=? a1)%num,
             (a2 + a4 <=? b2)%num, (b2 + b4 <=? a2)%num; reflexivity.
  - unfold RectGame.rectsIntersect.
    change (negb (Qle_bool (Qred (ax + aw)) bx || Qle_bool (Qred (bx + bw)) ax
                  || Qle_bool (Qred (ay + ah)) by_
                  || Qle_bool (Qred (by_ + bh)) ay) = true
            <-> (ax < bx + bw /\ bx < ax + aw /\ ay < by_ + bh /\ by_ < ay + ah)%Q).
    rewrite negb_true_iff, !orb_false_iff, !Qle_bool_false_iff, !Qred_correct.
    tauto.
  - unfold RectGame.rectsIntersect.
    destruct a3, a4, b1, b2, b3, b4; reflexivity.
Qed.

Lemma X20_witness :
  RectGame.gameEnd (RectRun.scan (RectRun.initialGameState levelOnePipe)
                                 (repeat RectRun.Tick 87)) = true
  /\ RectRun.reducer RectRun.Flap
       (RectRun.scan (RectRun.initialGameState levelOnePipe)
                     (repeat RectRun.Tick 87))
     = RectRun.scan (RectRun.initialGameState levelOnePipe)
                    (repeat RectRun.Tick 87).
Proof.
  assert (H : RectGame.gameEnd
                (RectRun.scan (RectRun.initialGameState levelOnePipe)
                              (repeat RectRun.Tick 87)) = true)
    by (vm_compute; reflexivity).
  exact (conj H (proj2 (proj2 (proj2 (proj2
           (X20_earlier_revision_ends_only_by_losing_all_lives
              levelOnePipe (repeat RectRun.Tick 87) RectRun.Flap)))) H)).
Defined.

Lemma leb_zero_add (t y : num) : (ofZ 0 + t <=? y)%num = (t <=? y)%num.
Proof.
  destruct t as [| |q|], y as [| |r|]; try reflexivity.
  change (Qle_bool (Qred (inject_Z 0 + q)) r = Qle_bool q r).
  destruct (Qle_bool q r) eqn:E.
  - apply Qle_bool_iff. apply Qle_bool_iff in E. rewrite Qred_correct.
    unfold inject_Z. lra.
  - apply Qle_bool_false_iff. apply Qle_bool_false_iff in E.
    rewrite Qred_correct. unfold inject_Z. lra.
Qed.

Lemma anyPipeHit_existsb (birdX birdY birdW birdH : num)
  (ps : list RectGame.Pipe.t) :
  RectGame.anyPipeHit birdX birdY birdW birdH ps
  = existsb (RectGame.pipeHit birdX birdY birdW birdH) ps.
Proof.
  induction ps as [|p ps IH]; [reflexivity|].
  cbn [RectGame.anyPipeHit existsb].
  now destruct (RectGame.pipeHit birdX birdY birdW birdH p).
Qed.

(** X22: in the earlier revision a pipe pair is hit only if the bird's
    box overlaps the pair horizontally and does not lie within the gap:
    a box whose top is at or below the end of the top pipe and whose
    bottom is at or above the start of the bottom pipe hits nothing, and
    neither does a box entirely left or right of the pair.  The loop
    with [break] reports a hit exactly when some pair on screen is
    hit. *)
Theorem X22_pipe_hit_needs_overlap_outside_the_gap
  (birdX birdY birdW birdH : num) (p : RectGame.Pipe.t)
  (ps : list RectGame.Pipe.t) :
  let topH :=
    JSNum.max (ofZ 0)
              (RectGame.Pipe.gapY p - RectGame.Pipe.gapHeight p / two)%num in
  let bottomY := (RectGame.Pipe.gapY p + RectGame.Pipe.gapHeight p / two)%num in
  (RectGame.pipeHit birdX birdY birdW birdH p = true ->
   (birdX + birdW <=? RectGame.Pipe.x p)%num = false
   /\ (RectGame.Pipe.x p + Constants.PIPE_WIDTH <=? birdX)%num = false
   /\ (topH <=? birdY)%num && (birdY + birdH <=? bottomY)%num = false)
  /\ (RectGame.anyPipeHit birdX birdY birdW birdH ps = true
      <-> exists q, In q ps /\ RectGame.pipeHit birdX birdY birdW birdH q = true).
Proof.
  intros topH bottomY. split.
  - unfold RectGame.pipeHit. fold topH bottomY.
    unfold RectGame.rectsIntersect. rewrite leb_zero_add.
    intros H. apply orb_true_iff in H.
    destruct H as [H|H]; apply andb_true_iff in H; destruct H as [_ H];
      apply negb_true_iff in H; rewrite !orb_false_iff in H;
      destruct H as (((A & B) & C) & D); repeat split; auto.
    + rewrite D. reflexivity.
    + rewrite C. apply andb_false_r.
  - rewrite anyPipeHit_existsb. apply existsb_exists.
Qed.

Lemma X22_witness :
  RectGame.pipeHit (ofZ 159) (ofZ 185) (ofZ 42) (ofZ 30)
    {| RectGame.Pipe.id := 0; RectGame.Pipe.x := ofZ 100;
       RectGame.Pipe.gapY := ofZ 100; RectGame.Pipe.gapHeight := ofZ 100;
       RectGame.Pipe.time := Some (ofZ 0) |} = true
  /\ (ofZ 159 + ofZ 42 <=? ofZ 100)%num = false.
Proof.
  assert (H : RectGame.pipeHit (ofZ 159) (ofZ 185) (ofZ 42) (ofZ 30)
                {| RectGame.Pipe.id := 0; RectGame.Pipe.x := ofZ 100;
                   RectGame.Pipe.gapY := ofZ 100;
                   RectGame.Pipe.gapHeight := ofZ 100;
                   RectGame.Pipe.time := Some (ofZ 0) |} = true)
    by (vm_compute; reflexivity).
  exact (conj H (proj1 (proj1 (X22_pipe_hit_needs_overlap_outside_the_gap
                                 (ofZ 159) (ofZ 185) (ofZ 42) (ofZ 30) _ []) H))).
Defined.

(** ** The first revision *)

Lemma first_reducer_inv (e : FirstGame.Event) (s : FirstGame.State) :
  FirstGame.gameEnd (FirstGame.reducer e s) = FirstGame.gameEnd s
  /\ FirstGame.lives (FirstGame.reducer e s) = FirstGame.lives s
  /\ FirstGame.score (FirstGame.reducer e s) = FirstGame.score s
  /\ FirstGame.gameTime (FirstGame.reducer e s)
     = match e with
       | FirstGame.Tick => FirstGame.gameTime s + 1
       | FirstGame.Flap => FirstGame.gameTime s
       end.
Proof. destruct e; repeat split. Qed.

(** X23: the first revision has no way to end: in every run from its
    initial state end-of-game stays false, lives stay 3 and the score
    stays 0, the tick count is the number of tick events, and an impulse
    always sets the velocity to the jump velocity -7. *)
Theorem X23_first_revision_never_ends
  (csv : string) (es : list FirstGame.Event) :
  let s := FirstGame.scan (FirstGame.initialGameState csv) es in
  FirstGame.gameEnd s = false
  /\ FirstGame.lives s = 3
  /\ FirstGame.score s = 0
  /\ FirstGame.gameTime s
     = Z.of_nat (List.length
                   (filter (fun e => match e with
                                     | FirstGame.Tick => true
                                     | FirstGame.Flap => false
                                     end) es))
  /\ Game.Bird.velocity (FirstGame.bird (FirstGame.flapReducer s)) = ofZ (-7).
Proof.
  intros s.
  assert (G : forall s0,
             FirstGame.gameEnd (FirstGame.scan s0 es) = FirstGame.gameEnd s0
             /\ FirstGame.lives (FirstGame.scan s0 es) = FirstGame.lives s0
             /\ FirstGame.score (FirstGame.scan s0 es) = FirstGame.score s0
             /\ FirstGame.gameTime (FirstGame.scan s0 es)
                = FirstGame.gameTime s0
                  + Z.of_nat (List.length
                                (filter (fun e => match e with
                                                  | FirstGame.Tick => true
                                                  | FirstGame.Flap => false
                                                  end) es))).
  { induction es as [|e es IH]; intros s0.
    - cbn. repeat split; lia.
    - change (FirstGame.scan s0 (e :: es))
        with (FirstGame.scan (FirstGame.reducer e s0) es).
      destruct (IH (FirstGame.reducer e s0)) as (H1 & H2 & H3 & H4).
      destruct (first_reducer_inv e s0) as (E1 & E2 & E3 & E4).
      rewrite H1, H2, H3, H4, E1, E2, E3, E4.
      repeat split. destruct e; cbn [filter List.length]; lia. }
  destruct (G (FirstGame.initialGameState csv)) as (H1 & H2 & H3 & H4).
  fold s in H1, H2, H3, H4. repeat split; auto.
Qed.

(** ** The scoring pass of a tick *)

Lemma filter_split_length {A : Type} (f : A -> bool) (l : list A) :
  (List.length (filter f l) + List.length (filter (fun a => negb (f a)) l)
   = List.length l)%nat.
Proof.
  induction l as [|a l IH]; [reflexivity|].
  cbn [filter]. destruct (f a); cbn [negb List.length]; lia.
Qed.

(** X24: on a tick of a game that has not ended every obstacle whose
    centre line has just moved left of the bird is judged once, either
    as a point or as a miss: the points added are the number of such
    obstacles with the bird's new height inside the gap, the centre-line
    collision is raised exactly when one of them has it outside, points
    and misses add up to the number of obstacles just passed, and the
    collision flag of the tick is the bounds test or that collision. *)
Theorem X24_each_passed_obstacle_is_a_point_or_a_miss (s : State) :
  let passed := filter (justPassed (Bird.x (bird s))) (updatedPipes s) in
  let inside := filter (insideGap (clampedY s)) passed in
  let missed := filter (fun p => negb (insideGap (clampedY s) p)) passed in
  addedScore (fst (scoring s)) = Z.of_nat (List.length inside)
  /\ pipeCenterCollision (fst (scoring s)) = negb (Nat.eqb (List.length missed) 0)
  /\ (List.length inside + List.length missed = List.length passed)%nat
  /\ collided s
     = (clampedY s <=? Birb.HEIGHT / two)%num
       || (clampedY s >=? Viewport.CANVAS_HEIGHT - Birb.HEIGHT / two)%num
       || negb (Nat.eqb (List.length missed) 0)
  /\ List.length (scoredPipes s) = List.length (updatedPipes s).
Proof.
  intros passed inside missed.
  assert (Hc : pipeCenterCollision (fst (scoring s))
               = negb (Nat.eqb (List.length missed) 0)).
  { unfold scoring. rewrite scoreAll_spec. cbn [fst pipeCenterCollision orb].
    fold passed. subst missed. clearbody passed.
    induction passed as [|p l IH]; [reflexivity|].
    cbn [existsb filter]. destruct (insideGap (clampedY s) p); cbn [negb orb];
      [exact IH | reflexivity]. }
  repeat split.
  - unfold scoring. rewrite scoreAll_spec. cbn [fst addedScore].
    fold passed. subst inside. lia.
  - exact Hc.
  - apply filter_split_length.
  - unfold collided. rewrite Hc.
    destruct ((clampedY s <=? Birb.HEIGHT / two)%num
              || (clampedY s >=? Viewport.CANVAS_HEIGHT - Birb.HEIGHT / two)%num);
      cbn [negb andb orb]; [reflexivity|].
    now destruct (negb (Nat.eqb (List.length missed) 0)).
  - rewrite scoredPipes_map. apply length_map.
Qed.

(** ** A ghost flies the recorded flight *)

Lemma baseGhosts_some (tl : option (list (list Z))) (w : Window) (s : State)
  (g : Ghost.t) (gs : list Ghost.t) :
  baseGhosts tl w (withGhosts s (g :: gs)) = g :: gs.
Proof. reflexivity. Qed.

Lemma sourceRunEnded_before (w : Window) (s : State) (i : nat) (endTick : Z) :
  optNth (__allRunEndTicks w) i = Some endTick ->
  gameTime s < endTick ->
  sourceRunEnded w s i = false.
Proof.
  intros Hw Ht. unfold sourceRunEnded. rewrite Hw.
  apply not_true_is_false. rewrite Z.geb_le. lia.
Qed.

(** the player's own events leave the ghosts to the ghost reducers *)
Lemma baseGhosts_player (tl : option (list (list Z))) (w : Window) (e : Event)
  (s : State) :
  playerEvent e = true ->
  baseGhosts tl w (reducer tl e s) = baseGhosts tl w s.
Proof.
  intros He. destruct e; try discriminate; cbn [reducer].
  - unfold physics. now destruct (gameEnd s).
  - unfold playerFlapReducer. now destruct (gameEnd s).
Qed.

Lemma replay_step (tl : option (list (list Z))) (e g : Event) (endTick : Z)
  (p c : State) (x0 : num) :
  mirrors e g ->
  seesNoStartYs g -> seesEndTick 0 endTick g ->
  gameEnd (reducer None e p) = false ->
  gameEnd c = false -> gameTime c < endTick ->
  (forall w, __allRunStartYs w = None ->
             baseGhosts tl w c = [ghostOf (bird p) x0]) ->
  forall w, baseGhosts tl w (reducer tl g c)
            = [ghostOf (bird (reducer None e p)) x0].
Proof.
  intros Hm Hs He Hp Hc Ht Hb w.
  assert (Hp0 : gameEnd p = false).
  { destruct (gameEnd p) eqn:E; [|reflexivity].
    rewrite (proj1 (reducer_frozen None e p E)) in Hp. discriminate. }
  destruct e, g; cbn [mirrors] in Hm; try contradiction;
    cbn [reducer seesNoStartYs seesEndTick] in *.
  - unfold ghostReducerPhysics. rewrite Hc, (Hb w0 Hs). cbn [mapi].
    rewrite baseGhosts_some.
    unfold advanceGhost. rewrite (sourceRunEnded_before w0 c 0 endTick He Ht).
    unfold physics in *. rewrite Hp0 in *. cbn [gameEnd bird] in *.
    destruct (nextLives p =? 0); [discriminate|]. reflexivity.
  - subst idx. unfold ghostReducerFlap. rewrite (Hb w0 Hs).
    cbn [List.length Z.of_nat].
    cbn [Z.geb Z.ltb Z.compare andb Pos.of_succ_nat Z.to_nat nth_error].
    rewrite (sourceRunEnded_before w0 c 0 endTick He Ht). cbn [negb setNth].
    rewrite baseGhosts_some.
    unfold playerFlapReducer. rewrite Hp0. reflexivity.
Qed.

(** X26: a ghost flies the flight that was recorded.  Take a run [es] of
    the player's ticks and impulses from the initial state in which the
    game has not ended.  In a later run that starts without ghosts and
    has one recorded run to replay, let every tick of [es] come back as a
    tick of the ghost physics and every impulse as an impulse of ghost
    0, in the same order, between whatever ticks and impulses the player
    of the later run makes; let the ghost reducers read no start height
    and the end tick of the recorded run, and let the later run be still
    going on and not have reached that end tick.  Then the ghost is at
    the height and has the velocity that the bird had at the end of
    [es]. *)
Theorem X26_ghost_replays_the_recorded_flight
  (csv : string) (l : list Z) (endTick : Z) (es cs : list Event) (c : State) :
  Forall2 mirrors es (ghostEvents cs) ->
  gameEnd (scan None (initialGameState csv) es) = false ->
  Forall seesNoStartYs cs ->
  Forall (seesEndTick 0 endTick) cs ->
  ghostList c = [] ->
  gameEnd (scan (Some [l]) c cs) = false ->
  gameTime (scan (Some [l]) c cs) < endTick ->
  forall w, __allRunStartYs w = None ->
    baseGhosts (Some [l]) w (scan (Some [l]) c cs)
    = [ghostOf (bird (scan None (initialGameState csv) es)) (Bird.x (bird c))].
Proof.
  intros Hm Hend Hs He Hg Hc Ht.
  assert (G : forall es0 p c0,
             Forall2 mirrors es0 (ghostEvents cs) ->
             gameEnd (scan None p es0) = false ->
             gameEnd (scan (Some [l]) c0 cs) = false ->
             gameTime (scan (Some [l]) c0 cs) < endTick ->
             (forall w, __allRunStartYs w = None ->
                baseGhosts (Some [l]) w c0 = [ghostOf (bird p) (Bird.x (bird c))]) ->
             forall w, __allRunStartYs w = None ->
               baseGhosts (Some [l]) w (scan (Some [l]) c0 cs)
               = [ghostOf (bird (scan None p es0)) (Bird.x (bird c))]).
  { clear Hm Hend Hg Hc Ht.
    induction cs as [|g cs IH]; intros es0 p c0 Hm Hp Hc0 Ht0 Hb w Hw.
    - cbn [ghostEvents filter] in Hm. inversion Hm; subst. now apply Hb.
    - inversion Hs as [|? ? Hs1 Hs']; subst.
      inversion He as [|? ? He1 He']; subst.
      change (scan (Some [l]) c0 (g :: cs))
        with (scan (Some [l]) (reducer (Some [l]) g c0) cs) in *.
      assert (Hc1 : gameEnd (reducer (Some [l]) g c0) = false).
      { destruct (gameEnd (reducer (Some [l]) g c0)) eqn:E; [|reflexivity].
        rewrite (scan_frozen (Some [l]) cs _ E) in Hc0. discriminate. }
      assert (Hc2 : gameEnd c0 = false).
      { destruct (gameEnd c0) eqn:E; [|reflexivity].
        rewrite (proj1 (reducer_frozen (Some [l]) g c0 E)) in Hc1. discriminate. }
      assert (Ht1 : gameTime c0 < endTick).
      { pose proof (proj1 (scan_gameTime (Some [l]) cs (reducer (Some [l]) g c0)))
          as H1.
        rewrite reducer_gameTime in H1. destruct g; rewrite ?Hc2 in H1; lia. }
      cbn [ghostEvents filter] in Hm.
      destruct (playerEvent g) eqn:Hpl; cbn [negb] in Hm.
      + apply (IH Hs' He' es0 p); auto.
        intros w1 Hw1. rewrite baseGhosts_player by exact Hpl. now apply Hb.
      + inversion Hm as [|e ? es1 ? Hm1 Hm']; subst.
        change (scan None p (e :: es1)) with (scan None (reducer None e p) es1) in *.
        assert (Hp1 : gameEnd (reducer None e p) = false).
        { destruct (gameEnd (reducer None e p)) eqn:E; [|reflexivity].
          rewrite (scan_frozen None es1 _ E) in Hp. discriminate. }
        apply (IH Hs' He' es1 (reducer None e p)); auto.
        intros w1 _.
        apply (replay_step (Some [l]) e g endTick p c0); auto. }
  intros w Hw. apply (G es (initialGameState csv) c); auto.
  intros w1 Hw1. rewrite (baseGhosts_fresh (Some [l]) w1 c Hw1 Hg). reflexivity.
Qed.

Lemma X26_witness :
  Forall2 mirrors (ticks 5 ++ Flap :: ticks 20) (ghostEvents replayRun)
  /\ gameTime (scan (Some [[5]]) (initialGameState levelOnePipe) replayRun) < 103
  /\ baseGhosts (Some [[5]]) ledgerAfterFirstRun
                (scan (Some [[5]]) (initialGameState levelOnePipe) replayRun)
     = [ghostOf (bird (scan None (initialGameState levelOnePipe)
                            (ticks 5 ++ Flap :: ticks 20)))
                (Bird.x (bird (initialGameState levelOnePipe)))].
Proof.
  assert (H1 : Forall2 mirrors (ticks 5 ++ Flap :: ticks 20) (ghostEvents replayRun))
    by (repeat constructor).
  assert (H2 : gameEnd (scan None (initialGameState levelOnePipe)
                             (ticks 5 ++ Flap :: ticks 20)) = false)
    by (vm_compute; reflexivity).
  assert (H3 : Forall seesNoStartYs replayRun) by (repeat constructor).
  assert (H4 : Forall (seesEndTick 0 103) replayRun)
    by (repeat constructor; vm_compute; reflexivity).
  assert (H5 : gameEnd (scan (Some [[5]]) (initialGameState levelOnePipe) replayRun)
               = false) by (vm_compute; reflexivity).
  assert (H6 : gameTime (scan (Some [[5]]) (initialGameState levelOnePipe) replayRun)
               < 103) by (vm_compute; reflexivity).
  exact (conj H1 (conj H6
           (X26_ghost_replays_the_recorded_flight
              levelOnePipe [5] 103 _ replayRun (initialGameState levelOnePipe)
              H1 H2 H3 H4 eq_refl H5 H6 ledgerAfterFirstRun eq_refl))).
Defined.

(** ** Ghosts stay on screen *)

Lemma in_mapi {A B : Type} (f : A -> nat -> B) (l : list A) (b : B) :
  forall k, In b (mapi f k l) -> exists a i, In a l /\ b = f a i.
Proof.
  induction l as [|a l IH]; intros k H; [contradiction|].
  cbn [mapi] in H. destruct H as [<-|H].
  - exists a, k. split; [now left | reflexivity].
  - destruct (IH _ H) as (a' & i & Ha & ->). exists a', i. split; [now right | reflexivity].
Qed.

Lemma in_setNth {A : Type} (v : A) (l : list A) (a : A) :
  forall i, In a (setNth i v l) -> a = v \/ In a l.
Proof.
  induction l as [|b l IH]; intros i H; [destruct i; contradiction|].
  destruct i as [|i]; cbn [setNth] in H; destruct H as [<-|H]; auto.
  - right. now right.
  - right. now left.
  - destruct (IH _ H); auto. right. now right.
Qed.

Lemma baseGhosts_onScreen (tl : option (list (list Z))) (w : Window) (s : State) :
  __allRunStartYs w = None ->
  Bird.x (bird s) = ofZ 180 ->
  (forall g, In g (ghostList s) -> ghostOnScreen g /\ Ghost.x g = ofZ 180) ->
  forall g, In g (baseGhosts tl w s) -> ghostOnScreen g /\ Ghost.x g = ofZ 180.
Proof.
  intros Hw Hx H g Hg.
  destruct (ghostList s) as [|g0 gs] eqn:E.
  - rewrite (baseGhosts_fresh tl w s Hw E) in Hg. apply repeat_spec in Hg. subst g.
    split; [|exact Hx]. exists 200%Q, 0%Q.
    repeat split; try reflexivity; vm_compute; discriminate.
  - rewrite (baseGhosts_existing tl w s 0 g0) in Hg by now rewrite E.
    apply H. now rewrite <- E.
Qed.

Lemma reducer_ghostsOnScreen (tl : option (list (list Z))) (e : Event) (s : State) :
  seesNoStartYs e ->
  Bird.x (bird s) = ofZ 180 ->
  (forall g, In g (ghostList s) -> ghostOnScreen g /\ Ghost.x g = ofZ 180) ->
  forall g, In g (ghostList (reducer tl e s)) ->
            ghostOnScreen g /\ Ghost.x g = ofZ 180.
Proof.
  intros He Hx H g Hg. destruct e; cbn [reducer seesNoStartYs] in *.
  - apply H. unfold physics in Hg. now destruct (gameEnd s).
  - apply H. unfold playerFlapReducer in Hg. now destruct (gameEnd s).
  - unfold ghostReducerPhysics in Hg. destruct (gameEnd s); [now apply H|].
    cbn [ghostList withGhosts ghosts] in Hg.
    destruct (in_mapi _ _ _ _ Hg) as (g0 & i & Hg0 & ->).
    destruct (baseGhosts_onScreen tl w s He Hx H g0 Hg0)
      as [(y & v & Hy & Hv & B) Hgx].
    unfold advanceGhost. destruct (sourceRunEnded w s i).
    + split; [exists y, v; auto | exact Hgx].
    + split; [|exact Hgx]. cbn [Ghost.y Ghost.velocity]. rewrite Hy, Hv.
      destruct (clampedY_onScreen y v) as (r & E & Br).
      exists r, (Qred (v + (1 # 2))). repeat split; try exact E; apply Br.
  - unfold ghostReducerFlap in Hg. cbn [ghostList withGhosts ghosts] in Hg.
    pose proof (baseGhosts_onScreen tl w s He Hx H) as Hb.
    destruct ((idx >=? 0) && (idx <? Z.of_nat (List.length (baseGhosts tl w s))));
      [|now apply Hb].
    destruct (negb (sourceRunEnded w s (Z.to_nat idx))); [|now apply Hb].
    destruct (nth_error (baseGhosts tl w s) (Z.to_nat idx)) as [g0|] eqn:G0;
      [|now apply Hb].
    apply in_setNth in Hg. destruct Hg as [->|Hg]; [|now apply Hb].
    destruct (Hb g0 (nth_error_In _ _ G0)) as [(y & v & Hy & Hv & B) Hgx].
    split; [|exact Hgx]. exists y, (inject_Z (-5)). repeat split; auto; apply B.
Qed.

(** X25: ghosts stay on screen: in every run from the initial state in
    which the ghost events read no start heights, every ghost is at the
    bird's horizontal position 180 and has a finite velocity and a finite
    height between 15 and 385. *)
Theorem X25_ghosts_stay_on_screen
  (tl : option (list (list Z))) (csv : string) (es : list Event) :
  Forall seesNoStartYs es ->
  forall g, In g (ghostList (scan tl (initialGameState csv) es)) ->
            ghostOnScreen g /\ Ghost.x g = ofZ 180.
Proof.
  intros Hes.
  assert (G : forall s,
             Bird.x (bird s) = ofZ 180 ->
             (forall g, In g (ghostList s) ->
                        ghostOnScreen g /\ Ghost.x g = ofZ 180) ->
             forall g, In g (ghostList (scan tl s es)) ->
                       ghostOnScreen g /\ Ghost.x g = ofZ 180).
  { induction es as [|e es IH]; intros s Hx H; [exact H|].
    inversion Hes as [|? ? He Hes']; subst.
    change (scan tl s (e :: es)) with (scan tl (reducer tl e s) es).
    apply IH; auto.
    - now rewrite (proj1 (reducer_static tl e s)).
    - now apply reducer_ghostsOnScreen. }
  apply G; [vm_compute; reflexivity | intros g []].
Qed.

Lemma X25_witness :
  Forall seesNoStartYs (List.concat (repeat tickWithGhost 3))
  /\ In ghostFalling
        (ghostList (scan (Some [[5]]) (initialGameState levelOnePipe)
                         (List.concat (repeat tickWithGhost 3))))
  /\ ghostOnScreen ghostFalling.
Proof.
  assert (H1 : Forall seesNoStartYs (List.concat (repeat tickWithGhost 3)))
    by (repeat constructor).
  assert (H2 : In ghostFalling
                  (ghostList (scan (Some [[5]]) (initialGameState levelOnePipe)
                                   (List.concat (repeat tickWithGhost 3)))))
    by (vm_compute; left; reflexivity).
  exact (conj H1 (conj H2 (proj1 (X25_ghosts_stay_on_screen
                                    (Some [[5]]) levelOnePipe _ H1
                                    ghostFalling H2)))).
Defined.
